(** * Thermal-resistance solver of honeybee_energy/construction.py

    A shallow embedding of the film-coefficient formulas, the temperature
    profile builder, the layered resistance solver and the material-list
    validators of [_ConstructionBase], [OpaqueConstruction] and
    [WindowConstruction].

    Python floats are read as real numbers (exact arithmetic).  A Python
    computation that may raise is a value of [res]; a [while] loop whose
    termination is not evident from the code is run with fuel and answers
    [OutOfFuel] when the fuel is spent. *)

From Stdlib Require Import Reals Lra Lia List ZArith Bool Sorted.
From Stdlib Require String.
Import ListNotations.
Open Scope R_scope.

(** ** Outcomes of a Python computation *)

Inductive exn : Type :=
| AssertionError
| IndexError
| ZeroDivisionError
| AttributeError
| TypeError.

Inductive res (A : Type) : Type :=
| Ok (a : A)
| Raise (e : exn)
| OutOfFuel.

Arguments Ok {A} a.
Arguments Raise {A} e.
Arguments OutOfFuel {A}.

Definition bind {A B : Type} (m : res A) (f : A -> res B) : res B :=
  match m with
  | Ok a => f a
  | Raise e => Raise e
  | OutOfFuel => OutOfFuel
  end.

Notation "'do' x <- m ; k" := (bind m (fun x => k))
  (at level 10, x name, m at level 100, k at level 200).

Notation "'do' ' pat <- m ; k" :=
  (bind m (fun x => match x with pat => k end))
  (at level 10, pat pattern, m at level 100, k at level 200).

(** [assert cond] *)
Definition assert (b : bool) : res unit :=
  if b then Ok tt else Raise AssertionError.

(** [a / b] on floats: raises [ZeroDivisionError] when [b] is zero. *)
Definition pydiv (a b : R) : res R :=
  if Req_dec_T b 0 then Raise ZeroDivisionError else Ok (a / b).

(** [l[i]] with Python's index rule: a negative index counts from the end,
    anything outside [-len, len) raises [IndexError]. *)
Definition getitem {A : Type} (l : list A) (i : Z) : res A :=
  let n := Z.of_nat (length l) in
  let j := if (i <? 0)%Z then (i + n)%Z else i in
  if ((j <? 0) || (n <=? j))%Z then Raise IndexError
  else match nth_error l (Z.to_nat j) with
       | Some a => Ok a
       | None => Raise IndexError
       end.

(** [sum(l)]: Python starts from 0 and adds from the left. *)
Definition sum (l : list R) : R := fold_left Rplus l 0.

(** [x ** y] for a float base [x >= 0] and a positive float exponent
    (the only way the source uses it): [0.0 ** y] is [0.0]. *)
Definition float_pow (x y : R) : R :=
  if Rle_dec x 0 then 0 else Rpower x y.

(** [math.radians] *)
Definition radians (a : R) : R := a * (PI / 180).

(** ** Temperature profile builder *)

(** The [for i, r_val in enumerate(r_values)] loop of
    [_temperature_profile_from_r_values]; [temperatures] grows by one entry
    per iteration and is read at index [i]. *)
Fixpoint temperature_loop (delta_t r_factor : R) (i : nat) (r_values : list R)
    (temperatures : list R) : res (list R) :=
  match r_values with
  | [] => Ok temperatures
  | r_val :: rest =>
      do t_i <- getitem temperatures (Z.of_nat i) ;
      do q <- pydiv r_val r_factor ;
      temperature_loop delta_t r_factor (S i) rest
        (temperatures ++ [t_i + delta_t * q])
  end.

Definition _temperature_profile_from_r_values (r_values : list R)
    (outside_temperature inside_temperature : R) : res (list R) :=
  let r_factor := sum r_values in
  let delta_t := inside_temperature - outside_temperature in
  temperature_loop delta_t r_factor 0 r_values [outside_temperature].


(** ** Material capability interface

    The material classes live in [honeybee_energy.material], outside this
    module; a construction only dispatches on their base class and calls the
    methods below.  The formulas behind the methods are inputs here. *)

(** Methods of a gas layer ([_EnergyWindowMaterialGasBase]).
    [gas_u_value delta_t emissivity_1 emissivity_2 t_kelvin] and
    [gas_u_value_at_angle delta_t emissivity_1 emissivity_2 height angle
    t_kelvin pressure]. *)
Record gas_methods : Type := {
  gas_u_value : R -> R -> R -> R -> R;
  gas_u_value_at_angle : R -> R -> R -> R -> R -> R -> R -> R
}.

(** Methods and attributes of a shade or blind layer
    ([_EnergyWindowMaterialShadeBase]).  The resistance methods take
    [delta_t], the adjacent emissivities, then [height], [angle], [t_kelvin]
    and [pressure]; [None] for [height], [angle] or [pressure] is an argument
    the caller leaves to the method's own default. *)
Record shade_methods : Type := {
  shade_emissivity : R;
  shade_emissivity_back : option R;
  shade_r_value_exterior :
    R -> R -> option R -> option R -> R -> option R -> R;
  shade_r_value_interior :
    R -> R -> option R -> option R -> R -> option R -> R;
  shade_r_value_between :
    R -> R -> R -> option R -> option R -> R -> option R -> R
}.

(** A layer, by the base class the construction code tests with
    [isinstance]. *)
Inductive material : Type :=
| OpaqueMaterial (r_value thermal_absorptance : R)
| Glazing (r_value emissivity emissivity_back : R)
| SimpleGlazSys (r_value : R)
| Gas (g : gas_methods)
| Shade (s : shade_methods).

(** [isinstance(mat, _EnergyMaterialOpaqueBase)] *)
Definition is_opaque_base (mat : material) : bool :=
  match mat with OpaqueMaterial _ _ => true | _ => false end.

(** [isinstance(mat, _EnergyMaterialWindowBase)] *)
Definition is_window_base (mat : material) : bool :=
  negb (is_opaque_base mat).

(** [isinstance(mat, EnergyWindowMaterialSimpleGlazSys)] *)
Definition is_simple_glaz_sys (mat : material) : bool :=
  match mat with SimpleGlazSys _ => true | _ => false end.

(** [isinstance(mat, _EnergyWindowMaterialGasBase)] *)
Definition is_gas_base (mat : material) : bool :=
  match mat with Gas _ => true | _ => false end.

(** [isinstance(mat, _EnergyWindowMaterialGlazingBase)]: the simple glazing
    system is a glazing material too. *)
Definition is_glazing_base (mat : material) : bool :=
  match mat with Glazing _ _ _ | SimpleGlazSys _ => true | _ => false end.

(** [isinstance(mat, _EnergyWindowMaterialShadeBase)] *)
Definition is_shade_base (mat : material) : bool :=
  match mat with Shade _ => true | _ => false end.

(** Attribute reads.  An attribute that a class does not carry raises
    [AttributeError]. *)
Definition get_r_value (mat : material) : res R :=
  match mat with
  | OpaqueMaterial r _ | Glazing r _ _ | SimpleGlazSys r => Ok r
  | _ => Raise AttributeError
  end.

Definition get_thermal_absorptance (mat : material) : res R :=
  match mat with
  | OpaqueMaterial _ a => Ok a
  | _ => Raise AttributeError
  end.

Definition get_emissivity (mat : material) : res R :=
  match mat with
  | Glazing _ e _ => Ok e
  | Shade s => Ok (shade_emissivity s)
  | _ => Raise AttributeError
  end.

Definition get_emissivity_back (mat : material) : res R :=
  match mat with
  | Glazing _ _ e => Ok e
  | Shade s => match shade_emissivity_back s with
               | Some e => Ok e
               | None => Raise AttributeError
               end
  | _ => Raise AttributeError
  end.

(** [try: x = mat.emissivity_back / except AttributeError: x = mat.emissivity]
    where [mat] is itself the outcome of an index lookup made inside the
    [try]. *)
Definition emissivity_back_or_front (mat : res material) : res R :=
  do m <- mat ;
  match get_emissivity_back m with
  | Raise AttributeError => get_emissivity m
  | r => r
  end.

(** The generic air of [_ConstructionBase._air]
    ([EnergyWindowMaterialGas('generic air', gas_type='Air')]); its property
    curves are defined in the gas material module. *)
Record air_model : Type := {
  density_at_temperature : R -> R -> R;
  specific_heat_at_temperature : R -> R;
  viscosity_at_temperature : R -> R;
  conductivity_at_temperature : R -> R
}.

(** ** Film coefficients ([_ConstructionBase]) *)

Definition out_h_simple : R := 23.

(** [in_h_simple], given the value of [self.inside_emissivity]. *)
Definition in_h_simple (inside_emissivity : R) : R :=
  3.6 + (4.4 * inside_emissivity / 0.84).

(** [out_h], given the value of [self.outside_emissivity]. *)
Definition out_h (outside_emissivity wind_speed t_kelvin : R) : R :=
  let _conv_h := 4 + (4 * wind_speed) in
  let _rad_h := 4 * 5.6697e-8 * outside_emissivity * (t_kelvin ^ 3) in
  _conv_h + _rad_h.

(** The Rayleigh number [_rayleigh_h] of [in_h]. *)
Definition rayleigh (_air : air_model) (t_kelvin delta_t height pressure : R)
    : res R :=
  let _ray_numerator :=
    (density_at_temperature _air t_kelvin pressure ^ 2) * (height ^ 3) * 9.81
    * specific_heat_at_temperature _air t_kelvin * delta_t in
  let _ray_denominator :=
    t_kelvin * viscosity_at_temperature _air t_kelvin
    * conductivity_at_temperature _air t_kelvin in
  do q <- pydiv _ray_numerator _ray_denominator ;
  Ok (Rabs q).

(** The critical Rayleigh number [_rayleigh_c] of the [angle <= 90] branch. *)
Definition rayleigh_c (angle : R) : res R :=
  let _sin_a := sin (radians angle) in
  do q <- pydiv (exp (0.72 * angle)) _sin_a ;
  Ok (2.5e5 * float_pow q (1 / 5)).

(** The formula of the [elif angle <= 179] branch. *)
Definition nusselt_inclined (_rayleigh_h angle : R) : R :=
  let _sin_a := sin (radians angle) in
  0.56 * float_pow (_rayleigh_h * _sin_a) (1 / 4).

(** The [if angle < 15 / elif angle <= 90 / elif angle <= 179 / else] chain
    of [in_h] that turns the Rayleigh number into [nusselt]. *)
Definition nusselt (_rayleigh_h angle : R) : res R :=
  if Rlt_dec angle 15 then
    Ok (0.13 * float_pow _rayleigh_h (1 / 3))
  else if Rle_dec angle 90 then
    let _sin_a := sin (radians angle) in
    do _rayleigh_c <- rayleigh_c angle ;
    if Rlt_dec _rayleigh_h _rayleigh_c then
      Ok (0.56 * float_pow (_rayleigh_h * _sin_a) (1 / 4))
    else
      let nu_1 := 0.56 * float_pow (_rayleigh_c * _sin_a) (1 / 4) in
      let nu_2 := 0.13 * (float_pow _rayleigh_h (1 / 3)
                          - float_pow _rayleigh_c (1 / 3)) in
      Ok (nu_1 + nu_2)
  else if Rle_dec angle 179 then
    Ok (nusselt_inclined _rayleigh_h angle)
  else
    Ok (0.58 * float_pow _rayleigh_h (1 / 5)).

(** [in_h]; [inside_emissivity] is the outcome of reading the property, which
    the source reads after the convective term is computed. *)
Definition in_h (_air : air_model) (inside_emissivity : res R)
    (t_kelvin delta_t height angle pressure : R) : res R :=
  do _rayleigh_h <- rayleigh _air t_kelvin delta_t height pressure ;
  do nu <- nusselt _rayleigh_h angle ;
  do k <- pydiv (conductivity_at_temperature _air t_kelvin) height ;
  let _conv_h := nu * k in
  do e <- inside_emissivity ;
  let _rad_h := 4 * 5.6697e-8 * e * (t_kelvin ^ 3) in
  Ok (_conv_h + _rad_h).

(** The first two lines of both [temperature_profile] methods:
    [if angle != 90 and outside_temperature > inside_temperature:
     angle = abs(180 - angle)]. *)
Definition flip_angle (angle outside_temperature inside_temperature : R) : R :=
  if Req_dec_T angle 90 then angle
  else if Rgt_dec outside_temperature inside_temperature
       then Rabs (180 - angle)
       else angle.

(** [mat.r_value for mat in materials] *)
Fixpoint r_values_of (mats : list material) : res (list R) :=
  match mats with
  | [] => Ok []
  | mat :: rest =>
      do r <- get_r_value mat ;
      do rs <- r_values_of rest ;
      Ok (r :: rs)
  end.

(** [l[-1] = x] *)
Definition set_last (l : list R) (x : R) : res (list R) :=
  match l with
  | [] => Raise IndexError
  | _ => Ok (removelast l ++ [x])
  end.

(** ** OpaqueConstruction *)

Module OpaqueConstruction.

Record t : Type := { _materials : list material }.

Definition materials (self : t) : list material := _materials self.

(** [for mat in mats: assert isinstance(mat, _EnergyMaterialOpaqueBase)] *)
Fixpoint check_opaque (mats : list material) : res unit :=
  match mats with
  | [] => Ok tt
  | mat :: rest =>
      do _ <- assert (is_opaque_base mat) ;
      check_opaque rest
  end.

(** The [materials] setter; [__init__] assigns through it. *)
Definition materials_setter (mats : list material) : res t :=
  do _ <- check_opaque mats ;
  do _ <- assert (0 <? length mats)%nat ;
  do _ <- assert (length mats <=? 10)%nat ;
  Ok {| _materials := mats |}.

Definition __init__ (mats : list material) : res t := materials_setter mats.

Definition inside_emissivity (self : t) : res R :=
  do m <- getitem (materials self) (-1) ;
  get_thermal_absorptance m.

Definition outside_emissivity (self : t) : res R :=
  do m <- getitem (materials self) 0 ;
  get_thermal_absorptance m.

(** [_ConstructionBase.r_value] *)
Definition r_value (self : t) : res R :=
  do rs <- r_values_of (materials self) ;
  Ok (sum rs).

(** [_ConstructionBase.u_value] *)
Definition u_value (self : t) : res R :=
  do r <- r_value self ;
  pydiv 1 r.

(** [_ConstructionBase.r_factor] *)
Definition r_factor (self : t) : res R :=
  do _ext_r <- pydiv 1 out_h_simple ;
  do e <- inside_emissivity self ;
  do _int_r <- pydiv 1 (in_h_simple e) ;
  do r <- r_value self ;
  Ok (r + _ext_r + _int_r).

(** [_ConstructionBase.u_factor] *)
Definition u_factor (self : t) : res R :=
  do r <- r_factor self ;
  pydiv 1 r.

(** [temperature_profile] from its third line on, as a function of the
    angle the first two lines have settled. *)
Definition temperature_profile_body (_air : air_model) (self : t)
    (outside_temperature inside_temperature outside_wind_speed height
     angle pressure : R) : res (list R * list R) :=
  do e_in <- inside_emissivity self ;
  do in_r_init <- pydiv 1 (in_h_simple e_in) ;
  do e_out <- outside_emissivity self ;
  do out_r <- pydiv 1 (out_h e_out outside_wind_speed
                      (outside_temperature + 273.15)) ;
  do rs <- r_values_of (materials self) ;
  let r_values := [out_r] ++ rs ++ [in_r_init] in
  do q <- pydiv in_r_init (sum r_values) ;
  let in_delta_t := q * (outside_temperature - inside_temperature) in
  do h <- in_h _air (inside_emissivity self)
         (inside_temperature - (in_delta_t / 2) + 273.15)
         in_delta_t height angle pressure ;
  do in_r <- pydiv 1 h ;
  do r_values <- set_last r_values in_r ;
  do temperatures <- _temperature_profile_from_r_values
                    r_values outside_temperature inside_temperature ;
  Ok (temperatures, r_values).

Definition temperature_profile (_air : air_model) (self : t)
    (outside_temperature inside_temperature outside_wind_speed height
     angle pressure : R) : res (list R * list R) :=
  let angle := flip_angle angle outside_temperature inside_temperature in
  temperature_profile_body _air self outside_temperature inside_temperature
    outside_wind_speed height angle pressure.

End OpaqueConstruction.

(** ** WindowConstruction *)

(** An entry of the [emissivities] list kept beside the resistances: [None],
    one float, or a [(e_back, e_front)] tuple. *)
Inductive emiss_entry : Type :=
| EmissNone
| EmissOne (e : R)
| EmissPair (e_0 e_1 : R).

(** [entry[0]] and [entry[1]]: only a tuple can be subscripted. *)
Definition subscript (entry : emiss_entry) (k : nat) : res R :=
  match entry, k with
  | EmissPair e_0 _, O => Ok e_0
  | EmissPair _ e_1, S O => Ok e_1
  | EmissPair _ _, _ => Raise IndexError
  | _, _ => Raise TypeError
  end.

(** An entry handed to a shade method as its single emissivity. *)
Definition as_float (entry : emiss_entry) : res R :=
  match entry with
  | EmissOne e => Ok e
  | _ => Raise TypeError
  end.

(** Method lookup on a layer: [mat.u_value...] exists on gas layers,
    [mat.r_value_exterior...] on shade layers. *)
Definition gas_of (mat : material) : res gas_methods :=
  match mat with Gas g => Ok g | _ => Raise AttributeError end.

Definition shade_of (mat : material) : res shade_methods :=
  match mat with Shade s => Ok s | _ => Raise AttributeError end.

Module WindowConstruction.

Record t : Type := {
  _materials : list material;
  _has_shade : bool
}.

Definition materials (self : t) : list material := _materials self.
Definition has_shade (self : t) : bool := _has_shade self.

(** The [for i, mat in enumerate(mats)] loop of the [materials] setter;
    [n] is [len(mats)].  It returns the final [has_shade]. *)
Fixpoint validate_loop (n i : nat) (mats : list material)
    (glazing_layer has_shade : bool) : res bool :=
  match mats with
  | [] => Ok has_shade
  | mat :: rest =>
      do _ <- assert (is_window_base mat) ;
      if is_simple_glaz_sys mat then
        do _ <- assert (n =? 1)%nat ;
        validate_loop n (S i) rest glazing_layer has_shade
      else if is_gas_base mat then
        do _ <- assert glazing_layer ;
        validate_loop n (S i) rest false has_shade
      else if is_glazing_base mat then
        do _ <- assert (negb glazing_layer) ;
        validate_loop n (S i) rest true has_shade
      else
        do _ <- (if negb (i =? 0)%nat then assert glazing_layer else Ok tt) ;
        do _ <- assert (negb has_shade) ;
        validate_loop n (S i) rest false true
  end.

(** The [materials] setter; [__init__] assigns through it. *)
Definition materials_setter (mats : list material) : res t :=
  do _ <- assert (0 <? length mats)%nat ;
  do _ <- assert (length mats <=? 8)%nat ;
  do first <- getitem mats 0 ;
  do _ <- assert (negb (is_gas_base first)) ;
  do last <- getitem mats (-1) ;
  do _ <- assert (negb (is_gas_base last)) ;
  do has_shade <- validate_loop (length mats) 0 mats false false ;
  Ok {| _materials := mats; _has_shade := has_shade |}.

Definition __init__ (mats : list material) : res t := materials_setter mats.

Definition inside_emissivity (self : t) : res R :=
  do first <- getitem (materials self) 0 ;
  if is_simple_glaz_sys first then Ok 0.84
  else emissivity_back_or_front (getitem (materials self) (-1)).

Definition outside_emissivity (self : t) : res R :=
  do first <- getitem (materials self) 0 ;
  if is_simple_glaz_sys first then Ok 0.84
  else get_emissivity first.

(** The loop of [gap_count]; [n] is [len(self.materials)]. *)
Fixpoint gap_count_loop (n i : nat) (mats : list material) (count : nat)
    : nat :=
  match mats with
  | [] => count
  | mat :: rest =>
      if is_gas_base mat then
        gap_count_loop n (S i) rest (count + 1)
      else if is_shade_base mat then
        if ((i =? 0) || (count =? n - 1))%nat then
          gap_count_loop n (S i) rest (count + 1)
        else
          gap_count_loop n (S i) rest (count + 2)
      else
        gap_count_loop n (S i) rest count
  end.

Definition gap_count (self : t) : nat :=
  gap_count_loop (length (materials self)) 0 (materials self) 0.

(** [1 / self.in_h_simple()] *)
Definition in_r_simple (self : t) : res R :=
  do e <- inside_emissivity self ;
  pydiv 1 (in_h_simple e).

(** [1 / self.out_h(wind_speed, t_kelvin)] *)
Definition out_r (self : t) (wind_speed t_kelvin : R) : res R :=
  do e <- outside_emissivity self ;
  pydiv 1 (out_h e wind_speed t_kelvin).

(** The [for i, mat in enumerate(self.materials)] loop of
    [_layered_r_value_initial]; [delta_t] is the per-gap drop
    [delta_t_guess / gap_count] computed before the loop. *)
Fixpoint initial_loop (self : t) (delta_t avg_t_guess : R) (i : nat)
    (mats : list material) (r_vals : list R) (emiss : list emiss_entry)
    : res (list R * list emiss_entry) :=
  match mats with
  | [] => Ok (r_vals, emiss)
  | mat :: rest =>
      if is_glazing_base mat then
        do r <- get_r_value mat ;
        initial_loop self delta_t avg_t_guess (S i) rest
          (r_vals ++ [r]) (emiss ++ [EmissNone])
      else if is_gas_base mat then
        do next <- getitem (materials self) (Z.of_nat i + 1) ;
        do e_front <- get_emissivity next ;
        do e_back <- emissivity_back_or_front
                    (getitem (materials self) (Z.of_nat i - 1)) ;
        do g <- gas_of mat ;
        do r <- pydiv 1 (gas_u_value g delta_t e_back e_front avg_t_guess) ;
        initial_loop self delta_t avg_t_guess (S i) rest
          (r_vals ++ [r]) (emiss ++ [EmissPair e_back e_front])
      else if (i =? 0)%nat then
        do next <- getitem (materials self) (Z.of_nat i + 1) ;
        do e_back <- get_emissivity next ;
        do s <- shade_of mat ;
        initial_loop self delta_t avg_t_guess (S i) rest
          (r_vals ++ [shade_r_value_exterior s delta_t e_back
                        None None avg_t_guess None])
          (emiss ++ [EmissOne e_back])
      else if (Z.of_nat i =? Z.of_nat (length (materials self)) - 1)%Z then
        do prev <- getitem (materials self) (Z.of_nat i - 1) ;
        do e_front <- get_emissivity_back prev ;
        do s <- shade_of mat ;
        initial_loop self delta_t avg_t_guess (S i) rest
          (r_vals ++ [shade_r_value_interior s delta_t e_front
                        None None avg_t_guess None])
          (emiss ++ [EmissOne e_front])
      else
        do next <- getitem (materials self) (Z.of_nat i + 1) ;
        do e_back <- get_emissivity next ;
        do prev <- getitem (materials self) (Z.of_nat i - 1) ;
        do e_front <- get_emissivity_back prev ;
        do s <- shade_of mat ;
        initial_loop self delta_t avg_t_guess (S i) rest
          (r_vals ++ [shade_r_value_between s delta_t e_back e_front
                        None None avg_t_guess None])
          (emiss ++ [EmissPair e_back e_front])
  end.

Definition _layered_r_value_initial (self : t) (gap_count : nat)
    (delta_t_guess avg_t_guess wind_speed : R)
    : res (list R * list emiss_entry) :=
  do r_0 <- out_r self wind_speed (avg_t_guess - delta_t_guess) ;
  do delta_t <- pydiv delta_t_guess (INR gap_count) ;
  do '(r_vals, emiss) <- initial_loop self delta_t avg_t_guess 0
                        (materials self) [r_0] [] ;
  do r_in <- in_r_simple self ;
  Ok (r_vals ++ [r_in], emiss).


(** The [for i, mat in enumerate(self.materials)] loop of
    [_layered_r_value]. *)
Fixpoint refine_loop (temperatures r_values_init : list R)
    (emiss : list emiss_entry) (height angle pressure : R)
    (n i : nat) (mats : list material) (r_vals : list R) : res (list R) :=
  match mats with
  | [] => Ok r_vals
  | mat :: rest =>
      if is_glazing_base mat then
        do r <- getitem r_values_init (Z.of_nat i + 1) ;
        refine_loop temperatures r_values_init emiss height angle pressure
          n (S i) rest (r_vals ++ [r])
      else
        do t_1 <- getitem temperatures (Z.of_nat i + 1) ;
        do t_2 <- getitem temperatures (Z.of_nat i + 2) ;
        let delta_t := Rabs (t_1 - t_2) in
        let avg_temp := ((t_1 + t_2) / 2) + 273.15 in
        if is_gas_base mat then
          do g <- gas_of mat ;
          do entry <- getitem emiss (Z.of_nat i) ;
          do e_0 <- subscript entry 0 ;
          do e_1 <- subscript entry 1 ;
          do r <- pydiv 1 (gas_u_value_at_angle g delta_t e_0 e_1
                             height angle avg_temp pressure) ;
          refine_loop temperatures r_values_init emiss height angle
            pressure n (S i) rest (r_vals ++ [r])
        else if (i =? 0)%nat then
          do s <- shade_of mat ;
          do entry <- getitem emiss (Z.of_nat i) ;
          do e <- as_float entry ;
          refine_loop temperatures r_values_init emiss height angle
            pressure n (S i) rest
            (r_vals ++ [shade_r_value_exterior s delta_t e
                          (Some height) (Some angle) avg_temp
                          (Some pressure)])
        else if (Z.of_nat i =? Z.of_nat n - 1)%Z then
          do s <- shade_of mat ;
          do entry <- getitem emiss (Z.of_nat i) ;
          do e <- as_float entry ;
          refine_loop temperatures r_values_init emiss height angle
            pressure n (S i) rest
            (r_vals ++ [shade_r_value_interior s delta_t e
                          (Some height) (Some angle) avg_temp
                          (Some pressure)])
        else
          do s <- shade_of mat ;
          do entry <- getitem emiss (Z.of_nat i) ;
          do e_0 <- subscript entry 0 ;
          do e_1 <- subscript entry 1 ;
          refine_loop temperatures r_values_init emiss height angle
            pressure n (S i) rest
            (r_vals ++ [shade_r_value_between s delta_t e_0 e_1
                          (Some height) (Some angle) avg_temp
                          (Some pressure)])
  end.

Definition _layered_r_value (_air : air_model) (self : t)
    (temperatures r_values_init : list R) (emiss : list emiss_entry)
    (height angle pressure : R) : res (list R) :=
  do r_0 <- getitem r_values_init 0 ;
  do r_vals <- refine_loop temperatures r_values_init emiss height angle
                 pressure (length (materials self)) 0 (materials self)
                 [r_0] ;
  do t_last <- getitem temperatures (-1) ;
  do t_prev <- getitem temperatures (-2) ;
  let delta_t := Rabs (t_last - t_prev) in
  let avg_temp := ((t_last + t_prev) / 2) + 273.15 in
  do h <- in_h _air (inside_emissivity self) avg_temp delta_t height angle
            pressure ;
  do r_in <- pydiv 1 h ;
  Ok (r_vals ++ [r_in]).

(** The [while abs(r_next - r_last) > 0.001] loop of [_solve_r_values].
    [r_next] is always [sum(r_vals)], so the loop state is [r_last] and
    [r_vals].  The source has no iteration cap: [fuel] only bounds how far
    this model follows the loop. *)
Fixpoint solve_loop (_air : air_model) (self : t)
    (emissivities : list emiss_entry) (fuel : nat) (r_last : R)
    (r_vals : list R) : res (list R) :=
  if Rgt_dec (Rabs (sum r_vals - r_last)) 0.001 then
    match fuel with
    | O => OutOfFuel
    | S fuel' =>
        do temperatures <- _temperature_profile_from_r_values r_vals
                             (-18) 21 ;
        do r_vals' <- _layered_r_value _air self temperatures r_vals
                        emissivities 1.0 90.0 101325 ;
        solve_loop _air self emissivities fuel' (sum r_vals) r_vals'
    end
  else Ok r_vals.

Definition _solve_r_values (_air : air_model) (self : t) (fuel : nat)
    (r_vals : list R) (emissivities : list emiss_entry) : res (list R) :=
  solve_loop _air self emissivities fuel 0 r_vals.

(** [r_vals[1:-1]] *)
Definition interior_slice (r_vals : list R) : list R :=
  removelast (tl r_vals).

Definition r_factor (_air : air_model) (self : t) (fuel : nat) : res R :=
  let gap_count := gap_count self in
  if (gap_count =? 0)%nat then
    do first <- getitem (materials self) 0 ;
    do r <- get_r_value first ;
    do ext_r <- pydiv 1 out_h_simple ;
    do int_r <- in_r_simple self ;
    Ok (r + ext_r + int_r)
  else
    do '(r_vals, emissivities) <-
      _layered_r_value_initial self gap_count 15 273.15 6.7 ;
    do r_vals <- _solve_r_values _air self fuel r_vals emissivities ;
    Ok (sum r_vals).

Definition r_value (_air : air_model) (self : t) (fuel : nat) : res R :=
  let gap_count := gap_count self in
  if (gap_count =? 0)%nat then
    do first <- getitem (materials self) 0 ;
    get_r_value first
  else
    do '(r_vals, emissivities) <-
      _layered_r_value_initial self gap_count 15 273.15 6.7 ;
    do r_vals <- _solve_r_values _air self fuel r_vals emissivities ;
    Ok (sum (interior_slice r_vals)).

(** The seed guesses of [temperature_profile]. *)
Definition guess (outside_temperature inside_temperature : R) : R :=
  let guess := Rabs (inside_temperature - outside_temperature) / 2 in
  if Rlt_dec guess 1 then 1 else guess.

Definition avg_guess (outside_temperature inside_temperature : R) : R :=
  ((inside_temperature + outside_temperature) / 2) + 273.15.

(** The [while] loop of [temperature_profile]. *)
Fixpoint profile_loop (_air : air_model) (self : t)
    (outside_temperature inside_temperature height angle pressure : R)
    (emissivities : list emiss_entry) (fuel : nat) (r_last : R)
    (r_values : list R) : res (list R) :=
  if Rgt_dec (Rabs (sum r_values - r_last)) 0.001 then
    match fuel with
    | O => OutOfFuel
    | S fuel' =>
        do temperatures <- _temperature_profile_from_r_values r_values
                             outside_temperature inside_temperature ;
        do r_values' <- _layered_r_value _air self temperatures r_values
                          emissivities height angle pressure ;
        profile_loop _air self outside_temperature inside_temperature
          height angle pressure emissivities fuel' (sum r_values) r_values'
    end
  else Ok r_values.

(** [temperature_profile] from its third line on. *)
Definition temperature_profile_body (_air : air_model) (self : t)
    (fuel : nat)
    (outside_temperature inside_temperature wind_speed height angle
     pressure : R) : res (list R * list R) :=
  let gap_count := gap_count self in
  if (gap_count =? 0)%nat then
    do in_r_init <- in_r_simple self ;
    do r_0 <- out_r self wind_speed (outside_temperature + 273.15) ;
    do first <- getitem (materials self) 0 ;
    do r_1 <- get_r_value first ;
    let r_values := [r_0; r_1; in_r_init] in
    do q <- pydiv in_r_init (sum r_values) ;
    let in_delta_t := q * (outside_temperature - inside_temperature) in
    do h <- in_h _air (inside_emissivity self)
              (inside_temperature - (in_delta_t / 2) + 273.15)
              in_delta_t height angle pressure ;
    do in_r <- pydiv 1 h ;
    do r_values <- set_last r_values in_r ;
    do temperatures <- _temperature_profile_from_r_values
                         r_values outside_temperature inside_temperature ;
    Ok (temperatures, r_values)
  else
    let guess := guess outside_temperature inside_temperature in
    let avg_guess := avg_guess outside_temperature inside_temperature in
    do '(r_values, emissivities) <-
      _layered_r_value_initial self gap_count guess avg_guess wind_speed ;
    do r_values <- profile_loop _air self outside_temperature
                     inside_temperature height angle pressure emissivities
                     fuel 0 r_values ;
    do temperatures <- _temperature_profile_from_r_values
                         r_values outside_temperature inside_temperature ;
    Ok (temperatures, r_values).

Definition temperature_profile (_air : air_model) (self : t) (fuel : nat)
    (outside_temperature inside_temperature wind_speed height angle
     pressure : R) : res (list R * list R) :=
  let angle := flip_angle angle outside_temperature inside_temperature in
  temperature_profile_body _air self fuel outside_temperature
    inside_temperature wind_speed height angle pressure.

End WindowConstruction.

(** ** Sample layers

    The clear glass of the repository's tests
    ([EnergyWindowMaterialGlazing('Clear Glass', 0.005715, ..., 0.84, 0.84,
    1.0)]): 5.715 mm of conductivity 1.0, both faces of emissivity 0.84. *)
Definition clear_glass : material := Glazing 0.005715 0.84 0.84.

(** A layer of a mass wall: resistance 0.5 m2K/W, thermal absorptance 0.9. *)
Definition concrete : material := OpaqueMaterial 0.5 0.9.

(** An air model for the worked examples: the property curves EnergyPlus
    tabulates for air (linear in the temperature, ideal-gas density with a
    molecular weight of 28.97).  The general results below are stated for any
    [air_model]; positivity of the viscosity and the conductivity is all
    that is ever asked of it. *)
Definition generic_air : air_model := {|
  density_at_temperature := fun t_kelvin pressure =>
    (pressure * 28.97 * 0.001) / (8.314 * t_kelvin);
  specific_heat_at_temperature := fun t_kelvin =>
    1002.737 + 0.012324 * t_kelvin;
  viscosity_at_temperature := fun t_kelvin =>
    3.723e-6 + 4.94e-8 * t_kelvin;
  conductivity_at_temperature := fun t_kelvin =>
    0.002873 + 7.76e-5 * t_kelvin
|}.

(** A one-layer wall and a one-pane window. *)
Definition concrete_wall : OpaqueConstruction.t :=
  {| OpaqueConstruction._materials := [concrete] |}.

Definition single_pane : WindowConstruction.t :=
  {| WindowConstruction._materials := [clear_glass];
     WindowConstruction._has_shade := false |}.

(** A gas gap of constant conductance 5 W/m2K, for examples that only look
    at the structure of a layer list. *)
Definition plain_gap : material :=
  Gas {| gas_u_value := fun _ _ _ _ => 5;
         gas_u_value_at_angle := fun _ _ _ _ _ _ _ => 5 |}.

(** A shade of emissivity 0.9 whose three resistance methods answer
    0.1 m2K/W. *)
Definition plain_shade_methods : shade_methods := {|
  shade_emissivity := 0.9;
  shade_emissivity_back := None;
  shade_r_value_exterior := fun _ _ _ _ _ _ => 0.1;
  shade_r_value_interior := fun _ _ _ _ _ _ => 0.1;
  shade_r_value_between := fun _ _ _ _ _ _ _ => 0.1
|}.

Definition plain_shade : material := Shade plain_shade_methods.

(** ** Structural faults of a window layer list

    The faults are written from the wording of the rules, not from the
    validator.  [is_pane] is a glazing layer proper
    ([EnergyWindowMaterialGlazing]). *)
Definition is_pane (mat : material) : bool :=
  match mat with Glazing _ _ _ => true | _ => false end.

Inductive structure_fault (mats : list material) : Prop :=
| gas_first (g : gas_methods) (rest : list material) :
    mats = Gas g :: rest -> structure_fault mats
| gas_last (g : gas_methods) (pre : list material) :
    mats = pre ++ [Gas g] -> structure_fault mats
| gas_after_non_glazing (pre : list material) (m : material)
    (g : gas_methods) (post : list material) :
    mats = pre ++ m :: Gas g :: post -> is_pane m = false ->
    structure_fault mats
| glazing_adjacent (pre : list material) (a b : material)
    (post : list material) :
    mats = pre ++ a :: b :: post ->
    is_glazing_base a = true -> is_glazing_base b = true ->
    structure_fault mats
| shade_after_non_glazing (pre : list material) (m : material)
    (s : shade_methods) (post : list material) :
    mats = pre ++ m :: Shade s :: post -> is_pane m = false ->
    structure_fault mats
| second_shade (pre : list material) (s1 : shade_methods)
    (mid : list material) (s2 : shade_methods) (post : list material) :
    mats = pre ++ Shade s1 :: mid ++ Shade s2 :: post ->
    structure_fault mats
| simple_glazing_with_others (pre : list material) (r : R)
    (post : list material) :
    mats = pre ++ SimpleGlazSys r :: post -> pre ++ post <> [] ->
    structure_fault mats.

(** The value of the validator's [glazing_layer] flag once the layers [pre]
    have been passed, when it was [glazing_layer] before them: the flag
    remembers whether the layer just passed was a pane. *)
Definition flag_after (pre : list material) (glazing_layer : bool) : bool :=
  fold_left (fun _ m => is_pane m) pre glazing_layer.

(** ** The seed of the layered solve, by its drop and its mean

    [seed_from self drop mean film_t wind_speed] is the seed vector (with its
    emissivity list) in which every gap is given the temperature drop [drop]
    and the mean temperature [mean], the outdoor film being taken at
    [film_t]. *)
Definition seed_from (self : WindowConstruction.t)
    (drop mean film_t wind_speed : R) : res (list R * list emiss_entry) :=
  do r_0 <- WindowConstruction.out_r self wind_speed film_t ;
  do '(r_vals, emiss) <-
    WindowConstruction.initial_loop self drop mean 0
      (WindowConstruction.materials self) [r_0] [] ;
  do r_in <- WindowConstruction.in_r_simple self ;
  Ok (r_vals ++ [r_in], emiss).

(** The seed as the specification words it: every gap is given the drop
    [max(1, |T_in - T_out| / 2)] and the mean [(T_in + T_out) / 2 + 273.15]. *)
Definition seed_as_claimed (self : WindowConstruction.t)
    (T_out T_in wind_speed : R) : res (list R * list emiss_entry) :=
  let drop := Rmax 1 (Rabs (T_in - T_out) / 2) in
  let mean := (T_in + T_out) / 2 + 273.15 in
  seed_from self drop mean (mean - drop) wind_speed.

(** Two panes around one gap, and three panes around two gaps. *)
Definition double_glazing (outer : material) (gap : gas_methods)
    (inner : material) : WindowConstruction.t :=
  {| WindowConstruction._materials := [outer; Gas gap; inner];
     WindowConstruction._has_shade := false |}.

Definition triple_glazing (pane : material) (gap : gas_methods)
    : WindowConstruction.t :=
  {| WindowConstruction._materials :=
       [pane; Gas gap; pane; Gas gap; pane];
     WindowConstruction._has_shade := false |}.

(** A gap whose conductance in W/m2K is the temperature drop it is asked
    about in K: its seed resistance shows which drop the solver passed. *)
Definition probe_gap : gas_methods :=
  {| gas_u_value := fun delta_t _ _ _ => delta_t;
     gas_u_value_at_angle := fun delta_t _ _ _ _ _ _ => delta_t |}.

Definition probe_double : WindowConstruction.t :=
  double_glazing clear_glass probe_gap clear_glass.

Definition probe_triple : WindowConstruction.t :=
  triple_glazing clear_glass probe_gap.

(** ** The refinement step and what the solver asks of the air

    The temperatures the builder produces, as a plain recursion: start from
    [t] and add [delta_t * (r / r_factor)] per resistance. *)
Fixpoint accumulate (t delta_t r_factor : R) (r_values : list R) : list R :=
  match r_values with
  | [] => [t]
  | r :: rest =>
      t :: accumulate (t + delta_t * (r / r_factor)) delta_t r_factor rest
  end.

(** The body of the two [while] loops: build the profile of the current
    resistances, then recompute the resistances from it. *)
Definition refinement_step (_air : air_model) (self : WindowConstruction.t)
    (emissivities : list emiss_entry)
    (outside_temperature inside_temperature height angle pressure : R)
    (r_values : list R) : res (list R) :=
  do temperatures <- _temperature_profile_from_r_values r_values
                       outside_temperature inside_temperature ;
  WindowConstruction._layered_r_value _air self temperatures r_values
    emissivities height angle pressure.

(** Air whose viscosity and conductivity are positive at every positive
    absolute temperature. *)
Definition air_positive (_air : air_model) : Prop :=
  forall t_kelvin, 0 < t_kelvin ->
    0 < viscosity_at_temperature _air t_kelvin
    /\ 0 < conductivity_at_temperature _air t_kelvin.

(** ** A gap on which the solve never settles

    The gap insulates (0.01 W/m2K) while the drop across it is below 38.5 K
    and conducts (1 W/m2K) from there on.  Insulating, it takes nearly all of
    the 39 K between -18 and 21 and starts to conduct; conducting, it gives
    the drop back to the films and the panes and insulates again. *)
Definition restless_gap : gas_methods :=
  {| gas_u_value := fun _ _ _ _ => 1;
     gas_u_value_at_angle := fun delta_t _ _ _ _ _ _ =>
       if Rlt_dec delta_t 38.5 then 1 / 100 else 1 |}.

Definition restless_window : WindowConstruction.t :=
  double_glazing clear_glass restless_gap clear_glass.

(** ** A gap with two resting states

    The gap conducts (1 W/m2K) under a drop below 17 K and insulates
    (0.1 W/m2K) from there on, in its seed method and in its detailed method
    alike.  Between two panes of 1 m2K/W, conducting it carries about 13 of
    the 39 K and goes on conducting; insulating it carries about 32 K and
    goes on insulating.  The inner pane is given an inside emissivity of 1000
    so that the indoor film is a negligible part of the total whatever the
    air is. *)
Definition latching_gap : gas_methods :=
  {| gas_u_value := fun delta_t _ _ _ =>
       if Rlt_dec delta_t 17 then 1 else 1 / 10;
     gas_u_value_at_angle := fun delta_t _ _ _ _ _ _ =>
       if Rlt_dec delta_t 17 then 1 else 1 / 10 |}.

Definition latching_window : WindowConstruction.t :=
  double_glazing (Glazing 1 0.84 0.84) latching_gap (Glazing 1 0.84 1000).

(** A vector on which a default-condition loop may return: its sum is
    within the tolerance of 0, or it is the refinement of a vector whose sum
    it is within the tolerance of. *)
Definition settled (_air : air_model) (self : WindowConstruction.t)
    (r_vals : list R) : Prop :=
  Rabs (sum r_vals - 0) <= 0.001
  \/ exists emissivities prev,
       refinement_step _air self emissivities (-18) 21 1.0 90.0 101325 prev
       = Ok r_vals
       /\ Rabs (sum r_vals - sum prev) <= 0.001.

(** ** Further members of WindowConstruction *)

Module WindowQueries.

Import Stdlib.Strings.String.

(** The loop of [glazing_count]. *)
Fixpoint glazing_count_loop (mats : list material) (count : nat) : nat :=
  match mats with
  | [] => count
  | mat :: rest =>
      if is_glazing_base mat then glazing_count_loop rest (count + 1)
      else glazing_count_loop rest count
  end.

Definition glazing_count (self : WindowConstruction.t) : nat :=
  glazing_count_loop (WindowConstruction.materials self) 0.

(** [shade_location]: one of ['Exterior'], ['Interior'], ['Between'], or
    [None]. *)
Definition shade_location (self : WindowConstruction.t)
    : res (option string) :=
  do first <- getitem (WindowConstruction.materials self) 0 ;
  if is_shade_base first then Ok (Some "Exterior"%string)
  else
    do last <- getitem (WindowConstruction.materials self) (-1) ;
    if is_shade_base last then Ok (Some "Interior"%string)
    else if WindowConstruction.has_shade self then Ok (Some "Between"%string)
    else Ok None.

(** [_ConstructionBase.u_value] and [u_factor], which the window class
    inherits: the reciprocals of its own [r_value] and [r_factor]. *)
Definition u_value (_air : air_model) (self : WindowConstruction.t)
    (fuel : nat) : res R :=
  do r <- WindowConstruction.r_value _air self fuel ;
  pydiv 1 r.

Definition u_factor (_air : air_model) (self : WindowConstruction.t)
    (fuel : nat) : res R :=
  do r <- WindowConstruction.r_factor _air self fuel ;
  pydiv 1 r.

End WindowQueries.

(** Counts over a layer list, for stating what the queries return. *)
Definition gas_layers (mats : list material) : nat :=
  length (filter is_gas_base mats).

Definition glazing_layers (mats : list material) : nat :=
  length (filter is_glazing_base mats).

Definition has_shade_layer (mats : list material) : bool :=
  existsb is_shade_base mats.

(** The gaps a shade stands for in [gap_count]: one when it is the first
    layer, two anywhere else. *)
Definition shade_gaps (mats : list material) : nat :=
  match mats with
  | [] => 0
  | first :: rest =>
      if is_shade_base first then 1
      else if has_shade_layer rest then 2
      else 0
  end.

(** A mass layer as the physics has it: a resistance that is not negative
    and a positive thermal absorptance. *)
Definition physical_layer (mat : material) : Prop :=
  match mat with
  | OpaqueMaterial r a => 0 <= r /\ 0 < a
  | _ => False
  end.

(** ** Outcomes that can only fail on a division

    [divides_or m P]: the computation [m] returns a value with [P], or
    raises a [ZeroDivisionError]; [diverges_or] also lets a loop run out of
    the fuel it was given. *)
Definition divides_or {A : Type} (m : res A) (P : A -> Prop) : Prop :=
  match m with
  | Ok a => P a
  | Raise x => x = ZeroDivisionError
  | OutOfFuel => False
  end.

Definition diverges_or {A : Type} (m : res A) (P : A -> Prop) : Prop :=
  match m with
  | Ok a => P a
  | Raise x => x = ZeroDivisionError
  | OutOfFuel => True
  end.

(** The shape of the emissivity entry the seed build stores for the layer
    at index [i] of [n]: a pair for a gas layer and for a shade between
    panes, one number for a shade that is first or last. *)
Definition entry_fits (n i : nat) (mat : material) (entry : emiss_entry)
    : Prop :=
  match mat with
  | Gas _ => exists e_0 e_1, entry = EmissPair e_0 e_1
  | Shade _ =>
      if ((i =? 0) || (i =? n - 1))%nat
      then exists e, entry = EmissOne e
      else exists e_0 e_1, entry = EmissPair e_0 e_1
  | _ => True
  end.

Inductive entries_fit (n : nat)
    : nat -> list material -> list emiss_entry -> Prop :=
| fit_nil (i : nat) : entries_fit n i [] []
| fit_cons (i : nat) (mat : material) (entry : emiss_entry)
    (mats : list material) (emiss : list emiss_entry) :
    entry_fits n i mat entry ->
    entries_fit n (S i) mats emiss ->
    entries_fit n i (mat :: mats) (entry :: emiss).

(** Two resistance vectors that agree on the outdoor film and on every
    glazing layer of [mats]. *)
Definition panes_kept (mats : list material) (a b : list R) : Prop :=
  nth 0 a 0 = nth 0 b 0
  /\ forall k m, nth_error mats k = Some m -> is_glazing_base m = true ->
       nth (S k) a 0 = nth (S k) b 0.

(** The shape of what [temperature_profile] returns for a window of
    layers [mats]: a resistance per layer between the two films, a
    temperature per boundary from [T_out] to [T_in], the outdoor film
    [film] first, each glazing layer with its own resistance. *)
Definition profile_shape (mats : list material) (T_out T_in film : R)
    (out : list R * list R) : Prop :=
  length (snd out) = (length mats + 2)%nat
  /\ length (fst out) = (length mats + 3)%nat
  /\ nth 0 (fst out) 0 = T_out
  /\ last (fst out) 0 = T_in
  /\ nth 0 (snd out) 0 = film
  /\ forall k m, nth_error mats k = Some m ->
       is_glazing_base m = true ->
       get_r_value m = Ok (nth (S k) (snd out) 0).

(** A window layer as the physics has it: resistances that are not
    negative, emissivities and gas conductances that are positive. *)
Definition physical_window_layer (mat : material) : Prop :=
  match mat with
  | OpaqueMaterial _ _ => False
  | Glazing r e eb => 0 <= r /\ 0 < e /\ 0 < eb
  | SimpleGlazSys r => 0 <= r
  | Gas g =>
      (forall delta_t e_1 e_2 t_kelvin,
         0 < gas_u_value g delta_t e_1 e_2 t_kelvin)
      /\ (forall delta_t e_1 e_2 height angle t_kelvin pressure,
            0 < gas_u_value_at_angle g delta_t e_1 e_2 height angle
                  t_kelvin pressure)
  | Shade s =>
      0 < shade_emissivity s
      /\ match shade_emissivity_back s with
         | Some e => 0 < e
         | None => True
         end
      /\ (forall delta_t e height angle t_kelvin pressure,
            0 <= shade_r_value_exterior s delta_t e height angle t_kelvin
                   pressure)
      /\ (forall delta_t e height angle t_kelvin pressure,
            0 <= shade_r_value_interior s delta_t e height angle t_kelvin
                   pressure)
      /\ (forall delta_t e_1 e_2 height angle t_kelvin pressure,
            0 <= shade_r_value_between s delta_t e_1 e_2 height angle
                   t_kelvin pressure)
  end.

(** [never_divides m P]: if [m] returns, its value has [P], and if it
    raises, it is not on a division. *)
Definition never_divides {A : Type} (m : res A) (P : A -> Prop) : Prop :=
  match m with
  | Ok a => P a
  | Raise x => x <> ZeroDivisionError
  | OutOfFuel => True
  end.

(** [returns_or_runs m P]: [m] returns a value with [P], or is a loop still
    running when its fuel ends; it does not raise. *)
Definition returns_or_runs {A : Type} (m : res A) (P : A -> Prop) : Prop :=
  match m with
  | Ok a => P a
  | Raise _ => False
  | OutOfFuel => True
  end.

(** * Properties *)

Arguments out_h : simpl never.
Arguments in_h_simple : simpl never.

(** ** The Python helpers *)

Lemma bind_Ok {A B : Type} (m : res A) (f : A -> res B) (b : B) :
  bind m f = Ok b -> exists a, m = Ok a /\ f a = Ok b.
Proof.
  destruct m as [a | e |]; simpl; intros H; try discriminate.
  exists a; split; [reflexivity | exact H].
Qed.

Lemma assert_Ok (b : bool) (u : unit) : assert b = Ok u -> b = true.
Proof. destruct b; simpl; [reflexivity | discriminate]. Qed.

Lemma pydiv_Ok (a b : R) : b <> 0 -> pydiv a b = Ok (a / b).
Proof.
  intros Hb; unfold pydiv.
  destruct (Req_dec_T b 0) as [E | _]; [contradiction | reflexivity].
Qed.

Lemma pydiv_zero (a : R) : pydiv a 0 = Raise ZeroDivisionError.
Proof.
  unfold pydiv.
  destruct (Req_dec_T 0 0) as [_ | N]; [reflexivity | now elim N].
Qed.

Lemma getitem_nat {A : Type} (l : list A) (i : nat) (a : A) :
  nth_error l i = Some a -> getitem l (Z.of_nat i) = Ok a.
Proof.
  intros H; unfold getitem.
  assert (Hi : (i < length l)%nat) by (apply nth_error_Some; congruence).
  destruct (Z.of_nat i <? 0)%Z eqn:E0; [apply Z.ltb_lt in E0; lia |].
  destruct ((Z.of_nat i <? 0) || (Z.of_nat (length l) <=? Z.of_nat i))%Z
    eqn:E1.
  - apply orb_true_iff in E1 as [E1 | E1];
      [congruence | apply Z.leb_le in E1; lia].
  - rewrite Nat2Z.id, H; reflexivity.
Qed.


Lemma fold_left_Rplus (l : list R) (a : R) :
  fold_left Rplus l a = a + fold_left Rplus l 0.
Proof.
  revert a; induction l as [| x l IH]; intros a; simpl; [lra |].
  rewrite (IH (a + x)), (IH (0 + x)); lra.
Qed.

Lemma sum_cons (x : R) (l : list R) : sum (x :: l) = x + sum l.
Proof. unfold sum; simpl; rewrite fold_left_Rplus; lra. Qed.


Lemma last_nth (l : list R) (i : nat) :
  length l = S i -> last l 0 = nth i l 0.
Proof.
  revert i; induction l as [| x l IH]; intros i H; [discriminate |].
  destruct l as [| y l]; simpl in H.
  - now replace i with 0%nat by lia.
  - destruct i as [| i]; [discriminate |].
    change (last (y :: l) 0 = nth i (y :: l) 0); apply IH; simpl; lia.
Qed.

Lemma sum_nil : sum [] = 0.
Proof. reflexivity. Qed.

(** ** The temperature profile builder *)

(** What the accumulation loop leaves behind: [temperatures] extended by one
    entry per resistance, each one a step away from its predecessor, the
    last one the total of the steps away from where the loop started. *)
Lemma temperature_loop_spec (delta_t r_factor : R) (r_values : list R) :
  r_factor <> 0 ->
  forall (temperatures : list R) (i : nat),
    length temperatures = S i ->
    exists ts,
      temperature_loop delta_t r_factor i r_values temperatures = Ok ts
      /\ length ts = (length temperatures + length r_values)%nat
      /\ firstn (length temperatures) ts = temperatures
      /\ (forall j, (j < length r_values)%nat ->
            nth (S (i + j)) ts 0
            = nth (i + j) ts 0 + delta_t * (nth j r_values 0 / r_factor))
      /\ last ts 0 = last temperatures 0 + delta_t * (sum r_values / r_factor).
Proof.
  intros Hr; induction r_values as [| r rest IH]; intros temps i Hlen.
  - exists temps; simpl; repeat split.
    + lia.
    + apply firstn_all.
    + intros j Hj; lia.
    + rewrite sum_nil; lra.
  - assert (Hnth : nth_error temps i = Some (nth i temps 0))
      by (apply nth_error_nth'; lia).
    simpl. rewrite (getitem_nat _ _ _ Hnth), (pydiv_Ok _ _ Hr); simpl.
    destruct (IH (temps ++ [nth i temps 0 + delta_t * (r / r_factor)]) (S i))
      as (ts & Hts & Hl & Hpre & Hstep & Hlast).
    { rewrite length_app; simpl; lia. }
    rewrite length_app in Hl, Hpre; simpl in Hl, Hpre.
    assert (Hpre' : firstn (length temps) ts = temps).
    { replace (length temps) with (Nat.min (length temps) (length temps + 1))
        at 1 by lia.
      rewrite <- firstn_firstn, Hpre, firstn_app, firstn_all.
      replace (length temps - length temps)%nat with 0%nat by lia.
      simpl; apply app_nil_r. }
    assert (Hlow : forall k, (k <= S i)%nat ->
              nth k ts 0
              = nth k (temps ++ [nth i temps 0 + delta_t * (r / r_factor)]) 0).
    { intros k Hk. rewrite <- Hpre.
      rewrite nth_firstn.
      destruct (k <? length temps + 1)%nat eqn:E; [reflexivity |].
      apply Nat.ltb_ge in E; lia. }
    exists ts; repeat split.
    + exact Hts.
    + lia.
    + exact Hpre'.
    + intros [| j] Hj.
      * rewrite Nat.add_0_r.
        rewrite (Hlow (S i)) by lia. rewrite (Hlow i) by lia.
        rewrite app_nth2 by lia. rewrite app_nth1 by lia.
        replace (S i - length temps)%nat with 0%nat by lia; reflexivity.
      * simpl in Hj. specialize (Hstep j ltac:(lia)).
        replace (i + S j)%nat with (S i + j)%nat by lia. exact Hstep.
    + rewrite Hlast, last_last, sum_cons.
      rewrite (last_nth temps i Hlen).
      unfold Rdiv; lra.
Qed.

(** C3.  For a resistance list [r_values] of length k whose sum is not zero,
    [_temperature_profile_from_r_values] returns k+1 temperatures: the first
    is the outdoor temperature, each next one adds
    [(T_in - T_out) * (r_values[i] / sum(r_values))] to its predecessor, and
    the last one is exactly the indoor temperature. *)
Theorem temperature_profile_builder_correct
    (r_values : list R) (T_out T_in : R) :
  sum r_values <> 0 ->
  exists temperatures,
    _temperature_profile_from_r_values r_values T_out T_in = Ok temperatures
    /\ length temperatures = S (length r_values)
    /\ nth 0 temperatures 0 = T_out
    /\ (forall i, (i < length r_values)%nat ->
          nth (S i) temperatures 0
          = nth i temperatures 0
            + (T_in - T_out) * (nth i r_values 0 / sum r_values))
    /\ last temperatures 0 = T_in.
Proof.
  intros Hsum. unfold _temperature_profile_from_r_values.
  destruct (temperature_loop_spec (T_in - T_out) (sum r_values) r_values Hsum
              [T_out] 0 eq_refl)
    as (ts & Hts & Hlen & Hpre & Hstep & Hlast).
  exists ts; repeat split.
  - exact Hts.
  - simpl in Hlen; exact Hlen.
  - simpl in Hpre. destruct ts as [| t0 ts']; [discriminate |].
    simpl in Hpre; injection Hpre as ->; reflexivity.
  - intros i Hi. exact (Hstep i Hi).
  - rewrite Hlast; simpl. field. exact Hsum.
Qed.

Lemma temperature_profile_builder_witness :
  sum [1; 3] <> 0
  /\ exists temperatures,
       _temperature_profile_from_r_values [1; 3] (-18) 21 = Ok temperatures
       /\ length temperatures = 3%nat
       /\ nth 0 temperatures 0 = -18
       /\ last temperatures 0 = 21.
Proof.
  assert (H : sum [1; 3] <> 0) by (unfold sum; simpl; lra).
  split; [exact H |].
  destruct (temperature_profile_builder_correct [1; 3] (-18) 21 H)
    as (ts & E & L & F & _ & T).
  exists ts; repeat split; assumption.
Defined.

(** The builder on a two-segment list, entry by entry. *)
Example temperature_profile_builder_run :
  _temperature_profile_from_r_values [1; 3] 0 40 = Ok [0; 0 + 40 * (1 / 4);
                                                       0 + 40 * (1 / 4)
                                                       + 40 * (3 / 4)].
Proof.
  unfold _temperature_profile_from_r_values, sum; simpl.
  replace (0 + 1 + 3) with 4 by lra.
  replace (40 - 0) with 40 by lra.
  rewrite !pydiv_Ok by lra; reflexivity.
Qed.

(** With a zero total the first division raises. *)
Lemma temperature_profile_builder_zero_sum (r : R) (rest : list R)
    (T_out T_in : R) :
  sum (r :: rest) = 0 ->
  _temperature_profile_from_r_values (r :: rest) T_out T_in
  = Raise ZeroDivisionError.
Proof.
  intros H. unfold _temperature_profile_from_r_values. rewrite H; simpl.
  now rewrite pydiv_zero.
Qed.

(** ** The closed form of the opaque R-factor *)

Lemma out_h_simple_nonzero : out_h_simple <> 0.
Proof. unfold out_h_simple; lra. Qed.

Lemma in_h_simple_glass : in_h_simple 0.84 = 8.
Proof. unfold in_h_simple; lra. Qed.

(** C4.  A single-layer opaque construction whose layer has resistance [R0]
    and whose inside face has emissivity [e_in] is accepted, and its
    [r_factor] is [R0 + 1/23 + 1/(3.6 + 4.4*e_in/0.84)], obtained without any
    loop (whenever the simple indoor coefficient is not zero, so that its
    reciprocal exists). *)
Theorem opaque_single_layer_r_factor (R0 e_in : R) :
  3.6 + 4.4 * e_in / 0.84 <> 0 ->
  exists c,
    OpaqueConstruction.__init__ [OpaqueMaterial R0 e_in] = Ok c
    /\ OpaqueConstruction.r_factor c
       = Ok (R0 + 1 / 23 + 1 / (3.6 + 4.4 * e_in / 0.84)).
Proof.
  intros Hin.
  exists {| OpaqueConstruction._materials := [OpaqueMaterial R0 e_in] |}.
  split; [reflexivity |].
  unfold OpaqueConstruction.r_factor, OpaqueConstruction.inside_emissivity,
    OpaqueConstruction.r_value, OpaqueConstruction.materials; simpl.
  rewrite (pydiv_Ok 1 out_h_simple out_h_simple_nonzero); simpl.
  change (getitem [OpaqueMaterial R0 e_in] (-1)) with (Ok (OpaqueMaterial R0 e_in)).
  simpl. unfold in_h_simple. rewrite (pydiv_Ok _ _ Hin); simpl.
  unfold sum, out_h_simple; simpl. f_equal; lra.
Qed.

Lemma opaque_single_layer_r_factor_witness :
  3.6 + 4.4 * 0.9 / 0.84 <> 0
  /\ exists c,
       OpaqueConstruction.__init__ [concrete] = Ok c
       /\ OpaqueConstruction.r_factor c
          = Ok (0.5 + 1 / 23 + 1 / (3.6 + 4.4 * 0.9 / 0.84)).
Proof.
  assert (H : 3.6 + 4.4 * 0.9 / 0.84 <> 0) by lra.
  split; [exact H | exact (opaque_single_layer_r_factor 0.5 0.9 H)].
Defined.

(** ** The angle rule of [temperature_profile] *)

Lemma flip_angle_reversed (angle T_out T_in : R) :
  T_out > T_in -> angle <> 90 ->
  flip_angle angle T_out T_in = Rabs (180 - angle).
Proof.
  intros Ht Ha; unfold flip_angle.
  destruct (Req_dec_T angle 90) as [E | _]; [contradiction |].
  destruct (Rgt_dec T_out T_in) as [_ | N]; [reflexivity | contradiction].
Qed.

Lemma flip_angle_kept (angle T_out T_in : R) :
  T_out <= T_in \/ angle = 90 ->
  flip_angle angle T_out T_in = angle.
Proof.
  intros H; unfold flip_angle.
  destruct (Req_dec_T angle 90) as [E | N]; [reflexivity |].
  destruct (Rgt_dec T_out T_in) as [G | _]; [| reflexivity].
  destruct H as [H | H]; [lra | contradiction].
Qed.

(** C5.  Both [temperature_profile] methods run their whole computation
    (films, resistances, profile) on [abs(180 - angle)] when the outside is
    warmer than the inside and the angle is not 90, and on the angle as given
    when the outside is not warmer or the angle is 90. *)
Theorem temperature_profile_angle_rule
    (_air : air_model) (wall : OpaqueConstruction.t)
    (window : WindowConstruction.t) (fuel : nat)
    (T_out T_in wind_speed height angle pressure : R) :
  (T_out > T_in -> angle <> 90 ->
     OpaqueConstruction.temperature_profile _air wall
       T_out T_in wind_speed height angle pressure
     = OpaqueConstruction.temperature_profile_body _air wall
         T_out T_in wind_speed height (Rabs (180 - angle)) pressure
     /\ WindowConstruction.temperature_profile _air window fuel
          T_out T_in wind_speed height angle pressure
        = WindowConstruction.temperature_profile_body _air window fuel
            T_out T_in wind_speed height (Rabs (180 - angle)) pressure)
  /\ (T_out <= T_in \/ angle = 90 ->
        OpaqueConstruction.temperature_profile _air wall
          T_out T_in wind_speed height angle pressure
        = OpaqueConstruction.temperature_profile_body _air wall
            T_out T_in wind_speed height angle pressure
        /\ WindowConstruction.temperature_profile _air window fuel
             T_out T_in wind_speed height angle pressure
           = WindowConstruction.temperature_profile_body _air window fuel
               T_out T_in wind_speed height angle pressure).
Proof.
  unfold OpaqueConstruction.temperature_profile,
    WindowConstruction.temperature_profile.
  split.
  - intros Ht Ha. rewrite (flip_angle_reversed _ _ _ Ht Ha). split; reflexivity.
  - intros H. rewrite (flip_angle_kept _ _ _ H). split; reflexivity.
Qed.

Lemma temperature_profile_angle_rule_witness :
  (30 > 21 /\ 45 <> 90
   /\ OpaqueConstruction.temperature_profile generic_air concrete_wall
        30 21 6.7 1 45 101325
      = OpaqueConstruction.temperature_profile_body generic_air concrete_wall
          30 21 6.7 1 (Rabs (180 - 45)) 101325
   /\ WindowConstruction.temperature_profile generic_air single_pane 0
        30 21 6.7 1 45 101325
      = WindowConstruction.temperature_profile_body generic_air single_pane 0
          30 21 6.7 1 (Rabs (180 - 45)) 101325)
  /\ ((-18 <= 21 \/ 45 = 90)
      /\ OpaqueConstruction.temperature_profile generic_air concrete_wall
           (-18) 21 6.7 1 45 101325
         = OpaqueConstruction.temperature_profile_body generic_air
             concrete_wall (-18) 21 6.7 1 45 101325
      /\ WindowConstruction.temperature_profile generic_air single_pane 0
           (-18) 21 6.7 1 45 101325
         = WindowConstruction.temperature_profile_body generic_air
             single_pane 0 (-18) 21 6.7 1 45 101325).
Proof.
  assert (H1 : 30 > 21) by lra.
  assert (H2 : 45 <> 90) by lra.
  assert (H3 : -18 <= 21 \/ 45 = 90) by (left; lra).
  split.
  - split; [exact H1 | split; [exact H2 |]].
    exact (proj1 (temperature_profile_angle_rule generic_air concrete_wall
                    single_pane 0 30 21 6.7 1 45 101325) H1 H2).
  - split; [exact H3 |].
    exact (proj2 (temperature_profile_angle_rule generic_air concrete_wall
                    single_pane 0 (-18) 21 6.7 1 45 101325) H3).
Defined.

(** The rule is not an involution on the input: a 45-degree surface with a
    warmer outside is computed at 135 degrees. *)
Example flip_angle_45 : flip_angle 45 30 21 = 135.
Proof.
  rewrite flip_angle_reversed by lra.
  rewrite Rabs_pos_eq; lra.
Qed.

(** ** The Nusselt correlation at the 90-degree seam *)

Lemma float_pow_pos (x y : R) : 0 < x -> 0 < float_pow x y.
Proof.
  intros Hx; unfold float_pow.
  destruct (Rle_dec x 0) as [L | _]; [lra |].
  unfold Rpower; apply exp_pos.
Qed.

Lemma float_pow_nonneg (x y : R) : 0 <= float_pow x y.
Proof.
  unfold float_pow.
  destruct (Rle_dec x 0) as [_ | _]; [lra |].
  unfold Rpower; left; apply exp_pos.
Qed.

(** The bases handed to [float_pow] are never negative: the Rayleigh number
    is an absolute value, and the sine is positive on the two branches that
    use it. *)
Lemma rayleigh_nonneg (_air : air_model)
    (t_kelvin delta_t height pressure Ra : R) :
  rayleigh _air t_kelvin delta_t height pressure = Ok Ra -> 0 <= Ra.
Proof.
  unfold rayleigh; intros H.
  apply bind_Ok in H as (q & _ & H). injection H as <-. apply Rabs_pos.
Qed.

Lemma sin_radians_pos (angle : R) :
  15 <= angle <= 179 -> 0 < sin (radians angle).
Proof.
  intros [Hl Hu]. assert (Hpi := PI_RGT_0).
  apply sin_gt_0; unfold radians.
  - apply Rmult_lt_0_compat; lra.
  - replace PI with (180 * (PI / 180)) at 2 by field.
    apply Rmult_lt_compat_r; lra.
Qed.

Lemma radians_90 : radians 90 = PI / 2.
Proof. unfold radians; field. Qed.

Lemma sin_radians_90 : sin (radians 90) = 1.
Proof. rewrite radians_90; apply sin_PI2. Qed.

Lemma rayleigh_c_90 :
  rayleigh_c 90 = Ok (2.5e5 * float_pow (exp (0.72 * 90) / 1) (1 / 5)).
Proof.
  unfold rayleigh_c. rewrite sin_radians_90.
  rewrite pydiv_Ok by lra. reflexivity.
Qed.

Lemma rayleigh_c_90_pos :
  0 < 2.5e5 * float_pow (exp (0.72 * 90) / 1) (1 / 5).
Proof.
  apply Rmult_lt_0_compat; [lra |].
  apply float_pow_pos. unfold Rdiv; rewrite Rinv_1, Rmult_1_r. apply exp_pos.
Qed.

(** The [elif angle <= 179] branch is taken for 90 < angle <= 179 and
    computes [nusselt_inclined]. *)
Lemma nusselt_above_90 (Ra angle : R) :
  90 < angle <= 179 -> nusselt Ra angle = Ok (nusselt_inclined Ra angle).
Proof.
  intros [Hl Hu]; unfold nusselt.
  destruct (Rlt_dec angle 15) as [H | _]; [lra |].
  destruct (Rle_dec angle 90) as [H | _]; [lra |].
  destruct (Rle_dec angle 179) as [_ | H]; [reflexivity | lra].
Qed.

(** C7.  At 90 degrees and below the critical Rayleigh number, the
    [15 <= angle <= 90] branch of [in_h] yields the Nusselt number
    [0.56 * (Ra * sin 90) ** (1/4)], which is what the formula of the
    [90 < angle <= 179] branch gives at 90 degrees. *)
Theorem nusselt_seam_at_90 (Ra Ra_c : R) :
  rayleigh_c 90 = Ok Ra_c ->
  Ra < Ra_c ->
  nusselt Ra 90 = Ok (0.56 * float_pow (Ra * sin (radians 90)) (1 / 4))
  /\ nusselt Ra 90 = Ok (nusselt_inclined Ra 90).
Proof.
  intros Hc Hlt.
  assert (E : nusselt Ra 90
              = Ok (0.56 * float_pow (Ra * sin (radians 90)) (1 / 4))).
  { unfold nusselt.
    destruct (Rlt_dec 90 15) as [H | _]; [lra |].
    destruct (Rle_dec 90 90) as [_ | H]; [| lra].
    rewrite Hc; simpl.
    destruct (Rlt_dec Ra Ra_c) as [_ | H]; [reflexivity | contradiction]. }
  split; [exact E | rewrite E; reflexivity].
Qed.

Lemma nusselt_seam_at_90_witness :
  rayleigh_c 90 = Ok (2.5e5 * float_pow (exp (0.72 * 90) / 1) (1 / 5))
  /\ 0 < 2.5e5 * float_pow (exp (0.72 * 90) / 1) (1 / 5)
  /\ nusselt 0 90 = Ok (0.56 * float_pow (0 * sin (radians 90)) (1 / 4))
  /\ nusselt 0 90 = Ok (nusselt_inclined 0 90).
Proof.
  split; [exact rayleigh_c_90 |].
  split; [exact rayleigh_c_90_pos |].
  exact (nusselt_seam_at_90 0 _ rayleigh_c_90 rayleigh_c_90_pos).
Defined.

(** ** The material-list validators *)

Ltac inv_bind H :=
  let a := fresh "a" in
  let Ha := fresh "Ha" in
  apply bind_Ok in H; destruct H as (a & Ha & H).

Lemma check_opaque_outcome (mats : list material) :
  OpaqueConstruction.check_opaque mats = Ok tt
  \/ OpaqueConstruction.check_opaque mats = Raise AssertionError.
Proof.
  induction mats as [| m mats IH]; simpl; [now left |].
  destruct (is_opaque_base m); simpl; [exact IH | now right].
Qed.

Lemma opaque_init_Ok (mats : list material) (c : OpaqueConstruction.t) :
  OpaqueConstruction.__init__ mats = Ok c ->
  (1 <= length mats <= 10)%nat
  /\ c = {| OpaqueConstruction._materials := mats |}.
Proof.
  unfold OpaqueConstruction.__init__, OpaqueConstruction.materials_setter.
  intros H. inv_bind H. inv_bind H. inv_bind H.
  apply assert_Ok in Ha0, Ha1.
  apply Nat.ltb_lt in Ha0. apply Nat.leb_le in Ha1.
  injection H as <-. split; [lia | reflexivity].
Qed.

Lemma opaque_init_outcome (mats : list material) :
  (exists c, OpaqueConstruction.__init__ mats = Ok c)
  \/ OpaqueConstruction.__init__ mats = Raise AssertionError.
Proof.
  unfold OpaqueConstruction.__init__, OpaqueConstruction.materials_setter.
  destruct (check_opaque_outcome mats) as [-> | ->]; simpl; [| now right].
  destruct (0 <? length mats)%nat; simpl; [| now right].
  destruct (length mats <=? 10)%nat; simpl; [| now right].
  left; eexists; reflexivity.
Qed.

Lemma window_init_Ok (mats : list material) (c : WindowConstruction.t) :
  WindowConstruction.__init__ mats = Ok c ->
  (1 <= length mats <= 8)%nat
  /\ (exists first, getitem mats 0 = Ok first /\ is_gas_base first = false)
  /\ (exists last, getitem mats (-1) = Ok last /\ is_gas_base last = false)
  /\ WindowConstruction.validate_loop (length mats) 0 mats false false
     = Ok (WindowConstruction.has_shade c)
  /\ WindowConstruction.materials c = mats.
Proof.
  unfold WindowConstruction.__init__, WindowConstruction.materials_setter.
  intros H. do 7 inv_bind H.
  apply assert_Ok in Ha, Ha0, Ha2, Ha4.
  apply Nat.ltb_lt in Ha. apply Nat.leb_le in Ha0.
  apply negb_true_iff in Ha2, Ha4.
  injection H as <-; simpl.
  repeat split; try lia; eauto.
Qed.

Lemma validate_loop_outcome (n : nat) (mats : list material) :
  forall (i : nat) (glazing_layer has_shade : bool),
    (exists b, WindowConstruction.validate_loop n i mats glazing_layer
                 has_shade = Ok b)
    \/ WindowConstruction.validate_loop n i mats glazing_layer has_shade
       = Raise AssertionError.
Proof.
  induction mats as [| m mats IH]; intros i gl hs; simpl.
  - left; eexists; reflexivity.
  - destruct m; simpl; try (now right).
    + destruct gl; simpl; [now right | apply IH].
    + destruct (n =? 1)%nat; simpl; [apply IH | now right].
    + destruct gl; simpl; [apply IH | now right].
    + destruct (negb (i =? 0)%nat); simpl.
      * destruct gl; simpl; [| now right].
        destruct hs; simpl; [now right | apply IH].
      * destruct hs; simpl; [now right | apply IH].
Qed.

Lemma getitem_first {A : Type} (a : A) (l : list A) :
  getitem (a :: l) 0 = Ok a.
Proof. exact (getitem_nat (a :: l) 0 a eq_refl). Qed.

Lemma getitem_last {A : Type} (l : list A) (a : A) :
  getitem (l ++ [a]) (-1) = Ok a.
Proof.
  unfold getitem. rewrite length_app; simpl length.
  change (-1 <? 0)%Z with true; cbv iota.
  replace (-1 + Z.of_nat (length l + 1))%Z with (Z.of_nat (length l)) by lia.
  destruct ((Z.of_nat (length l) <? 0)
            || (Z.of_nat (length l + 1) <=? Z.of_nat (length l)))%Z eqn:E.
  - apply orb_true_iff in E as [E | E];
      [apply Z.ltb_lt in E | apply Z.leb_le in E]; lia.
  - rewrite Nat2Z.id, nth_error_app2 by lia.
    now replace (length l - length l)%nat with 0%nat by lia.
Qed.

Lemma window_init_outcome (mats : list material) :
  (exists c, WindowConstruction.__init__ mats = Ok c)
  \/ WindowConstruction.__init__ mats = Raise AssertionError.
Proof.
  unfold WindowConstruction.__init__, WindowConstruction.materials_setter.
  destruct mats as [| m mats]; [now right |].
  destruct (@exists_last _ (m :: mats) ltac:(discriminate)) as (pre & z & E).
  assert (G0 : getitem (m :: mats) 0 = Ok m) by apply getitem_first.
  assert (G1 : getitem (m :: mats) (-1) = Ok z)
    by (rewrite E; apply getitem_last).
  rewrite G0, G1.
  change (0 <? length (m :: mats))%nat with true.
  destruct (length (m :: mats) <=? 8)%nat; cbn [bind assert]; [| now right].
  destruct (is_gas_base m); cbn [bind assert negb]; [now right |].
  destruct (is_gas_base z); cbn [bind assert negb]; [now right |].
  destruct (validate_loop_outcome (length (m :: mats)) (m :: mats) 0 false
              false) as [(b & ->) | ->]; cbn [bind];
    [left; eexists; reflexivity | now right].
Qed.

(** C8.  A materials list is accepted, by the opaque and by the window
    setter alike, only when it holds between 1 and 10 layers; the empty list
    and every list of more than 10 layers are turned down with an
    [AssertionError], so that no construction comes out of [__init__]. *)
Theorem materials_layer_count (mats : list material) :
  (forall c, OpaqueConstruction.__init__ mats = Ok c ->
             (1 <= length mats <= 10)%nat)
  /\ (forall c, WindowConstruction.__init__ mats = Ok c ->
                (1 <= length mats <= 10)%nat)
  /\ (mats = [] ->
      OpaqueConstruction.__init__ mats = Raise AssertionError
      /\ WindowConstruction.__init__ mats = Raise AssertionError)
  /\ ((10 < length mats)%nat ->
      OpaqueConstruction.__init__ mats = Raise AssertionError
      /\ WindowConstruction.__init__ mats = Raise AssertionError).
Proof.
  repeat split.
  - apply (opaque_init_Ok mats c H).
  - apply (opaque_init_Ok mats c H).
  - apply (window_init_Ok mats c H).
  - destruct (window_init_Ok mats c H) as [Hlen _]; lia.
  - subst mats; reflexivity.
  - subst mats; reflexivity.
  - destruct (opaque_init_outcome mats) as [(c & Hc) | E]; [| exact E].
    destruct (opaque_init_Ok mats c Hc) as [Hlen _]; lia.
  - destruct (window_init_outcome mats) as [(c & Hc) | E]; [| exact E].
    destruct (window_init_Ok mats c Hc) as [Hlen _]; lia.
Qed.

Lemma materials_layer_count_witness :
  (OpaqueConstruction.__init__ [concrete] = Ok concrete_wall
   /\ (1 <= length [concrete] <= 10)%nat)
  /\ (WindowConstruction.__init__ [clear_glass] = Ok single_pane
      /\ (1 <= length [clear_glass] <= 10)%nat)
  /\ (OpaqueConstruction.__init__ [] = Raise AssertionError
      /\ WindowConstruction.__init__ [] = Raise AssertionError)
  /\ ((10 < length (repeat concrete 11))%nat
      /\ OpaqueConstruction.__init__ (repeat concrete 11)
         = Raise AssertionError
      /\ WindowConstruction.__init__ (repeat concrete 11)
         = Raise AssertionError).
Proof.
  assert (Ho : OpaqueConstruction.__init__ [concrete] = Ok concrete_wall)
    by reflexivity.
  assert (Hw : WindowConstruction.__init__ [clear_glass] = Ok single_pane)
    by reflexivity.
  assert (Hbig : (10 < length (repeat concrete 11))%nat) by (simpl; lia).
  split; [split; [exact Ho |] | split; [split; [exact Hw |] | split]].
  - exact (proj1 (materials_layer_count [concrete]) concrete_wall Ho).
  - exact (proj1 (proj2 (materials_layer_count [clear_glass]))
             single_pane Hw).
  - exact (proj1 (proj2 (proj2 (materials_layer_count []))) eq_refl).
  - split; [exact Hbig |].
    exact (proj2 (proj2 (proj2 (materials_layer_count (repeat concrete 11))))
             Hbig).
Defined.

(** The window setter is stricter than the opaque one: it stops at 8. *)
Lemma window_layer_count (mats : list material) (c : WindowConstruction.t) :
  WindowConstruction.__init__ mats = Ok c -> (1 <= length mats <= 8)%nat.
Proof. intros H; apply (window_init_Ok mats c H). Qed.

(** Five panes separated by four gaps are a well-layered list of 9 layers;
    the window setter refuses it for its length. *)
Example nine_layer_window_refused :
  WindowConstruction.__init__
    [clear_glass; plain_gap; clear_glass; plain_gap; clear_glass; plain_gap;
     clear_glass; plain_gap; clear_glass]
  = Raise AssertionError.
Proof. reflexivity. Qed.

(** The same alternation with four panes is accepted. *)
Example seven_layer_window_accepted :
  WindowConstruction.__init__
    [clear_glass; plain_gap; clear_glass; plain_gap; clear_glass; plain_gap;
     clear_glass]
  = Ok {| WindowConstruction._materials :=
            [clear_glass; plain_gap; clear_glass; plain_gap; clear_glass;
             plain_gap; clear_glass];
          WindowConstruction._has_shade := false |}.
Proof. reflexivity. Qed.

(** ** Structural validation of window layer lists *)

Lemma flag_after_snoc (pre : list material) (m : material) (gl : bool) :
  flag_after (pre ++ [m]) gl = is_pane m.
Proof. unfold flag_after; now rewrite fold_left_app. Qed.

(** Passing a prefix: if the loop accepts [pre ++ rest], it reaches [rest]
    with the flag set by the last layer of [pre], and with [has_shade] set
    if it was set before or [pre] holds a shade. *)
Lemma validate_loop_app (n : nat) (rest : list material) (b : bool) :
  n <> 1%nat ->
  forall (pre : list material) (i : nat) (gl hs : bool),
    WindowConstruction.validate_loop n i (pre ++ rest) gl hs = Ok b ->
    exists hs',
      WindowConstruction.validate_loop n (i + length pre) rest
        (flag_after pre gl) hs' = Ok b
      /\ (hs = true -> hs' = true)
      /\ (forall s, In (Shade s) pre -> hs' = true).
Proof.
  intros Hn; induction pre as [| m pre IH]; intros i gl hs H.
  - exists hs; simpl; rewrite Nat.add_0_r.
    repeat split; [exact H | auto | intros s []].
  - simpl in H.
    replace (i + length (m :: pre))%nat with (S i + length pre)%nat
      by (simpl; lia).
    change (flag_after (m :: pre) gl) with (flag_after pre (is_pane m)).
    destruct m as [r a | r e eb | r | g | s]; simpl in H.
    + discriminate.
    + destruct gl; simpl in H; [discriminate |].
      destruct (IH _ _ _ H) as (hs' & Hv & Hk & Hs).
      exists hs'; repeat split; auto.
      intros s [E | I]; [discriminate | eauto].
    + apply Nat.eqb_neq in Hn; rewrite Hn in H; discriminate.
    + destruct gl; simpl in H; [| discriminate].
      destruct (IH _ _ _ H) as (hs' & Hv & Hk & Hs).
      exists hs'; repeat split; auto.
      intros s [E | I]; [discriminate | eauto].
    + assert (H' : hs = false
                   /\ WindowConstruction.validate_loop n (S i) (pre ++ rest)
                        false true = Ok b).
      { destruct (negb (i =? 0)%nat); simpl in H;
          [destruct gl; simpl in H; [| discriminate] |];
          (destruct hs; simpl in H; [discriminate | split; auto]). }
      destruct H' as [-> H'].
      destruct (IH _ _ _ H') as (hs' & Hv & Hk & Hs).
      exists hs'; repeat split; auto.
Qed.

Lemma window_init_validate (mats : list material) (c : WindowConstruction.t) :
  WindowConstruction.__init__ mats = Ok c ->
  exists b, WindowConstruction.validate_loop (length mats) 0 mats false false
            = Ok b.
Proof.
  intros H; destruct (window_init_Ok mats c H) as (_ & _ & _ & V & _); eauto.
Qed.

(** No accepted list shows any of the structural faults. *)
Lemma window_init_no_fault (mats : list material) (c : WindowConstruction.t) :
  WindowConstruction.__init__ mats = Ok c -> ~ structure_fault mats.
Proof.
  intros H F.
  destruct (window_init_Ok mats c H)
    as (Hlen & (f & Gf & Nf) & (l & Gl & Nl) & _ & _).
  destruct (window_init_validate mats c H) as (b & V).
  destruct F as [g rest E | g pre E | pre m g post E Hm
                | pre x y post E Hx Hy | pre m s post E Hm
                | pre s1 mid s2 post E | pre r post E Hne].
  - subst mats. rewrite getitem_first in Gf. injection Gf as <-. discriminate.
  - subst mats. rewrite getitem_last in Gl. injection Gl as <-. discriminate.
  - assert (Hn : length mats <> 1%nat)
      by (subst mats; rewrite length_app; simpl; lia).
    replace (pre ++ m :: Gas g :: post) with ((pre ++ [m]) ++ Gas g :: post)
      in E by (now rewrite <- app_assoc).
    rewrite E in V at 2.
    destruct (validate_loop_app _ _ _ Hn _ _ _ _ V) as (hs' & V' & _ & _).
    rewrite flag_after_snoc, Hm in V'. discriminate.
  - assert (Hn : length mats <> 1%nat)
      by (subst mats; rewrite length_app; simpl; lia).
    rewrite E in V at 2.
    destruct (validate_loop_app _ _ _ Hn _ _ _ _ V) as (hs' & V' & _ & _).
    apply Nat.eqb_neq in Hn.
    destruct x as [? ? | ? ? ? | ? | ? | ?]; try discriminate Hx.
    + simpl in V'.
      destruct (flag_after pre false); simpl in V'; [discriminate |].
      destruct y as [? ? | ? ? ? | ? | ? | ?]; try discriminate Hy.
      * simpl in V'; discriminate.
      * simpl in V'; rewrite Hn in V'; discriminate.
    + simpl in V'; rewrite Hn in V'; discriminate.
  - assert (Hn : length mats <> 1%nat)
      by (subst mats; rewrite length_app; simpl; lia).
    replace (pre ++ m :: Shade s :: post)
      with ((pre ++ [m]) ++ Shade s :: post)
      in E by (now rewrite <- app_assoc).
    rewrite E in V at 2.
    destruct (validate_loop_app _ _ _ Hn _ _ _ _ V) as (hs' & V' & _ & _).
    rewrite flag_after_snoc, Hm in V'. simpl in V'.
    rewrite length_app in V'; simpl in V'.
    replace (length pre + 1 =? 0)%nat with false in V'
      by (symmetry; apply Nat.eqb_neq; lia).
    discriminate.
  - assert (Hn : length mats <> 1%nat).
    { subst mats. rewrite length_app; simpl. rewrite length_app; simpl. lia. }
    replace (pre ++ Shade s1 :: mid ++ Shade s2 :: post)
      with ((pre ++ Shade s1 :: mid) ++ Shade s2 :: post)
      in E by (now rewrite <- app_assoc).
    rewrite E in V at 2.
    destruct (validate_loop_app _ _ _ Hn _ _ _ _ V) as (hs' & V' & _ & Hs).
    rewrite (Hs s1) in V' by (apply in_or_app; right; now left).
    simpl in V'.
    apply bind_Ok in V' as (u & _ & V'). discriminate.
  - assert (Hn : length mats <> 1%nat).
    { subst mats. rewrite length_app; simpl.
      destruct pre; destruct post; simpl; try lia. now elim Hne. }
    rewrite E in V at 2.
    destruct (validate_loop_app _ _ _ Hn _ _ _ _ V) as (hs' & V' & _ & _).
    simpl in V'. apply Nat.eqb_neq in Hn. rewrite Hn in V'. discriminate.
Qed.

(** C9.  A window layer list with a gas layer first or last, a gas layer not
    right after a pane, two glazing layers side by side, a shade that is not
    first and not right after a pane, a second shade or blind, or a simple
    glazing system in company is turned down by [__init__] (which assigns
    through the [materials] setter) with an [AssertionError]: no construction
    exists on which a solve could run. *)
Theorem window_structure_validated (mats : list material) :
  structure_fault mats ->
  WindowConstruction.__init__ mats = Raise AssertionError
  /\ WindowConstruction.materials_setter mats = Raise AssertionError.
Proof.
  intros F.
  assert (E : WindowConstruction.__init__ mats = Raise AssertionError).
  { destruct (window_init_outcome mats) as [(c & H) | H]; [| exact H].
    elim (window_init_no_fault mats c H F). }
  split; exact E.
Qed.

Lemma window_structure_validated_witness :
  (structure_fault [plain_gap; clear_glass]
   /\ WindowConstruction.__init__ [plain_gap; clear_glass]
      = Raise AssertionError)
  /\ (structure_fault [clear_glass; plain_gap]
      /\ WindowConstruction.__init__ [clear_glass; plain_gap]
         = Raise AssertionError)
  /\ (structure_fault [clear_glass; plain_gap; plain_gap; clear_glass]
      /\ WindowConstruction.__init__
           [clear_glass; plain_gap; plain_gap; clear_glass]
         = Raise AssertionError)
  /\ (structure_fault [clear_glass; clear_glass]
      /\ WindowConstruction.__init__ [clear_glass; clear_glass]
         = Raise AssertionError)
  /\ (structure_fault [clear_glass; plain_gap; plain_shade; clear_glass]
      /\ WindowConstruction.__init__
           [clear_glass; plain_gap; plain_shade; clear_glass]
         = Raise AssertionError)
  /\ (structure_fault [plain_shade; clear_glass; plain_shade]
      /\ WindowConstruction.__init__ [plain_shade; clear_glass; plain_shade]
         = Raise AssertionError)
  /\ (structure_fault [SimpleGlazSys 0.3; clear_glass]
      /\ WindowConstruction.__init__ [SimpleGlazSys 0.3; clear_glass]
         = Raise AssertionError).
Proof.
  assert (F1 : structure_fault [plain_gap; clear_glass])
    by (eapply gas_first; reflexivity).
  assert (F2 : structure_fault [clear_glass; plain_gap])
    by (eapply (gas_last _ _ [clear_glass]); reflexivity).
  assert (F3 : structure_fault
                 [clear_glass; plain_gap; plain_gap; clear_glass])
    by (eapply (gas_after_non_glazing _ [clear_glass] plain_gap _
                  [clear_glass]); reflexivity).
  assert (F4 : structure_fault [clear_glass; clear_glass])
    by (eapply (glazing_adjacent _ [] clear_glass clear_glass []);
        reflexivity).
  assert (F5 : structure_fault
                 [clear_glass; plain_gap; plain_shade; clear_glass])
    by (eapply (shade_after_non_glazing _ [clear_glass] plain_gap _
                  [clear_glass]); reflexivity).
  assert (F6 : structure_fault [plain_shade; clear_glass; plain_shade])
    by (eapply (second_shade _ [] _ [clear_glass] _ []); reflexivity).
  assert (F7 : structure_fault [SimpleGlazSys 0.3; clear_glass])
    by (eapply (simple_glazing_with_others _ [] 0.3 [clear_glass]);
        [reflexivity | discriminate]).
  exact (conj (conj F1 (proj1 (window_structure_validated _ F1)))
        (conj (conj F2 (proj1 (window_structure_validated _ F2)))
        (conj (conj F3 (proj1 (window_structure_validated _ F3)))
        (conj (conj F4 (proj1 (window_structure_validated _ F4)))
        (conj (conj F5 (proj1 (window_structure_validated _ F5)))
        (conj (conj F6 (proj1 (window_structure_validated _ F6)))
              (conj F7 (proj1 (window_structure_validated _ F7))))))))).
Defined.

(** The well-layered lists of the tests pass: a double pane, a triple pane,
    and a pane behind an exterior shade. *)
Example triple_pane_accepted :
  WindowConstruction.__init__
    [clear_glass; plain_gap; clear_glass; plain_gap; clear_glass]
  = Ok {| WindowConstruction._materials :=
            [clear_glass; plain_gap; clear_glass; plain_gap; clear_glass];
          WindowConstruction._has_shade := false |}.
Proof. reflexivity. Qed.

Example shaded_pane_accepted :
  WindowConstruction.__init__ [plain_shade; clear_glass]
  = Ok {| WindowConstruction._materials := [plain_shade; clear_glass];
          WindowConstruction._has_shade := true |}.
Proof. reflexivity. Qed.

(** ** Counting gaps *)

(** A gas layer counts one gap; an exterior shade counts one; a shade
    elsewhere counts two unless the running count already equals
    [len(materials) - 1]. *)
Example gap_count_examples :
  WindowConstruction.gap_count single_pane = 0%nat
  /\ WindowConstruction.gap_count probe_double = 1%nat
  /\ WindowConstruction.gap_count probe_triple = 2%nat
  /\ WindowConstruction.gap_count
       {| WindowConstruction._materials := [plain_shade; clear_glass];
          WindowConstruction._has_shade := true |} = 1%nat
  /\ WindowConstruction.gap_count
       {| WindowConstruction._materials := [clear_glass; plain_shade];
          WindowConstruction._has_shade := true |} = 2%nat.
Proof. repeat split; reflexivity. Qed.

(** Without a gap, the window R-factor is the closed form as well. *)
Example single_pane_r_factor (_air : air_model) (fuel : nat) :
  WindowConstruction.r_factor _air single_pane fuel
  = Ok (0.005715 + 1 / out_h_simple + 1 / in_h_simple 0.84).
Proof.
  unfold WindowConstruction.r_factor, WindowConstruction.in_r_simple,
    WindowConstruction.inside_emissivity; simpl.
  rewrite (pydiv_Ok 1 out_h_simple out_h_simple_nonzero); simpl.
  rewrite pydiv_Ok by (rewrite in_h_simple_glass; lra).
  reflexivity.
Qed.

(** ** Indexing in the seed of the layered solve *)

Lemma out_h_pos (e wind_speed t_kelvin : R) :
  0 <= e -> 0 <= wind_speed -> 0 <= t_kelvin ->
  4 <= out_h e wind_speed t_kelvin.
Proof.
  intros He Hw Ht; unfold out_h.
  assert (H3 : 0 <= t_kelvin ^ 3) by (apply pow_le; exact Ht).
  assert (Hr : 0 <= 4 * 5.6697e-8 * e * t_kelvin ^ 3).
  { apply Rmult_le_pos; [apply Rmult_le_pos; [lra | exact He] | exact H3]. }
  lra.
Qed.

Lemma guess_Rmax (T_out T_in : R) :
  WindowConstruction.guess T_out T_in = Rmax 1 (Rabs (T_in - T_out) / 2).
Proof.
  unfold WindowConstruction.guess, Rmax.
  destruct (Rlt_dec (Rabs (T_in - T_out) / 2) 1) as [L | G];
    destruct (Rle_dec 1 (Rabs (T_in - T_out) / 2)) as [L' | G']; lra.
Qed.

Lemma guess_default : WindowConstruction.guess (-18) 21 = 19.5.
Proof.
  rewrite guess_Rmax.
  replace (21 - -18) with 39 by lra.
  rewrite Rabs_pos_eq by lra.
  rewrite Rmax_right; lra.
Qed.

Lemma avg_guess_default : WindowConstruction.avg_guess (-18) 21 = 274.65.
Proof. unfold WindowConstruction.avg_guess; lra. Qed.

(** The seed build on a lone shade: the outdoor film is computed, the drop
    is shared out, and the first pass of the loop looks for the layer after
    the shade. *)
Lemma lone_shade_seed_raises (delta_t_guess avg_t_guess wind_speed : R) :
  0 <= wind_speed -> 0 <= avg_t_guess - delta_t_guess ->
  WindowConstruction._layered_r_value_initial
    {| WindowConstruction._materials := [plain_shade];
       WindowConstruction._has_shade := true |}
    1 delta_t_guess avg_t_guess wind_speed
  = Raise IndexError.
Proof.
  intros Hw Ht.
  unfold WindowConstruction._layered_r_value_initial,
    WindowConstruction.out_r, WindowConstruction.outside_emissivity; simpl.
  rewrite pydiv_Ok; simpl.
  - rewrite (pydiv_Ok delta_t_guess 1) by lra; reflexivity.
  - assert (H := out_h_pos 0.9 wind_speed (avg_t_guess - delta_t_guess)
                   ltac:(lra) Hw Ht).
    lra.
Qed.

(** C10, at the input where it fails.  A list made of one shade passes the
    validator and counts one gap, and the seed build of [r_factor] (and of
    [r_value] and [temperature_profile] alike) then reads [materials[i + 1]]
    at [i = 0] in a tuple of length 1: [IndexError]. *)
Theorem lone_shade_r_factor_raises (_air : air_model) (fuel : nat) :
  exists c,
    WindowConstruction.__init__ [plain_shade] = Ok c
    /\ WindowConstruction.gap_count c = 1%nat
    /\ WindowConstruction.r_factor _air c fuel = Raise IndexError
    /\ WindowConstruction.r_value _air c fuel = Raise IndexError
    /\ WindowConstruction.temperature_profile _air c fuel
         (-18) 21 6.7 1.0 90.0 101325 = Raise IndexError.
Proof.
  exists {| WindowConstruction._materials := [plain_shade];
            WindowConstruction._has_shade := true |}.
  split; [reflexivity | split; [reflexivity |]].
  unfold WindowConstruction.r_factor, WindowConstruction.r_value,
    WindowConstruction.temperature_profile,
    WindowConstruction.temperature_profile_body.
  change (WindowConstruction.gap_count _) with 1%nat; cbv iota beta.
  change (1 =? 0)%nat with false; cbv iota.
  rewrite guess_default, avg_guess_default.
  rewrite !lone_shade_seed_raises by lra.
  repeat split; reflexivity.
Qed.

(** ** The seed of the layered solve *)




(** [_layered_r_value_initial] spreads its [delta_t_guess] over the gaps:
    each gap gets [delta_t_guess / gap_count]. *)
Lemma layered_r_value_initial_seed (self : WindowConstruction.t)
    (gap_count : nat) (delta_t_guess avg_t_guess wind_speed : R) :
  gap_count <> 0%nat ->
  WindowConstruction._layered_r_value_initial self gap_count delta_t_guess
    avg_t_guess wind_speed
  = seed_from self (delta_t_guess / INR gap_count) avg_t_guess
      (avg_t_guess - delta_t_guess) wind_speed.
Proof.
  intros Hg.
  unfold WindowConstruction._layered_r_value_initial, seed_from.
  destruct (WindowConstruction.out_r self wind_speed
              (avg_t_guess - delta_t_guess)) as [r_0 | e |]; simpl;
    try reflexivity.
  rewrite pydiv_Ok by (apply not_0_INR; exact Hg).
  reflexivity.
Qed.

(** C2, as the code has it.  With at least one gap: [temperature_profile] seeds its
    solve with the total drop [max(1, |T_in - T_out| / 2)] divided by the
    number of gaps, at the mean [(T_in + T_out) / 2 + 273.15]; [r_factor] and
    [r_value] take no temperatures and seed theirs with the drop 15 divided
    by the number of gaps, at the mean 273.15. *)
Theorem seed_of_layered_solve (_air : air_model) (self : WindowConstruction.t)
    (fuel : nat) (T_out T_in wind_speed height angle pressure : R) :
  WindowConstruction.gap_count self <> 0%nat ->
  let n := INR (WindowConstruction.gap_count self) in
  let drop := Rmax 1 (Rabs (T_in - T_out) / 2) in
  let mean := (T_in + T_out) / 2 + 273.15 in
  WindowConstruction.temperature_profile_body _air self fuel T_out T_in
    wind_speed height angle pressure
  = (do '(r_values, emissivities) <-
       seed_from self (drop / n) mean (mean - drop) wind_speed ;
     do r_values <- WindowConstruction.profile_loop _air self T_out T_in
                      height angle pressure emissivities fuel 0 r_values ;
     do temperatures <- _temperature_profile_from_r_values r_values
                          T_out T_in ;
     Ok (temperatures, r_values))
  /\ WindowConstruction.r_factor _air self fuel
     = (do '(r_vals, emissivities) <-
          seed_from self (15 / n) 273.15 (273.15 - 15) 6.7 ;
        do r_vals <- WindowConstruction._solve_r_values _air self fuel
                       r_vals emissivities ;
        Ok (sum r_vals))
  /\ WindowConstruction.r_value _air self fuel
     = (do '(r_vals, emissivities) <-
          seed_from self (15 / n) 273.15 (273.15 - 15) 6.7 ;
        do r_vals <- WindowConstruction._solve_r_values _air self fuel
                       r_vals emissivities ;
        Ok (sum (WindowConstruction.interior_slice r_vals))).
Proof.
  intros Hg n drop mean.
  unfold WindowConstruction.temperature_profile_body,
    WindowConstruction.r_factor, WindowConstruction.r_value.
  apply Nat.eqb_neq in Hg as Hg'; rewrite Hg'.
  rewrite !layered_r_value_initial_seed by exact Hg.
  rewrite guess_Rmax. unfold WindowConstruction.avg_guess.
  repeat split; reflexivity.
Qed.

Lemma seed_of_layered_solve_witness :
  WindowConstruction.gap_count probe_triple <> 0%nat
  /\ WindowConstruction.r_factor generic_air probe_triple 5
     = (do '(r_vals, emissivities) <-
          seed_from probe_triple
            (15 / INR (WindowConstruction.gap_count probe_triple))
            273.15 (273.15 - 15) 6.7 ;
        do r_vals <- WindowConstruction._solve_r_values generic_air
                       probe_triple 5 r_vals emissivities ;
        Ok (sum r_vals)).
Proof.
  assert (H : WindowConstruction.gap_count probe_triple <> 0%nat)
    by discriminate.
  split; [exact H |].
  exact (proj1 (proj2 (seed_of_layered_solve generic_air probe_triple 5
                         (-18) 21 6.7 1 90 101325 H))).
Defined.


(** The seed of the probe constructions: the reciprocal of the drop shows
    at every gap. *)
Lemma probe_triple_seed (drop mean film_t wind_speed : R) :
  drop <> 0 -> out_h 0.84 wind_speed film_t <> 0 ->
  seed_from probe_triple drop mean film_t wind_speed
  = Ok ([1 / out_h 0.84 wind_speed film_t; 0.005715; 1 / drop; 0.005715;
         1 / drop; 0.005715; 1 / in_h_simple 0.84],
        [EmissNone; EmissPair 0.84 0.84; EmissNone; EmissPair 0.84 0.84;
         EmissNone]).
Proof.
  intros Hd Ho.
  unfold seed_from, WindowConstruction.out_r, WindowConstruction.in_r_simple,
    WindowConstruction.outside_emissivity,
    WindowConstruction.inside_emissivity.
  simpl.
  rewrite (pydiv_Ok 1 (out_h 0.84 wind_speed film_t) Ho).
  simpl.
  rewrite !(pydiv_Ok 1 drop Hd).
  simpl.
  rewrite pydiv_Ok by (rewrite in_h_simple_glass; lra).
  reflexivity.
Qed.

Lemma probe_double_seed (drop mean film_t wind_speed : R) :
  drop <> 0 -> out_h 0.84 wind_speed film_t <> 0 ->
  seed_from probe_double drop mean film_t wind_speed
  = Ok ([1 / out_h 0.84 wind_speed film_t; 0.005715; 1 / drop; 0.005715;
         1 / in_h_simple 0.84],
        [EmissNone; EmissPair 0.84 0.84; EmissNone]).
Proof.
  intros Hd Ho.
  unfold seed_from, WindowConstruction.out_r, WindowConstruction.in_r_simple,
    WindowConstruction.outside_emissivity,
    WindowConstruction.inside_emissivity.
  simpl.
  rewrite (pydiv_Ok 1 (out_h 0.84 wind_speed film_t) Ho).
  simpl.
  rewrite !(pydiv_Ok 1 drop Hd).
  simpl.
  rewrite pydiv_Ok by (rewrite in_h_simple_glass; lra).
  reflexivity.
Qed.

Lemma out_h_glass_nonzero (wind_speed t_kelvin : R) :
  0 <= wind_speed -> 0 <= t_kelvin -> out_h 0.84 wind_speed t_kelvin <> 0.
Proof.
  intros Hw Ht.
  assert (H := out_h_pos 0.84 wind_speed t_kelvin ltac:(lra) Hw Ht). lra.
Qed.

(** C2 as stated fails twice.  In a triple glazing, [temperature_profile] at
    -18/21 gives each of the two gaps the drop 19.5 / 2, not 19.5; and in a
    double glazing [r_factor] seeds its one gap with the drop 15 at 273.15 K,
    not with 19.5 at 274.65 K. *)
Lemma seed_not_as_claimed :
  WindowConstruction._layered_r_value_initial probe_triple
    (WindowConstruction.gap_count probe_triple)
    (WindowConstruction.guess (-18) 21)
    (WindowConstruction.avg_guess (-18) 21) 6.7
  <> seed_as_claimed probe_triple (-18) 21 6.7
  /\ WindowConstruction._layered_r_value_initial probe_double
       (WindowConstruction.gap_count probe_double) 15 273.15 6.7
     <> seed_as_claimed probe_double (-18) 21 6.7.
Proof.
  assert (Hmax : Rmax 1 (Rabs (21 - -18) / 2) = 19.5)
    by (rewrite <- guess_Rmax; apply guess_default).
  split.
  - rewrite layered_r_value_initial_seed by discriminate.
    unfold seed_as_claimed. rewrite Hmax, guess_default, avg_guess_default.
    change (WindowConstruction.gap_count probe_triple) with 2%nat.
    replace (INR 2) with 2 by (simpl; lra).
    rewrite !probe_triple_seed;
      try (apply out_h_glass_nonzero; lra); try lra.
    intros E. injection E as E1 E2. lra.
  - rewrite layered_r_value_initial_seed by discriminate.
    unfold seed_as_claimed. rewrite Hmax.
    change (WindowConstruction.gap_count probe_double) with 1%nat.
    replace (INR 1) with 1 by (simpl; lra).
    rewrite !probe_double_seed;
      try (apply out_h_glass_nonzero; lra); try lra.
    intros E. injection E as E1 E2. lra.
Qed.

(** ** The builder as a plain recursion *)

Lemma temperature_loop_accumulate (delta_t r_factor : R) (r_values : list R) :
  r_factor <> 0 ->
  forall (done : list R) (t : R) (i : nat),
    length done = i ->
    temperature_loop delta_t r_factor i r_values (done ++ [t])
    = Ok (done ++ accumulate t delta_t r_factor r_values).
Proof.
  intros Hr; induction r_values as [| r rest IH]; intros done t i Hlen.
  - reflexivity.
  - simpl.
    rewrite (getitem_nat (done ++ [t]) i t)
      by (rewrite nth_error_app2 by lia;
          now replace (i - length done)%nat with 0%nat by lia).
    rewrite (pydiv_Ok _ _ Hr); simpl.
    rewrite (IH (done ++ [t]) _ (S i))
      by (rewrite length_app; simpl; lia).
    now rewrite <- app_assoc.
Qed.

Lemma temperature_profile_accumulate (r_values : list R) (T_out T_in : R) :
  sum r_values <> 0 ->
  _temperature_profile_from_r_values r_values T_out T_in
  = Ok (accumulate T_out (T_in - T_out) (sum r_values) r_values).
Proof.
  intros H. unfold _temperature_profile_from_r_values.
  exact (temperature_loop_accumulate _ _ r_values H [] T_out 0 eq_refl).
Qed.

(** ** The indoor film at 90 degrees *)

Lemma float_pow_incr (x y e : R) :
  0 <= e -> 0 < x <= y -> float_pow x e <= float_pow y e.
Proof.
  intros He [Hx Hxy]; unfold float_pow.
  destruct (Rle_dec x 0) as [L | _]; [lra |].
  destruct (Rle_dec y 0) as [L | _]; [lra |].
  apply Rle_Rpower_l; [exact He | split; assumption].
Qed.

Lemma nusselt_90_nonneg (Ra : R) :
  exists nu, nusselt Ra 90 = Ok nu /\ 0 <= nu.
Proof.
  unfold nusselt.
  destruct (Rlt_dec 90 15) as [H | _]; [lra |].
  destruct (Rle_dec 90 90) as [_ | H]; [| lra].
  rewrite rayleigh_c_90; simpl.
  set (rc := 2.5e5 * float_pow (exp (0.72 * 90) / 1) (1 / 5)).
  assert (Hrc : 0 < rc) by apply rayleigh_c_90_pos.
  destruct (Rlt_dec Ra rc) as [L | G].
  - eexists; split; [reflexivity |].
    apply Rmult_le_pos; [lra | apply float_pow_nonneg].
  - eexists; split; [reflexivity |].
    assert (H1 : 0 <= float_pow (rc * sin (radians 90)) (1 / 4))
      by apply float_pow_nonneg.
    assert (H2 : float_pow rc (1 / 3) <= float_pow Ra (1 / 3))
      by (apply float_pow_incr; lra).
    lra.
Qed.

Section IndoorFilm.

Variable _air : air_model.
Hypothesis Hair : air_positive _air.

(** With positive air, a positive inside emissivity and a positive
    absolute temperature, the detailed indoor coefficient at 90 degrees is
    defined and is at least its radiative term. *)
Lemma in_h_vertical (e t_kelvin delta_t height angle pressure : R) :
  0 < e -> 0 < t_kelvin -> 0 < height -> angle = 90 ->
  exists h,
    in_h _air (Ok e) t_kelvin delta_t height angle pressure = Ok h
    /\ 4 * 5.6697e-8 * e * t_kelvin ^ 3 <= h.
Proof.
  intros He Ht Hh ->.
  destruct (Hair t_kelvin Ht) as [Hmu Hk].
  unfold in_h, rayleigh.
  rewrite pydiv_Ok.
  2:{ apply Rmult_integral_contrapositive_currified;
        [apply Rmult_integral_contrapositive_currified |]; lra. }
  cbn [bind].
  destruct (nusselt_90_nonneg
              (Rabs (density_at_temperature _air t_kelvin pressure ^ 2
                     * height ^ 3 * 9.81
                     * specific_heat_at_temperature _air t_kelvin * delta_t
                     / (t_kelvin * viscosity_at_temperature _air t_kelvin
                        * conductivity_at_temperature _air t_kelvin))))
    as (nu & -> & Hnu).
  cbn [bind]. rewrite pydiv_Ok by lra. cbn [bind].
  eexists; split; [reflexivity |].
  assert (Hq : 0 <= conductivity_at_temperature _air t_kelvin / height).
  { apply Rlt_le, Rdiv_lt_0_compat; assumption. }
  assert (Hc : 0 <= nu * (conductivity_at_temperature _air t_kelvin
                          / height))
    by (apply Rmult_le_pos; assumption).
  lra.
Qed.

End IndoorFilm.

(** ** One refinement step of a double glazing *)

Section DoubleGlazing.

Variable _air : air_model.
Hypothesis Hair : air_positive _air.
Variables r_o e_o eb_o r_i e_i eb_i : R.
Variable gap : gas_methods.
Hypothesis Heb : 0 < eb_i.

Let window : WindowConstruction.t :=
  double_glazing (Glazing r_o e_o eb_o) gap (Glazing r_i e_i eb_i).

Let emissivities : list emiss_entry :=
  [EmissNone; EmissPair eb_o e_i; EmissNone].

(** [_layered_r_value] on six boundary temperatures: the outdoor film and
    the panes keep their entries, the gap is recomputed from the drop and
    the mean across it, the indoor film from the last two temperatures. *)
Lemma layered_r_value_double (t0 t1 t2 t3 t4 t5 r0 a x b r4 : R)
    (height angle pressure : R) :
  gas_u_value_at_angle gap (Rabs (t2 - t3)) eb_o e_i height angle
    ((t2 + t3) / 2 + 273.15) pressure <> 0 ->
  WindowConstruction._layered_r_value _air window [t0; t1; t2; t3; t4; t5]
    [r0; a; x; b; r4] emissivities height angle pressure
  = (do h <- in_h _air (Ok eb_i) ((t5 + t4) / 2 + 273.15) (Rabs (t5 - t4))
               height angle pressure ;
     do r_in <- pydiv 1 h ;
     Ok [r0; a;
         1 / gas_u_value_at_angle gap (Rabs (t2 - t3)) eb_o e_i height angle
               ((t2 + t3) / 2 + 273.15) pressure;
         b; r_in]).
Proof.
  intros HU.
  unfold WindowConstruction._layered_r_value, window, emissivities; simpl.
  rewrite (pydiv_Ok _ _ HU); simpl.
  reflexivity.
Qed.


(** One pass of the loop body on a five-entry vector at the default
    conditions: the gap sees its share [39 * (x / sum)] of the 39 K between
    -18 and 21, and the indoor film comes out positive and bounded by the
    reciprocal of its radiative term at 255.15 K. *)
Lemma refinement_step_double (r0 a x b r4 : R) :
  0 < r0 -> 0 <= a -> 0 < x -> 0 <= b -> 0 < r4 ->
  (forall delta_t avg,
     gas_u_value_at_angle gap delta_t eb_o e_i 1.0 90.0 avg 101325 <> 0) ->
  exists avg r_in,
    refinement_step _air window emissivities (-18) 21 1.0 90.0 101325
      [r0; a; x; b; r4]
    = Ok [r0; a;
          1 / gas_u_value_at_angle gap (39 * (x / sum [r0; a; x; b; r4]))
                eb_o e_i 1.0 90.0 avg 101325;
          b; r_in]
    /\ 0 < r_in
    /\ r_in * (4 * 5.6697e-8 * eb_i * 255.15 ^ 3) <= 1.
Proof.
  intros H0 Ha Hx Hb H4 HU.
  assert (ES : sum [r0; a; x; b; r4] = r0 + a + x + b + r4)
    by (unfold sum; simpl; lra).
  set (S := sum [r0; a; x; b; r4]) in *.
  assert (HS : 0 < S) by lra.
  assert (Hi : 0 < / S) by (apply Rinv_0_lt_compat; exact HS).
  assert (Q0 : 0 <= r0 / S) by (apply Rmult_le_pos; lra).
  assert (Qa : 0 <= a / S) by (apply Rmult_le_pos; lra).
  assert (Qx : 0 <= x / S) by (apply Rmult_le_pos; lra).
  assert (Qb : 0 <= b / S) by (apply Rmult_le_pos; lra).
  assert (Q4 : 0 <= r4 / S) by (apply Rmult_le_pos; lra).
  unfold refinement_step.
  rewrite temperature_profile_accumulate by (fold S; lra).
  fold S; cbn [bind accumulate].
  rewrite layered_r_value_double by apply HU.
  set (t1 := -18 + (21 - -18) * (r0 / S)).
  set (t2 := t1 + (21 - -18) * (a / S)).
  set (t3 := t2 + (21 - -18) * (x / S)).
  set (t4 := t3 + (21 - -18) * (b / S)).
  set (t5 := t4 + (21 - -18) * (r4 / S)).
  assert (T4 : -18 <= t4) by (unfold t4, t3, t2, t1; lra).
  assert (T5 : -18 <= t5) by (unfold t5; lra).
  replace (Rabs (t2 - t3)) with (39 * (x / S)).
  2:{ replace (t2 - t3) with (- (39 * (x / S))) by (unfold t3; lra).
      rewrite Rabs_Ropp, Rabs_pos_eq; lra. }
  destruct (in_h_vertical _air Hair eb_i ((t5 + t4) / 2 + 273.15)
              (Rabs (t5 - t4)) 1.0 90.0 101325 Heb
              ltac:(lra) ltac:(lra) ltac:(lra))
    as (h & -> & Hh).
  cbn [bind].
  assert (Hp : 255.15 ^ 3 <= ((t5 + t4) / 2 + 273.15) ^ 3)
    by (apply pow_incr; lra).
  assert (Hc : 0 < 4 * 5.6697e-8 * eb_i * 255.15 ^ 3)
    by (apply Rmult_lt_0_compat; [lra | lra]).
  assert (Hch : 4 * 5.6697e-8 * eb_i * 255.15 ^ 3 <= h).
  { apply Rle_trans with (2 := Hh).
    apply Rmult_le_compat_l; [lra | exact Hp]. }
  assert (Hhpos : 0 < h) by lra.
  rewrite pydiv_Ok by lra. cbn [bind].
  exists ((t2 + t3) / 2 + 273.15), (1 / h).
  split; [reflexivity |].
  assert (Hih : 0 < / h) by (apply Rinv_0_lt_compat; exact Hhpos).
  split; [lra |].
  unfold Rdiv; rewrite Rmult_1_l.
  replace 1 with (/ h * h) by (field; lra).
  apply Rmult_le_compat_l; lra.
Qed.

End DoubleGlazing.

(** ** The stopping rule of the two loops *)

Lemma solve_loop_unfold (_air : air_model) (self : WindowConstruction.t)
    (emissivities : list emiss_entry) (fuel : nat) (r_last : R)
    (r_vals : list R) :
  WindowConstruction.solve_loop _air self emissivities (S fuel) r_last r_vals
  = if Rgt_dec (Rabs (sum r_vals - r_last)) 0.001
    then do r_vals' <- refinement_step _air self emissivities (-18) 21
                         1.0 90.0 101325 r_vals ;
         WindowConstruction.solve_loop _air self emissivities fuel
           (sum r_vals) r_vals'
    else Ok r_vals.
Proof.
  simpl. destruct (Rgt_dec (Rabs (sum r_vals - r_last)) 0.001);
    [| reflexivity].
  unfold refinement_step.
  destruct (_temperature_profile_from_r_values r_vals (-18) 21);
    reflexivity.
Qed.

Lemma profile_loop_unfold (_air : air_model) (self : WindowConstruction.t)
    (T_out T_in height angle pressure : R)
    (emissivities : list emiss_entry) (fuel : nat) (r_last : R)
    (r_values : list R) :
  WindowConstruction.profile_loop _air self T_out T_in height angle pressure
    emissivities (S fuel) r_last r_values
  = if Rgt_dec (Rabs (sum r_values - r_last)) 0.001
    then do r_values' <- refinement_step _air self emissivities T_out T_in
                           height angle pressure r_values ;
         WindowConstruction.profile_loop _air self T_out T_in height angle
           pressure emissivities fuel (sum r_values) r_values'
    else Ok r_values.
Proof.
  simpl. destruct (Rgt_dec (Rabs (sum r_values - r_last)) 0.001);
    [| reflexivity].
  unfold refinement_step.
  destruct (_temperature_profile_from_r_values r_values T_out T_in);
    reflexivity.
Qed.

(** Under the default conditions the loop of [temperature_profile] is the
    loop of [_solve_r_values]. *)
Lemma profile_loop_default (_air : air_model) (self : WindowConstruction.t)
    (emissivities : list emiss_entry) (fuel : nat) :
  forall (r_last : R) (r_values : list R),
    WindowConstruction.profile_loop _air self (-18) 21 1.0 90.0 101325
      emissivities fuel r_last r_values
    = WindowConstruction.solve_loop _air self emissivities fuel r_last
        r_values.
Proof.
  induction fuel as [| fuel IH]; intros r_last r_values.
  - reflexivity.
  - rewrite profile_loop_unfold, solve_loop_unfold.
    destruct (Rgt_dec (Rabs (sum r_values - r_last)) 0.001); [| reflexivity].
    destruct (refinement_step _air self emissivities (-18) 21 1.0 90.0
                101325 r_values); simpl; auto.
Qed.

(** What a loop that returns has checked last: either it never ran and the
    seed itself is within the tolerance of [r_last], or the returned vector
    is the refinement of a vector whose sum it is within the tolerance of. *)
Lemma profile_loop_returns (_air : air_model) (self : WindowConstruction.t)
    (T_out T_in height angle pressure : R)
    (emissivities : list emiss_entry) (fuel : nat) :
  forall (r_last : R) (r_values result : list R),
    WindowConstruction.profile_loop _air self T_out T_in height angle
      pressure emissivities fuel r_last r_values = Ok result ->
    (result = r_values /\ Rabs (sum r_values - r_last) <= 0.001)
    \/ exists prev,
         refinement_step _air self emissivities T_out T_in height angle
           pressure prev = Ok result
         /\ Rabs (sum result - sum prev) <= 0.001.
Proof.
  induction fuel as [| fuel IH]; intros r_last r_values result H.
  - simpl in H.
    destruct (Rgt_dec (Rabs (sum r_values - r_last)) 0.001) as [G | N];
      [discriminate |].
    injection H as <-. left; split; [reflexivity | lra].
  - rewrite profile_loop_unfold in H.
    destruct (Rgt_dec (Rabs (sum r_values - r_last)) 0.001) as [G | N].
    + apply bind_Ok in H as (r' & Hstep & Hloop).
      destruct (IH _ _ _ Hloop) as [[-> Hd] | Hprev].
      * right; exists r_values; split; assumption.
      * right; exact Hprev.
    + injection H as <-. left; split; [reflexivity | lra].
Qed.

Lemma solve_loop_returns (_air : air_model) (self : WindowConstruction.t)
    (emissivities : list emiss_entry) (fuel : nat)
    (r_last : R) (r_vals result : list R) :
  WindowConstruction.solve_loop _air self emissivities fuel r_last r_vals
  = Ok result ->
  (result = r_vals /\ Rabs (sum r_vals - r_last) <= 0.001)
  \/ exists prev,
       refinement_step _air self emissivities (-18) 21 1.0 90.0 101325 prev
       = Ok result
       /\ Rabs (sum result - sum prev) <= 0.001.
Proof.
  rewrite <- profile_loop_default. apply profile_loop_returns.
Qed.

(** ** The seed of a double glazing *)

Lemma seed_double (r_o e_o eb_o r_i e_i eb_i : R) (gap : gas_methods)
    (drop mean film_t wind_speed : R) :
  out_h e_o wind_speed film_t <> 0 ->
  gas_u_value gap drop eb_o e_i mean <> 0 ->
  in_h_simple eb_i <> 0 ->
  seed_from (double_glazing (Glazing r_o e_o eb_o) gap (Glazing r_i e_i eb_i))
    drop mean film_t wind_speed
  = Ok ([1 / out_h e_o wind_speed film_t; r_o;
         1 / gas_u_value gap drop eb_o e_i mean; r_i; 1 / in_h_simple eb_i],
        [EmissNone; EmissPair eb_o e_i; EmissNone]).
Proof.
  intros Ho Hu Hi.
  unfold seed_from, WindowConstruction.out_r, WindowConstruction.in_r_simple,
    WindowConstruction.outside_emissivity,
    WindowConstruction.inside_emissivity.
  simpl.
  rewrite (pydiv_Ok _ _ Ho); simpl.
  rewrite (pydiv_Ok _ _ Hu); simpl.
  rewrite (pydiv_Ok _ _ Hi); reflexivity.
Qed.

Lemma reciprocal_bounds (lo hi h : R) :
  0 < lo -> lo <= h <= hi -> 1 / hi <= 1 / h <= 1 / lo.
Proof.
  intros Hlo [H1 H2]. unfold Rdiv; rewrite !Rmult_1_l.
  split; apply Rinv_le_contravar; lra.
Qed.

(** The outdoor film of a clear pane at the two seed temperatures. *)
Lemma out_r_clear_glass (t_kelvin : R) :
  255 <= t_kelvin <= 259 ->
  1 / 35 <= 1 / out_h 0.84 6.7 t_kelvin <= 1 / 30.
Proof.
  intros [Hl Hu]. apply reciprocal_bounds; [lra |].
  unfold out_h.
  assert (H1 : 255 ^ 3 <= t_kelvin ^ 3) by (apply pow_incr; lra).
  assert (H2 : t_kelvin ^ 3 <= 259 ^ 3) by (apply pow_incr; lra).
  lra.
Qed.

Lemma share_below (a s c : R) : 0 < s -> a < c * s -> a / s < c.
Proof.
  intros Hs H. apply Rmult_lt_reg_r with s; [exact Hs |].
  unfold Rdiv; rewrite Rmult_assoc, Rinv_l; lra.
Qed.

Lemma share_above (a s c : R) : 0 < s -> c * s <= a -> c <= a / s.
Proof.
  intros Hs H. apply Rmult_le_reg_r with s; [exact Hs |].
  unfold Rdiv; rewrite Rmult_assoc, Rinv_l; lra.
Qed.

(** ** A solve that never returns *)

Section Restless.

Variable _air : air_model.
Hypothesis Hair : air_positive _air.

Let emissivities : list emiss_entry :=
  [EmissNone; EmissPair 0.84 0.84; EmissNone].

Lemma restless_gap_nonzero (delta_t e_0 e_1 height angle avg pressure : R) :
  gas_u_value_at_angle restless_gap delta_t e_0 e_1 height angle avg pressure
  <> 0.
Proof. simpl. destruct (Rlt_dec delta_t 38.5); lra. Qed.

(** One pass over the restless window flips the gap between 1 and 100 and
    keeps the films where they were. *)
Lemma restless_step (r0 x r4 : R) :
  1 / 35 <= r0 <= 1 / 30 -> x = 1 \/ x = 100 -> 0 < r4 <= 0.32 ->
  exists r_in,
    refinement_step _air restless_window emissivities (-18) 21 1.0 90.0
      101325 [r0; 0.005715; x; 0.005715; r4]
    = Ok [r0; 0.005715; 101 - x; 0.005715; r_in]
    /\ 0 < r_in <= 0.32.
Proof.
  intros H0 Hx H4.
  assert (ES : sum [r0; 0.005715; x; 0.005715; r4]
               = r0 + 0.005715 + x + 0.005715 + r4)
    by (unfold sum; simpl; lra).
  destruct (refinement_step_double _air Hair 0.005715 0.84 0.84 0.005715
              0.84 0.84 restless_gap ltac:(lra) r0 0.005715 x 0.005715 r4)
    as (avg & r_in & E & Hpos & Hb); try lra.
  { intros; apply restless_gap_nonzero. }
  exists r_in. split; [| lra].
  unfold restless_window, clear_glass, emissivities. rewrite E.
  do 3 f_equal. rewrite ES. simpl.
  destruct Hx as [-> | ->].
  - destruct (Rlt_dec (39 * (1 / (r0 + 0.005715 + 1 + 0.005715 + r4))) 38.5)
      as [_ | N]; [f_equal; lra |].
    exfalso; apply N.
    replace (39 * (1 / (r0 + 0.005715 + 1 + 0.005715 + r4)))
      with (39 / (r0 + 0.005715 + 1 + 0.005715 + r4)) by (field; lra).
    apply share_below; lra.
  - destruct (Rlt_dec (39 * (100 / (r0 + 0.005715 + 100 + 0.005715 + r4)))
                38.5) as [L | _]; [| f_equal; lra].
    exfalso.
    assert (38.5 <= 3900 / (r0 + 0.005715 + 100 + 0.005715 + r4))
      by (apply share_above; lra).
    replace (39 * (100 / (r0 + 0.005715 + 100 + 0.005715 + r4)))
      with (3900 / (r0 + 0.005715 + 100 + 0.005715 + r4)) in L
      by (field; lra).
    lra.
Qed.

(** From any state of that shape the loop spends whatever fuel it is
    given. *)
Lemma restless_loop_diverges (fuel : nat) :
  forall r_last r0 x r4,
    1 / 35 <= r0 <= 1 / 30 -> x = 1 \/ x = 100 -> 0 < r4 <= 0.32 ->
    Rabs (sum [r0; 0.005715; x; 0.005715; r4] - r_last) > 0.001 ->
    WindowConstruction.solve_loop _air restless_window emissivities fuel
      r_last [r0; 0.005715; x; 0.005715; r4]
    = OutOfFuel.
Proof.
  induction fuel as [| fuel IH]; intros r_last r0 x r4 H0 Hx H4 Hd.
  - simpl.
    destruct (Rgt_dec (Rabs (sum [r0; 0.005715; x; 0.005715; r4] - r_last))
                0.001); [reflexivity | contradiction].
  - rewrite solve_loop_unfold.
    destruct (Rgt_dec (Rabs (sum [r0; 0.005715; x; 0.005715; r4] - r_last))
                0.001) as [_ | N]; [| contradiction].
    destruct (restless_step r0 x r4 H0 Hx H4) as (r_in & -> & Hin).
    cbn [bind]. apply IH; try assumption.
    + destruct Hx as [-> | ->]; [right | left]; lra.
    + unfold sum; simpl.
      unfold Rabs; destruct (Rcase_abs _); destruct Hx as [-> | ->]; lra.
Qed.

Lemma restless_r_factor_diverges (fuel : nat) :
  WindowConstruction.r_factor _air restless_window fuel = OutOfFuel.
Proof.
  unfold WindowConstruction.r_factor.
  change (WindowConstruction.gap_count restless_window) with 1%nat.
  cbv iota beta. change (1 =? 0)%nat with false. cbv iota.
  rewrite layered_r_value_initial_seed by discriminate.
  unfold restless_window, clear_glass.
  rewrite seed_double.
  - cbn [bind]. unfold WindowConstruction._solve_r_values.
    change (gas_u_value restless_gap (15 / INR 1) 0.84 0.84 273.15) with 1.
    replace (1 / 1) with 1 by lra.
    rewrite (restless_loop_diverges fuel); [reflexivity | | | |].
    + apply out_r_clear_glass; lra.
    + now left.
    + rewrite in_h_simple_glass; lra.
    + assert (Hr := out_r_clear_glass (273.15 - 15) ltac:(lra)).
      unfold sum; simpl. rewrite in_h_simple_glass.
      unfold Rabs; destruct (Rcase_abs _); lra.
  - apply out_h_glass_nonzero; lra.
  - simpl; lra.
  - rewrite in_h_simple_glass; lra.
Qed.

End Restless.

Lemma solve_loop_stop (_air : air_model) (self : WindowConstruction.t)
    (emissivities : list emiss_entry) (fuel : nat) (r_last : R)
    (r_vals : list R) :
  Rabs (sum r_vals - r_last) <= 0.001 ->
  WindowConstruction.solve_loop _air self emissivities fuel r_last r_vals
  = Ok r_vals.
Proof.
  intros Hd. destruct fuel; simpl;
    destruct (Rgt_dec (Rabs (sum r_vals - r_last)) 0.001);
    try reflexivity; lra.
Qed.

Lemma profile_loop_stop (_air : air_model) (self : WindowConstruction.t)
    (T_out T_in height angle pressure : R)
    (emissivities : list emiss_entry) (fuel : nat) (r_last : R)
    (r_values : list R) :
  Rabs (sum r_values - r_last) <= 0.001 ->
  WindowConstruction.profile_loop _air self T_out T_in height angle pressure
    emissivities fuel r_last r_values
  = Ok r_values.
Proof.
  intros Hd. destruct fuel; simpl;
    destruct (Rgt_dec (Rabs (sum r_values - r_last)) 0.001);
    try reflexivity; lra.
Qed.

(** C6.  Each of the two loops takes another refinement step when the sum of
    the current resistances is more than 0.001 away from the previous sum,
    however many steps it has taken, and returns the current resistances
    when it is not; a returned sum is therefore within 0.001 of the sum
    before it (of the initial 0 if no step was taken); and nothing bounds the
    number of steps: on the restless window, which the validator accepts,
    [r_factor] runs through any amount of fuel. *)
Theorem iterative_solve_stopping_rule (_air : air_model) :
  air_positive _air ->
  (forall self emissivities fuel r_last r_vals,
     (Rabs (sum r_vals - r_last) > 0.001 ->
      WindowConstruction.solve_loop _air self emissivities (S fuel) r_last
        r_vals
      = (do r_vals' <- refinement_step _air self emissivities (-18) 21
                         1.0 90.0 101325 r_vals ;
         WindowConstruction.solve_loop _air self emissivities fuel
           (sum r_vals) r_vals'))
     /\ (Rabs (sum r_vals - r_last) <= 0.001 ->
         WindowConstruction.solve_loop _air self emissivities fuel r_last
           r_vals
         = Ok r_vals))
  /\ (forall self T_out T_in height angle pressure emissivities fuel r_last
             r_values,
        (Rabs (sum r_values - r_last) > 0.001 ->
         WindowConstruction.profile_loop _air self T_out T_in height angle
           pressure emissivities (S fuel) r_last r_values
         = (do r_values' <- refinement_step _air self emissivities T_out
                              T_in height angle pressure r_values ;
            WindowConstruction.profile_loop _air self T_out T_in height
              angle pressure emissivities fuel (sum r_values) r_values'))
        /\ (Rabs (sum r_values - r_last) <= 0.001 ->
            WindowConstruction.profile_loop _air self T_out T_in height
              angle pressure emissivities fuel r_last r_values
            = Ok r_values))
  /\ (forall self emissivities fuel r_vals result,
        WindowConstruction._solve_r_values _air self fuel r_vals
          emissivities = Ok result ->
        (result = r_vals /\ Rabs (sum r_vals - 0) <= 0.001)
        \/ exists prev,
             refinement_step _air self emissivities (-18) 21 1.0 90.0
               101325 prev = Ok result
             /\ Rabs (sum result - sum prev) <= 0.001)
  /\ (forall self T_out T_in height angle pressure emissivities fuel
             r_values result,
        WindowConstruction.profile_loop _air self T_out T_in height angle
          pressure emissivities fuel 0 r_values = Ok result ->
        (result = r_values /\ Rabs (sum r_values - 0) <= 0.001)
        \/ exists prev,
             refinement_step _air self emissivities T_out T_in height
               angle pressure prev = Ok result
             /\ Rabs (sum result - sum prev) <= 0.001)
  /\ WindowConstruction.__init__ [clear_glass; Gas restless_gap; clear_glass]
     = Ok restless_window
  /\ (forall fuel,
        WindowConstruction.r_factor _air restless_window fuel = OutOfFuel).
Proof.
  intros Hair.
  split; [| split; [| split; [| split; [| split]]]].
  - intros self em fuel r_last r_vals; split.
    + intros Hd. rewrite solve_loop_unfold.
      destruct (Rgt_dec (Rabs (sum r_vals - r_last)) 0.001);
        [reflexivity | contradiction].
    + apply solve_loop_stop.
  - intros self T_out T_in height angle pressure em fuel r_last r_values.
    split.
    + intros Hd. rewrite profile_loop_unfold.
      destruct (Rgt_dec (Rabs (sum r_values - r_last)) 0.001);
        [reflexivity | contradiction].
    + apply profile_loop_stop.
  - intros self em fuel r_vals result H.
    exact (solve_loop_returns _ _ _ _ _ _ _ H).
  - intros self T_out T_in height angle pressure em fuel r_values result H.
    exact (profile_loop_returns _ _ _ _ _ _ _ _ _ _ _ _ H).
  - reflexivity.
  - intros fuel. exact (restless_r_factor_diverges _air Hair fuel).
Qed.

Lemma generic_air_positive : air_positive generic_air.
Proof. intros t Ht; simpl; split; lra. Qed.

Lemma iterative_solve_stopping_rule_witness :
  air_positive generic_air
  /\ WindowConstruction.r_factor generic_air restless_window 1000 = OutOfFuel.
Proof.
  split; [exact generic_air_positive |].
  exact (proj2 (proj2 (proj2 (proj2 (proj2
           (iterative_solve_stopping_rule generic_air generic_air_positive)))))
           1000%nat).
Defined.

(** ** [r_factor] against [temperature_profile] *)

Lemma flip_angle_default : flip_angle 90.0 (-18) 21 = 90.0.
Proof. apply flip_angle_kept; right; lra. Qed.

(** [r_factor] with at least one gap: the loop of [_solve_r_values] started
    from the seed of drop 15 and mean 273.15. *)
Lemma r_factor_layered (_air : air_model) (self : WindowConstruction.t)
    (fuel : nat) :
  WindowConstruction.gap_count self <> 0%nat ->
  WindowConstruction.r_factor _air self fuel
  = (do '(seed, emissivities) <-
       seed_from self (15 / INR (WindowConstruction.gap_count self))
         273.15 (273.15 - 15) 6.7 ;
     do r_vals <- WindowConstruction.solve_loop _air self emissivities fuel
                    0 seed ;
     Ok (sum r_vals)).
Proof.
  intros Hg. unfold WindowConstruction.r_factor.
  apply Nat.eqb_neq in Hg as Hg'; rewrite Hg'.
  rewrite layered_r_value_initial_seed by exact Hg.
  reflexivity.
Qed.

(** [temperature_profile()] with at least one gap: the same loop started
    from the seed of drop 19.5 and mean 274.65. *)
Lemma default_profile_layered (_air : air_model)
    (self : WindowConstruction.t) (fuel : nat) :
  WindowConstruction.gap_count self <> 0%nat ->
  WindowConstruction.temperature_profile _air self fuel
    (-18) 21 6.7 1.0 90.0 101325
  = (do '(seed, emissivities) <-
       seed_from self (19.5 / INR (WindowConstruction.gap_count self))
         274.65 (274.65 - 19.5) 6.7 ;
     do r_values <- WindowConstruction.solve_loop _air self emissivities
                      fuel 0 seed ;
     do temperatures <- _temperature_profile_from_r_values r_values
                          (-18) 21 ;
     Ok (temperatures, r_values)).
Proof.
  intros Hg. unfold WindowConstruction.temperature_profile.
  rewrite flip_angle_default.
  unfold WindowConstruction.temperature_profile_body.
  apply Nat.eqb_neq in Hg as Hg'; rewrite Hg'.
  rewrite layered_r_value_initial_seed by exact Hg.
  rewrite guess_default, avg_guess_default.
  destruct (seed_from self
              (19.5 / INR (WindowConstruction.gap_count self)) 274.65
              (274.65 - 19.5) 6.7)
    as [[seed em] | e |]; simpl; try reflexivity.
  now rewrite profile_loop_default.
Qed.

(** C1, as the code has it.  With at least one gap, [r_factor] is the sum of the
    vector that the loop of [_solve_r_values] returns from the seed of drop
    15 and mean 273.15, and [temperature_profile] under the default
    conditions returns what the very same loop returns from the seed of drop
    19.5 and mean 274.65, together with its temperature profile.  Each of the
    two vectors has passed the 0.001 test against its own predecessor;
    nothing ties the two sums to each other. *)
Theorem r_factor_and_default_profile (_air : air_model)
    (self : WindowConstruction.t) (fuel : nat) :
  WindowConstruction.gap_count self <> 0%nat ->
  let n := INR (WindowConstruction.gap_count self) in
  WindowConstruction.r_factor _air self fuel
  = (do '(seed, emissivities) <-
       seed_from self (15 / n) 273.15 (273.15 - 15) 6.7 ;
     do r_vals <- WindowConstruction.solve_loop _air self emissivities fuel
                    0 seed ;
     Ok (sum r_vals))
  /\ WindowConstruction.temperature_profile _air self fuel
       (-18) 21 6.7 1.0 90.0 101325
     = (do '(seed, emissivities) <-
          seed_from self (19.5 / n) 274.65 (274.65 - 19.5) 6.7 ;
        do r_values <- WindowConstruction.solve_loop _air self emissivities
                         fuel 0 seed ;
        do temperatures <- _temperature_profile_from_r_values r_values
                             (-18) 21 ;
        Ok (temperatures, r_values))
  /\ (forall rf,
        WindowConstruction.r_factor _air self fuel = Ok rf ->
        exists r_vals, rf = sum r_vals /\ settled _air self r_vals)
  /\ (forall temperatures r_values,
        WindowConstruction.temperature_profile _air self fuel
          (-18) 21 6.7 1.0 90.0 101325 = Ok (temperatures, r_values) ->
        settled _air self r_values
        /\ _temperature_profile_from_r_values r_values (-18) 21
           = Ok temperatures).
Proof.
  intros Hg n.
  split; [exact (r_factor_layered _air self fuel Hg) |].
  split; [exact (default_profile_layered _air self fuel Hg) |].
  split.
  - intros rf H. rewrite (r_factor_layered _air self fuel Hg) in H.
    apply bind_Ok in H as ([seed em] & _ & H).
    apply bind_Ok in H as (r_vals & Hloop & H).
    injection H as <-. exists r_vals; split; [reflexivity |].
    destruct (solve_loop_returns _ _ _ _ _ _ _ Hloop) as [[-> Hd] | Hp].
    + left; exact Hd.
    + right; exists em; exact Hp.
  - intros temperatures r_values H.
    rewrite (default_profile_layered _air self fuel Hg) in H.
    apply bind_Ok in H as ([seed em] & _ & H).
    apply bind_Ok in H as (r_vals & Hloop & H).
    apply bind_Ok in H as (temps & Htemps & H).
    injection H as <- <-. split; [| exact Htemps].
    destruct (solve_loop_returns _ _ _ _ _ _ _ Hloop) as [[-> Hd] | Hp].
    + left; exact Hd.
    + right; exists em; exact Hp.
Qed.

Lemma r_factor_and_default_profile_witness :
  WindowConstruction.gap_count latching_window <> 0%nat
  /\ WindowConstruction.r_factor generic_air latching_window 3
     = (do '(seed, emissivities) <-
          seed_from latching_window
            (15 / INR (WindowConstruction.gap_count latching_window))
            273.15 (273.15 - 15) 6.7 ;
        do r_vals <- WindowConstruction.solve_loop generic_air
                       latching_window emissivities 3 0 seed ;
        Ok (sum r_vals)).
Proof.
  assert (H : WindowConstruction.gap_count latching_window <> 0%nat)
    by discriminate.
  split; [exact H |].
  exact (proj1 (r_factor_and_default_profile generic_air latching_window 3 H)).
Defined.

Section Latching.

Variable _air : air_model.
Hypothesis Hair : air_positive _air.

Let emissivities : list emiss_entry :=
  [EmissNone; EmissPair 0.84 0.84; EmissNone].

Lemma latching_gap_nonzero (delta_t e_0 e_1 height angle avg pressure : R) :
  gas_u_value_at_angle latching_gap delta_t e_0 e_1 height angle avg pressure
  <> 0.
Proof. simpl. destruct (Rlt_dec delta_t 17); lra. Qed.

(** One pass over the latching window leaves the gap where it is, at 1 or
    at 10, and only moves the small indoor film. *)
Lemma latching_step (r0 x r4 : R) :
  1 / 35 <= r0 <= 1 / 30 -> x = 1 \/ x = 10 -> 0 < r4 <= 0.0003 ->
  exists r_in,
    refinement_step _air latching_window emissivities (-18) 21 1.0 90.0
      101325 [r0; 1; x; 1; r4]
    = Ok [r0; 1; x; 1; r_in]
    /\ 0 < r_in <= 0.0003.
Proof.
  intros H0 Hx H4.
  assert (ES : sum [r0; 1; x; 1; r4] = r0 + 1 + x + 1 + r4)
    by (unfold sum; simpl; lra).
  destruct (refinement_step_double _air Hair 1 0.84 0.84 1 0.84 1000
              latching_gap ltac:(lra) r0 1 x 1 r4)
    as (avg & r_in & E & Hpos & Hb); try lra.
  { intros; apply latching_gap_nonzero. }
  exists r_in. split; [| lra].
  unfold latching_window, emissivities. rewrite E.
  do 3 f_equal. rewrite ES. simpl.
  destruct Hx as [-> | ->].
  - destruct (Rlt_dec (39 * (1 / (r0 + 1 + 1 + 1 + r4))) 17)
      as [_ | N]; [f_equal; lra |].
    exfalso; apply N.
    replace (39 * (1 / (r0 + 1 + 1 + 1 + r4)))
      with (39 / (r0 + 1 + 1 + 1 + r4)) by (field; lra).
    apply share_below; lra.
  - destruct (Rlt_dec (39 * (10 / (r0 + 1 + 10 + 1 + r4))) 17)
      as [L | _]; [| f_equal; lra].
    exfalso.
    assert (17 <= 390 / (r0 + 1 + 10 + 1 + r4))
      by (apply share_above; lra).
    replace (39 * (10 / (r0 + 1 + 10 + 1 + r4)))
      with (390 / (r0 + 1 + 10 + 1 + r4)) in L by (field; lra).
    lra.
Qed.

(** From a seed of that shape the loop takes one step and returns. *)
Lemma latching_solve (fuel : nat) (r0 x r4 : R) :
  1 / 35 <= r0 <= 1 / 30 -> x = 1 \/ x = 10 -> 0 < r4 <= 0.0003 ->
  exists r_in,
    WindowConstruction.solve_loop _air latching_window emissivities (S fuel)
      0 [r0; 1; x; 1; r4]
    = Ok [r0; 1; x; 1; r_in]
    /\ 0 < r_in <= 0.0003.
Proof.
  intros H0 Hx H4.
  assert (ES : forall y, sum [r0; 1; x; 1; y] = r0 + 1 + x + 1 + y)
    by (intros y; unfold sum; simpl; lra).
  rewrite solve_loop_unfold.
  destruct (Rgt_dec (Rabs (sum [r0; 1; x; 1; r4] - 0)) 0.001) as [_ | N].
  2:{ exfalso; apply N. rewrite ES.
      unfold Rabs; destruct (Rcase_abs _); lra. }
  destruct (latching_step r0 x r4 H0 Hx H4) as (r_in & -> & Hin).
  cbn [bind]. exists r_in; split; [| exact Hin].
  assert (Hstop : ~ Rabs (sum [r0; 1; x; 1; r_in] - sum [r0; 1; x; 1; r4])
                    > 0.001).
  { rewrite !ES. unfold Rabs; destruct (Rcase_abs _); lra. }
  destruct fuel; simpl;
    destruct (Rgt_dec
                (Rabs (sum [r0; 1; x; 1; r_in] - sum [r0; 1; x; 1; r4]))
                0.001); try contradiction; reflexivity.
Qed.

Lemma in_r_mirror : 0 < 1 / in_h_simple 1000 <= 0.0003.
Proof.
  assert (H : 5000 <= in_h_simple 1000 <= 6000)
    by (unfold in_h_simple; lra).
  destruct (reciprocal_bounds 5000 6000 _ ltac:(lra) H) as [H1 H2]. lra.
Qed.

(** [r_factor] settles with the gap conducting: a total near 3. *)
Lemma latching_r_factor (fuel : nat) :
  exists rf,
    WindowConstruction.r_factor _air latching_window (S fuel) = Ok rf
    /\ rf <= 3.04.
Proof.
  rewrite (r_factor_layered _air latching_window (S fuel)
             ltac:(discriminate)).
  change (WindowConstruction.gap_count latching_window) with 1%nat.
  replace (INR 1) with 1 by (simpl; lra).
  unfold latching_window. rewrite seed_double.
  - cbn [bind].
    replace (gas_u_value latching_gap (15 / 1) 0.84 0.84 273.15) with 1
      by (simpl; destruct (Rlt_dec (15 / 1) 17); lra).
    replace (1 / 1) with 1 by lra.
    destruct (latching_solve fuel (1 / out_h 0.84 6.7 (273.15 - 15)) 1
                (1 / in_h_simple 1000)) as (r_in & E & Hin).
    + apply out_r_clear_glass; lra.
    + now left.
    + exact in_r_mirror.
    + unfold latching_window, emissivities in E. rewrite E. cbn [bind].
      eexists; split; [reflexivity |].
      assert (Hr := out_r_clear_glass (273.15 - 15) ltac:(lra)).
      unfold sum; simpl. lra.
  - apply out_h_glass_nonzero; lra.
  - simpl; destruct (Rlt_dec (15 / 1) 17); lra.
  - unfold in_h_simple; lra.
Qed.

(** [temperature_profile] settles with the gap insulating: a total near
    12. *)
Lemma latching_profile (fuel : nat) :
  exists temperatures r_values,
    WindowConstruction.temperature_profile _air latching_window (S fuel)
      (-18) 21 6.7 1.0 90.0 101325 = Ok (temperatures, r_values)
    /\ 12 <= sum r_values.
Proof.
  rewrite (default_profile_layered _air latching_window (S fuel)
             ltac:(discriminate)).
  change (WindowConstruction.gap_count latching_window) with 1%nat.
  replace (INR 1) with 1 by (simpl; lra).
  unfold latching_window. rewrite seed_double.
  - cbn [bind].
    replace (gas_u_value latching_gap (19.5 / 1) 0.84 0.84 274.65)
      with (1 / 10)
      by (simpl; destruct (Rlt_dec (19.5 / 1) 17); lra).
    replace (1 / (1 / 10)) with 10 by lra.
    destruct (latching_solve fuel (1 / out_h 0.84 6.7 (274.65 - 19.5)) 10
                (1 / in_h_simple 1000)) as (r_in & E & Hin).
    + apply out_r_clear_glass; lra.
    + now right.
    + exact in_r_mirror.
    + unfold latching_window, emissivities in E. rewrite E. cbn [bind].
      assert (Hr := out_r_clear_glass (274.65 - 19.5) ltac:(lra)).
      assert (ES : sum [1 / out_h 0.84 6.7 (274.65 - 19.5); 1; 10; 1; r_in]
                   = 1 / out_h 0.84 6.7 (274.65 - 19.5) + 1 + 10 + 1 + r_in)
        by (unfold sum; simpl; lra).
      rewrite temperature_profile_accumulate by lra.
      cbn [bind]. do 2 eexists; split; [reflexivity | lra].
  - apply out_h_glass_nonzero; lra.
  - simpl; destruct (Rlt_dec (19.5 / 1) 17); lra.
  - unfold in_h_simple; lra.
Qed.

End Latching.

(** C1 as stated fails.  On the latching window, which the validator
    accepts, [r_factor] returns a total below 3.04 while the resistances
    that [temperature_profile()] returns under the default conditions sum to
    at least 12. *)
Lemma r_factor_and_profile_disagree :
  WindowConstruction.__init__
    [Glazing 1 0.84 0.84; Gas latching_gap; Glazing 1 0.84 1000]
  = Ok latching_window
  /\ exists rf temperatures r_values,
       WindowConstruction.r_factor generic_air latching_window 3 = Ok rf
       /\ WindowConstruction.temperature_profile generic_air latching_window
            3 (-18) 21 6.7 1.0 90.0 101325 = Ok (temperatures, r_values)
       /\ Rabs (sum r_values - rf) > 0.001.
Proof.
  split; [reflexivity |].
  destruct (latching_r_factor generic_air generic_air_positive 2)
    as (rf & Hrf & Hle).
  destruct (latching_profile generic_air generic_air_positive 2)
    as (temperatures & r_values & Hp & Hge).
  exists rf, temperatures, r_values.
  split; [exact Hrf | split; [exact Hp |]].
  unfold Rabs; destruct (Rcase_abs _); lra.
Qed.

(** ** Lookups in the seed build, apart from the lone shade *)

Lemma pydiv_Raise (a b : R) (x : exn) :
  pydiv a b = Raise x -> x = ZeroDivisionError.
Proof.
  unfold pydiv. destruct (Req_dec_T b 0); [| discriminate].
  now intros [= <-].
Qed.

Lemma validate_loop_window (n : nat) (mats : list material) :
  forall (i : nat) (gl hs b : bool),
    WindowConstruction.validate_loop n i mats gl hs = Ok b ->
    Forall (fun m => is_window_base m = true) mats.
Proof.
  induction mats as [| m mats IH]; intros i gl hs b H; [constructor |].
  simpl in H.
  destruct (is_window_base m) eqn:Hw; [| discriminate].
  constructor; [exact Hw |].
  simpl in H.
  destruct (is_simple_glaz_sys m).
  { apply bind_Ok in H as (u & _ & H); eauto. }
  destruct (is_gas_base m).
  { apply bind_Ok in H as (u & _ & H); eauto. }
  destruct (is_glazing_base m).
  { apply bind_Ok in H as (u & _ & H); eauto. }
  apply bind_Ok in H as (u & _ & H).
  apply bind_Ok in H as (u' & _ & H); eauto.
Qed.

Lemma getitem_middle {A : Type} (pre : list A) (a : A) (post : list A) :
  getitem (pre ++ a :: post) (Z.of_nat (length pre)) = Ok a.
Proof.
  apply getitem_nat. rewrite nth_error_app2 by lia.
  now replace (length pre - length pre)%nat with 0%nat by lia.
Qed.

Lemma getitem_next {A : Type} (pre : list A) (m a : A) (post : list A) :
  getitem (pre ++ m :: a :: post) (Z.of_nat (length pre) + 1) = Ok a.
Proof.
  replace (Z.of_nat (length pre) + 1)%Z with (Z.of_nat (length (pre ++ [m])))
    by (rewrite length_app; simpl; lia).
  replace (pre ++ m :: a :: post) with ((pre ++ [m]) ++ a :: post)
    by (now rewrite <- app_assoc).
  apply getitem_middle.
Qed.

Lemma getitem_prev {A : Type} (pre : list A) (a m : A) (post : list A) :
  getitem ((pre ++ [a]) ++ m :: post) (Z.of_nat (length (pre ++ [a])) - 1)
  = Ok a.
Proof.
  replace (Z.of_nat (length (pre ++ [a])) - 1)%Z with (Z.of_nat (length pre))
    by (rewrite length_app; simpl; lia).
  rewrite <- app_assoc. apply getitem_middle.
Qed.

Section SeedLookups.

Variable mats : list material.
Hypothesis Hfault : ~ structure_fault mats.
Hypothesis Hwindow : Forall (fun m => is_window_base m = true) mats.

(** In a list without structural fault, what follows a gas or a shade is a
    pane. *)
Lemma pane_follows (pre : list material) (m next : material)
    (post : list material) :
  mats = pre ++ m :: next :: post ->
  is_gas_base m = true \/ is_shade_base m = true ->
  exists r e eb, next = Glazing r e eb.
Proof.
  intros E Hm.
  assert (Hn : is_window_base next = true).
  { rewrite Forall_forall in Hwindow. apply Hwindow. rewrite E.
    apply in_or_app; right; right; now left. }
  assert (Hp : is_pane m = false) by (destruct m; destruct Hm; easy).
  destruct next as [r a | r e eb | r | g | s].
  - discriminate.
  - eauto.
  - exfalso; apply Hfault.
    apply (simple_glazing_with_others mats (pre ++ [m]) r post).
    + now rewrite <- app_assoc.
    + destruct pre; discriminate.
  - exfalso; apply Hfault.
    exact (gas_after_non_glazing mats pre m g post E Hp).
  - exfalso; apply Hfault.
    destruct m as [? ? | ? ? ? | ? | g | s1];
      try (destruct Hm; discriminate).
    + exact (shade_after_non_glazing mats pre (Gas g) s post E eq_refl).
    + exact (second_shade mats pre s1 [] s post E).
Qed.

(** And what precedes a gas, or a shade that is not first, is a pane. *)
Lemma pane_precedes (pre : list material) (prev m : material)
    (post : list material) :
  mats = (pre ++ [prev]) ++ m :: post ->
  is_gas_base m = true \/ is_shade_base m = true ->
  exists r e eb, prev = Glazing r e eb.
Proof.
  intros E Hm. rewrite <- app_assoc in E; simpl in E.
  destruct (is_pane prev) eqn:Hp.
  - destruct prev; try discriminate; eauto.
  - exfalso; apply Hfault.
    destruct m as [? ? | ? ? ? | ? | g | s];
      try (destruct Hm; discriminate).
    + exact (gas_after_non_glazing mats pre prev g post E Hp).
    + exact (shade_after_non_glazing mats pre prev s post E Hp).
Qed.

End SeedLookups.

Lemma bind_Raise {A B : Type} (m : res A) (f : A -> res B) (x : exn) :
  bind m f = Raise x ->
  m = Raise x \/ exists a, m = Ok a /\ f a = Raise x.
Proof.
  destruct m as [a | e |]; simpl; intros H.
  - right; eauto.
  - left; now injection H as ->.
  - discriminate.
Qed.

Lemma initial_loop_cons (self : WindowConstruction.t) (delta_t avg : R)
    (i : nat) (mat : material) (rest : list material) (r_vals : list R)
    (emiss : list emiss_entry) :
  WindowConstruction.initial_loop self delta_t avg i (mat :: rest) r_vals
    emiss
  = if is_glazing_base mat then
      do r <- get_r_value mat ;
      WindowConstruction.initial_loop self delta_t avg (S i) rest
        (r_vals ++ [r]) (emiss ++ [EmissNone])
    else if is_gas_base mat then
      do next <- getitem (WindowConstruction.materials self)
                   (Z.of_nat i + 1) ;
      do e_front <- get_emissivity next ;
      do e_back <- emissivity_back_or_front
                     (getitem (WindowConstruction.materials self)
                        (Z.of_nat i - 1)) ;
      do g <- gas_of mat ;
      do r <- pydiv 1 (gas_u_value g delta_t e_back e_front avg) ;
      WindowConstruction.initial_loop self delta_t avg (S i) rest
        (r_vals ++ [r]) (emiss ++ [EmissPair e_back e_front])
    else if (i =? 0)%nat then
      do next <- getitem (WindowConstruction.materials self)
                   (Z.of_nat i + 1) ;
      do e_back <- get_emissivity next ;
      do s <- shade_of mat ;
      WindowConstruction.initial_loop self delta_t avg (S i) rest
        (r_vals ++ [shade_r_value_exterior s delta_t e_back
                      None None avg None])
        (emiss ++ [EmissOne e_back])
    else if (Z.of_nat i
             =? Z.of_nat (length (WindowConstruction.materials self)) - 1)%Z
    then
      do prev <- getitem (WindowConstruction.materials self)
                   (Z.of_nat i - 1) ;
      do e_front <- get_emissivity_back prev ;
      do s <- shade_of mat ;
      WindowConstruction.initial_loop self delta_t avg (S i) rest
        (r_vals ++ [shade_r_value_interior s delta_t e_front
                      None None avg None])
        (emiss ++ [EmissOne e_front])
    else
      do next <- getitem (WindowConstruction.materials self)
                   (Z.of_nat i + 1) ;
      do e_back <- get_emissivity next ;
      do prev <- getitem (WindowConstruction.materials self)
                   (Z.of_nat i - 1) ;
      do e_front <- get_emissivity_back prev ;
      do s <- shade_of mat ;
      WindowConstruction.initial_loop self delta_t avg (S i) rest
        (r_vals ++ [shade_r_value_between s delta_t e_back e_front
                      None None avg None])
        (emiss ++ [EmissPair e_back e_front]).
Proof. reflexivity. Qed.

(** The loop of the seed build on a well-layered list that is not a lone
    shade: every [materials[i + 1]] and [materials[i - 1]] finds its layer
    and every attribute read finds its attribute; only a division can
    raise. *)
Lemma initial_loop_lookups (self : WindowConstruction.t) (delta_t avg : R) :
  ~ structure_fault (WindowConstruction.materials self) ->
  Forall (fun m => is_window_base m = true)
    (WindowConstruction.materials self) ->
  (forall s, WindowConstruction.materials self <> [Shade s]) ->
  forall (post pre : list material) (r_vals : list R)
         (emiss : list emiss_entry) (x : exn),
    WindowConstruction.materials self = pre ++ post ->
    WindowConstruction.initial_loop self delta_t avg (length pre) post
      r_vals emiss = Raise x ->
    x = ZeroDivisionError.
Proof.
  intros Hfault Hwindow Hlone.
  induction post as [| m post IH]; intros pre r_vals emiss x E H.
  - discriminate.
  - assert (Enext : WindowConstruction.materials self = (pre ++ [m]) ++ post)
      by (now rewrite <- app_assoc).
    assert (Elen : S (length pre) = length (pre ++ [m]))
      by (rewrite length_app; simpl; lia).
    destruct m as [r a | r e eb | r | g | s].
    + rewrite Forall_forall in Hwindow.
      specialize (Hwindow (OpaqueMaterial r a)).
      rewrite E in Hwindow. discriminate Hwindow.
      apply in_or_app; right; now left.
    + rewrite initial_loop_cons in H.
      cbn [is_glazing_base get_r_value bind] in H.
      rewrite Elen in H. exact (IH _ _ _ _ Enext H).
    + rewrite initial_loop_cons in H.
      cbn [is_glazing_base get_r_value bind] in H.
      rewrite Elen in H. exact (IH _ _ _ _ Enext H).
    + destruct post as [| next post'].
      { exfalso; apply Hfault. exact (gas_last _ g pre E). }
      destruct pre as [| p0 pre0] using rev_ind.
      { exfalso; apply Hfault. exact (gas_first _ g _ E). }
      clear IHpre0.
      destruct (pane_follows _ Hfault Hwindow _ _ _ _ E (or_introl eq_refl))
        as (rn & en & ebn & ->).
      destruct (pane_precedes _ Hfault _ _ _ _ E (or_introl eq_refl))
        as (rp & ep & ebp & ->).
      rewrite initial_loop_cons in H.
      cbn [is_glazing_base is_gas_base] in H.
      rewrite E in H.
      rewrite getitem_next, getitem_prev in H.
      cbn [bind get_emissivity emissivity_back_or_front get_emissivity_back
           gas_of] in H.
      apply bind_Raise in H as [H | (q & _ & H)];
        [exact (pydiv_Raise _ _ _ H) |].
      rewrite Elen in H. exact (IH _ _ _ _ Enext H).
    + destruct pre as [| p0 pre0] using rev_ind.
      * destruct post as [| next post'].
        { elim (Hlone s). exact E. }
        destruct (pane_follows _ Hfault Hwindow [] _ _ _ E
                    (or_intror eq_refl)) as (rn & en & ebn & ->).
        rewrite initial_loop_cons in H.
        cbn [is_glazing_base is_gas_base length Nat.eqb] in H.
        rewrite E in H.
        rewrite (getitem_next [] (Shade s)) in H.
        cbn [bind get_emissivity shade_of] in H.
        exact (IH [Shade s] _ _ _ E H).
      * clear IHpre0.
        destruct (pane_precedes _ Hfault _ _ _ _ E (or_intror eq_refl))
          as (rp & ep & ebp & ->).
        rewrite initial_loop_cons in H.
        cbn [is_glazing_base is_gas_base] in H.
        replace (length (pre0 ++ [Glazing rp ep ebp]) =? 0)%nat with false
          in H
          by (symmetry; apply Nat.eqb_neq; rewrite length_app; simpl; lia).
        destruct post as [| next post'].
        -- replace (Z.of_nat (length (pre0 ++ [Glazing rp ep ebp]))
                    =? Z.of_nat (length (WindowConstruction.materials self))
                       - 1)%Z with true in H
             by (symmetry; apply Z.eqb_eq; rewrite E;
                 repeat (rewrite length_app; simpl); lia).
           rewrite E in H.
           rewrite getitem_prev in H.
           cbn [bind get_emissivity_back shade_of] in H.
           rewrite Elen in H. exact (IH _ _ _ _ Enext H).
        -- destruct (pane_follows _ Hfault Hwindow _ _ _ _ E
                       (or_intror eq_refl)) as (rn & en & ebn & ->).
           replace (Z.of_nat (length (pre0 ++ [Glazing rp ep ebp]))
                    =? Z.of_nat (length (WindowConstruction.materials self))
                       - 1)%Z with false in H
             by (symmetry; apply Z.eqb_neq; rewrite E;
                 repeat (rewrite length_app; simpl); lia).
           rewrite E in H.
           rewrite getitem_next, getitem_prev in H.
           cbn [bind get_emissivity get_emissivity_back shade_of] in H.
           rewrite Elen in H. exact (IH _ _ _ _ Enext H).
Qed.

(** On an accepted list the two face emissivities are always found. *)
Lemma outside_emissivity_found (mats : list material)
    (c : WindowConstruction.t) :
  WindowConstruction.__init__ mats = Ok c ->
  exists e, WindowConstruction.outside_emissivity c = Ok e.
Proof.
  intros H.
  destruct (window_init_Ok mats c H)
    as (_ & (f & Gf & Nf) & _ & V & Em).
  apply validate_loop_window in V.
  unfold WindowConstruction.outside_emissivity. rewrite Em, Gf; simpl.
  destruct mats as [| m mats]; [discriminate |].
  rewrite getitem_first in Gf; injection Gf as <-.
  apply Forall_inv in V.
  destruct m; try discriminate; simpl; eauto.
Qed.

Lemma inside_emissivity_found (mats : list material)
    (c : WindowConstruction.t) :
  WindowConstruction.__init__ mats = Ok c ->
  exists e, WindowConstruction.inside_emissivity c = Ok e.
Proof.
  intros H.
  assert (Hfault := window_init_no_fault mats c H).
  destruct (window_init_Ok mats c H)
    as (_ & (f & Gf & Nf) & (l & Gl & Nl) & V & Em).
  apply validate_loop_window in V.
  unfold WindowConstruction.inside_emissivity. rewrite Em, Gf; simpl.
  destruct (is_simple_glaz_sys f) eqn:Hs; [eauto |].
  rewrite Gl; simpl.
  destruct mats as [| m mats]; [discriminate |].
  destruct (@exists_last _ (m :: mats) ltac:(discriminate)) as (pre & z & E).
  rewrite E in Gl, V, Hfault. rewrite getitem_last in Gl; injection Gl as <-.
  rewrite Forall_forall in V.
  assert (Hz : is_window_base z = true)
    by (apply V, in_or_app; right; now left).
  destruct z as [? ? | ? ? ? | r | ? | s]; try discriminate; simpl; eauto.
  - exfalso. destruct pre as [| p pre].
    + simpl in E. injection E as -> ->.
      rewrite getitem_first in Gf; injection Gf as <-. discriminate.
    + apply Hfault.
      apply (simple_glazing_with_others _ (p :: pre) r []);
        [reflexivity | discriminate].
  - destruct (shade_emissivity_back s); eauto.
Qed.

(** C10, away from the lone shade.  On every accepted list that is not just
    one shade, the seed build finds every layer and every attribute it looks
    up: if it raises at all, it is on a division by zero. *)
Lemma seed_lookups_in_bounds (mats : list material)
    (c : WindowConstruction.t) (gap_count : nat)
    (delta_t_guess avg_t_guess wind_speed : R) (x : exn) :
  WindowConstruction.__init__ mats = Ok c ->
  (forall s, mats <> [Shade s]) ->
  WindowConstruction._layered_r_value_initial c gap_count delta_t_guess
    avg_t_guess wind_speed = Raise x ->
  x = ZeroDivisionError.
Proof.
  intros H Hlone R.
  assert (Hfault := window_init_no_fault mats c H).
  destruct (outside_emissivity_found mats c H) as (eo & Ho).
  destruct (inside_emissivity_found mats c H) as (ei & Hi).
  destruct (window_init_Ok mats c H) as (_ & _ & _ & V & Em).
  apply validate_loop_window in V.
  unfold WindowConstruction._layered_r_value_initial,
    WindowConstruction.out_r, WindowConstruction.in_r_simple in R.
  rewrite Ho, Hi in R. cbn [bind] in R.
  apply bind_Raise in R as [R | (r_0 & _ & R)];
    [exact (pydiv_Raise _ _ _ R) |].
  apply bind_Raise in R as [R | (delta_t & _ & R)];
    [exact (pydiv_Raise _ _ _ R) |].
  apply bind_Raise in R as [R | ([r_vals emiss] & _ & R)].
  - rewrite <- Em in Hfault, V, Hlone.
    exact (initial_loop_lookups c delta_t avg_t_guess Hfault V Hlone
             (WindowConstruction.materials c) [] [r_0] [] x eq_refl R).
  - apply bind_Raise in R as [R | (r_in & _ & R)];
      [exact (pydiv_Raise _ _ _ R) | discriminate].
Qed.

(** * Further properties of the constructions *)

(** ** What the validators accept *)

Lemma check_opaque_Forall (mats : list material) :
  OpaqueConstruction.check_opaque mats = Ok tt
  <-> Forall (fun m => is_opaque_base m = true) mats.
Proof.
  induction mats as [| m mats IH]; simpl.
  - split; [constructor | reflexivity].
  - destruct (is_opaque_base m) eqn:Hm; simpl.
    + rewrite IH. split; [now constructor | now inversion 1].
    + split; [discriminate | inversion 1; congruence].
Qed.



Lemma flag_after_cases (pre : list material) :
  (pre = [] /\ flag_after pre false = false)
  \/ exists pre' p, pre = pre' ++ [p] /\ flag_after pre false = is_pane p.
Proof.
  destruct pre as [| p pre'] using rev_ind.
  - left; split; reflexivity.
  - right; exists pre', p; split; [reflexivity | apply flag_after_snoc].
Qed.

Lemma has_shade_layer_snoc (pre : list material) (m : material) :
  has_shade_layer (pre ++ [m]) = has_shade_layer pre || is_shade_base m.
Proof.
  unfold has_shade_layer. rewrite existsb_app; simpl.
  now rewrite orb_false_r.
Qed.

Lemma has_shade_layer_split (pre : list material) :
  has_shade_layer pre = true ->
  exists a s b, pre = a ++ Shade s :: b.
Proof.
  unfold has_shade_layer; intros H.
  apply existsb_exists in H as (x & Hin & Hx).
  destruct x as [? ? | ? ? ? | ? | ? | s]; try discriminate.
  apply in_split in Hin as (a & b & ->). eauto.
Qed.

(** On a list of at least two window layers without structural fault, the
    loop of the setter passes every layer and returns whether a shade is
    among them. *)
Lemma validate_loop_complete (mats : list material) :
  length mats <> 1%nat ->
  Forall (fun m => is_window_base m = true) mats ->
  ~ structure_fault mats ->
  forall post pre,
    mats = pre ++ post ->
    WindowConstruction.validate_loop (length mats) (length pre) post
      (flag_after pre false) (has_shade_layer pre)
    = Ok (has_shade_layer mats).
Proof.
  intros Hn Hwin Hfault.
  induction post as [| m post IH]; intros pre E.
  - simpl. now rewrite E, app_nil_r.
  - assert (Enext : mats = (pre ++ [m]) ++ post)
      by (now rewrite <- app_assoc).
    specialize (IH (pre ++ [m]) Enext).
    rewrite flag_after_snoc, has_shade_layer_snoc, length_app in IH.
    simpl in IH. rewrite Nat.add_1_r in IH.
    assert (Hm : is_window_base m = true).
    { rewrite Forall_forall in Hwin. apply Hwin. rewrite E.
      apply in_or_app; right; now left. }
    destruct m as [r a | r e eb | r | g | s]; try discriminate Hm; simpl.
    + (* a pane *)
      destruct (flag_after_cases pre) as [[-> ->] | (pre' & p & -> & ->)].
      * simpl. rewrite orb_false_r in IH. exact IH.
      * destruct (is_pane p) eqn:Hp.
        -- exfalso; apply Hfault.
           apply (glazing_adjacent mats pre' p (Glazing r e eb) post).
           ++ rewrite E, <- app_assoc; reflexivity.
           ++ destruct p; try discriminate; reflexivity.
           ++ reflexivity.
        -- simpl. rewrite orb_false_r in IH. exact IH.
    + (* a simple glazing system in company *)
      exfalso; apply Hfault.
      apply (simple_glazing_with_others mats pre r post E).
      intros Hnil. apply Hn. rewrite E, length_app; simpl.
      apply (f_equal (@length material)) in Hnil.
      rewrite length_app in Hnil; simpl in Hnil. lia.
    + (* a gas *)
      destruct (flag_after_cases pre) as [[-> _] | (pre' & p & -> & ->)].
      * exfalso; apply Hfault. exact (gas_first mats g post E).
      * destruct (is_pane p) eqn:Hp.
        -- simpl. rewrite orb_false_r in IH. exact IH.
        -- exfalso; apply Hfault.
           apply (gas_after_non_glazing mats pre' p g post); [| exact Hp].
           rewrite E, <- app_assoc; reflexivity.
    + (* a shade *)
      assert (Hs : has_shade_layer pre = false).
      { destruct (has_shade_layer pre) eqn:Hs; [| reflexivity].
        exfalso; apply Hfault.
        destruct (has_shade_layer_split pre Hs) as (a & s1 & b & ->).
        apply (second_shade mats a s1 b s post).
        rewrite E, <- app_assoc; reflexivity. }
      rewrite Hs in *. simpl in IH.
      destruct (flag_after_cases pre) as [[-> _] | (pre' & p & -> & ->)].
      * simpl. exact IH.
      * replace (length (pre' ++ [p]) =? 0)%nat with false
          by (symmetry; apply Nat.eqb_neq; rewrite length_app; simpl; lia).
        destruct (is_pane p) eqn:Hp.
        -- simpl. exact IH.
        -- exfalso; apply Hfault.
           apply (shade_after_non_glazing mats pre' p s post); [| exact Hp].
           rewrite E, <- app_assoc; reflexivity.
Qed.

(** The setter on a fault-free list of window layers of a fitting length. *)
Lemma window_init_complete (mats : list material) :
  (1 <= length mats <= 8)%nat ->
  Forall (fun m => is_window_base m = true) mats ->
  ~ structure_fault mats ->
  WindowConstruction.__init__ mats
  = Ok {| WindowConstruction._materials := mats;
          WindowConstruction._has_shade := has_shade_layer mats |}.
Proof.
  intros Hlen Hwin Hfault.
  unfold WindowConstruction.__init__, WindowConstruction.materials_setter.
  replace (0 <? length mats)%nat with true
    by (symmetry; apply Nat.ltb_lt; lia).
  replace (length mats <=? 8)%nat with true
    by (symmetry; apply Nat.leb_le; lia).
  cbn [assert bind].
  destruct mats as [| m mats]; [simpl in Hlen; lia |].
  rewrite getitem_first. cbn [bind].
  destruct (is_gas_base m) eqn:Hg.
  { exfalso; apply Hfault. destruct m; try discriminate.
    eapply gas_first; reflexivity. }
  cbn [negb assert bind].
  destruct (@exists_last _ (m :: mats) ltac:(discriminate)) as (pre & z & E).
  rewrite E at 1. rewrite getitem_last. cbn [bind].
  destruct (is_gas_base z) eqn:Hz.
  { exfalso; apply Hfault. destruct z; try discriminate.
    eapply gas_last; exact E. }
  cbn [negb assert bind].
  destruct (Nat.eq_dec (length (m :: mats)) 1) as [H1 | H1].
  - destruct mats; [| discriminate H1].
    apply Forall_inv in Hwin.
    destruct m; try discriminate; reflexivity.
  - assert (V := validate_loop_complete (m :: mats) H1 Hwin Hfault
                   (m :: mats) [] eq_refl).
    change (length []) with 0%nat in V.
    change (flag_after [] false) with false in V.
    change (has_shade_layer []) with false in V.
    rewrite V. reflexivity.
Qed.


(** X3.  The [has_shade] flag of an accepted construction tells whether one
    of its layers is a shade or blind, and the accepted list is stored as it
    was given. *)
Theorem window_init_has_shade (mats : list material)
    (c : WindowConstruction.t) :
  WindowConstruction.__init__ mats = Ok c ->
  WindowConstruction.has_shade c = has_shade_layer mats
  /\ WindowConstruction.materials c = mats.
Proof.
  intros H.
  assert (Hacc : exists c, WindowConstruction.__init__ mats = Ok c)
    by eauto.
  destruct (window_init_Ok mats c H) as (Hlen & _ & _ & V & Em).
  assert (Hwin := validate_loop_window _ _ _ _ _ _ V).
  assert (Hfault := window_init_no_fault mats c H).
  rewrite (window_init_complete mats Hlen Hwin Hfault) in H.
  injection H as <-. split; reflexivity.
Qed.

Lemma window_init_has_shade_witness :
  WindowConstruction.__init__ [plain_shade; clear_glass; plain_gap; clear_glass]
  = Ok {| WindowConstruction._materials :=
            [plain_shade; clear_glass; plain_gap; clear_glass];
          WindowConstruction._has_shade := true |}
  /\ WindowConstruction.has_shade
       {| WindowConstruction._materials :=
            [plain_shade; clear_glass; plain_gap; clear_glass];
          WindowConstruction._has_shade := true |}
     = has_shade_layer [plain_shade; clear_glass; plain_gap; clear_glass].
Proof.
  assert (H : WindowConstruction.__init__
                [plain_shade; clear_glass; plain_gap; clear_glass]
              = Ok {| WindowConstruction._materials :=
                        [plain_shade; clear_glass; plain_gap; clear_glass];
                      WindowConstruction._has_shade := true |})
    by reflexivity.
  exact (conj H (proj1 (window_init_has_shade _ _ H))).
Defined.

(** X4.  In an accepted window list, the layer right after a gas or a shade
    and the layer right before one are panes: gas layers and shades never
    touch each other, nor a simple glazing system. *)
Theorem window_init_neighbours (mats : list material)
    (c : WindowConstruction.t) (pre : list material) (a b : material)
    (post : list material) :
  WindowConstruction.__init__ mats = Ok c ->
  mats = pre ++ a :: b :: post ->
  (is_gas_base a = true \/ is_shade_base a = true -> is_pane b = true)
  /\ (is_gas_base b = true \/ is_shade_base b = true -> is_pane a = true).
Proof.
  intros H E.
  assert (Hfault := window_init_no_fault mats c H).
  destruct (window_init_Ok mats c H) as (_ & _ & _ & V & _).
  assert (Hwin := validate_loop_window _ _ _ _ _ _ V).
  split; intros Hk.
  - destruct (pane_follows mats Hfault Hwin pre a b post E Hk)
      as (r & e & eb & ->). reflexivity.
  - assert (E' : mats = (pre ++ [a]) ++ b :: post)
      by (now rewrite <- app_assoc).
    destruct (pane_precedes mats Hfault pre a b post E' Hk)
      as (r & e & eb & ->). reflexivity.
Qed.

Lemma window_init_neighbours_witness :
  WindowConstruction.__init__ [clear_glass; plain_gap; clear_glass]
  = Ok {| WindowConstruction._materials :=
            [clear_glass; plain_gap; clear_glass];
          WindowConstruction._has_shade := false |}
  /\ (is_gas_base plain_gap = true \/ is_shade_base plain_gap = true ->
      is_pane clear_glass = true).
Proof.
  assert (H : WindowConstruction.__init__
                [clear_glass; plain_gap; clear_glass]
              = Ok {| WindowConstruction._materials :=
                        [clear_glass; plain_gap; clear_glass];
                      WindowConstruction._has_shade := false |})
    by reflexivity.
  exact (conj H
          (proj1 (window_init_neighbours _ _ [clear_glass] plain_gap
                    clear_glass [] H eq_refl))).
Defined.

(** ** Counting gaps and panes *)

Lemma gas_layers_snoc (pre : list material) (m : material) :
  gas_layers (pre ++ [m])
  = (gas_layers pre + if is_gas_base m then 1 else 0)%nat.
Proof.
  unfold gas_layers. rewrite filter_app, length_app. simpl.
  now destruct (is_gas_base m).
Qed.

Lemma shade_gaps_snoc (pre : list material) (m : material) :
  is_shade_base m = false -> shade_gaps (pre ++ [m]) = shade_gaps pre.
Proof.
  intros Hm. destruct pre as [| first pre]; simpl; [now rewrite Hm |].
  now rewrite has_shade_layer_snoc, Hm, orb_false_r.
Qed.

Lemma shade_gaps_snoc_shade (pre : list material) (m : material) :
  pre <> [] -> has_shade_layer pre = false -> is_shade_base m = true ->
  shade_gaps (pre ++ [m]) = 2%nat.
Proof.
  intros Hne Hpre Hm. destruct pre as [| first pre]; [easy |].
  simpl in *. apply orb_false_iff in Hpre as [-> _].
  now rewrite has_shade_layer_snoc, Hm, orb_true_r.
Qed.

Lemma shade_gaps_none (pre : list material) :
  has_shade_layer pre = false -> shade_gaps pre = 0%nat.
Proof.
  destruct pre as [| first pre]; simpl; [easy |].
  intros H. apply orb_false_iff in H as [-> ->]. reflexivity.
Qed.

Lemma gas_layers_below (first : material) (pre : list material) :
  is_gas_base first = false ->
  (gas_layers (first :: pre) <= length pre)%nat.
Proof.
  intros Hf. unfold gas_layers. simpl. rewrite Hf. apply filter_length_le.
Qed.

Lemma gap_count_loop_spec (mats : list material) :
  forall (pre : list material) (count : nat),
    ~ structure_fault (pre ++ mats) ->
    count = (gas_layers pre + shade_gaps pre)%nat ->
    WindowConstruction.gap_count_loop (length (pre ++ mats)) (length pre)
      mats count
    = (gas_layers (pre ++ mats) + shade_gaps (pre ++ mats))%nat.
Proof.
  induction mats as [| m mats IH]; intros pre count Hfault Hc; simpl.
  - now rewrite app_nil_r.
  - assert (E : pre ++ m :: mats = (pre ++ [m]) ++ mats)
      by (now rewrite <- app_assoc).
    assert (L : S (length pre) = length (pre ++ [m]))
      by (rewrite length_app; simpl; lia).
    destruct (is_gas_base m) eqn:Hgas.
    { rewrite E, L. apply IH; [now rewrite <- E |].
      rewrite gas_layers_snoc, Hgas, shade_gaps_snoc; [lia |].
      now destruct m. }
    destruct (is_shade_base m) eqn:Hshade.
    2:{ rewrite E, L. apply IH; [now rewrite <- E |].
        rewrite gas_layers_snoc, Hgas, shade_gaps_snoc; [lia | easy]. }
    destruct pre as [| first pre].
    { replace ((length (@nil material) =? 0)%nat) with true by reflexivity.
      simpl orb. cbv iota.
      rewrite E, L. apply IH; [now rewrite <- E |].
      subst count. simpl. rewrite Hshade.
      unfold gas_layers. simpl. now rewrite Hgas. }
    assert (Hnone : has_shade_layer (first :: pre) = false).
    { destruct (has_shade_layer (first :: pre)) eqn:Hs; [| reflexivity].
      apply has_shade_layer_split in Hs as (p1 & s1 & p2 & Hs).
      destruct m as [| | | |s2]; try discriminate.
      exfalso. apply Hfault.
      apply (second_shade _ p1 s1 p2 s2 mats).
      rewrite Hs, <- app_assoc. reflexivity. }
    assert (Hfirst : is_gas_base first = false).
    { destruct first as [| | |g|]; try reflexivity.
      exfalso. apply Hfault. now apply (gas_first _ g (pre ++ m :: mats)). }
    assert (Hlow := gas_layers_below first pre Hfirst).
    rewrite (shade_gaps_none _ Hnone) in Hc.
    replace ((length (first :: pre) =? 0)%nat) with false by reflexivity.
    replace ((count =? length ((first :: pre) ++ m :: mats) - 1)%nat)
      with false.
    2:{ symmetry. apply Nat.eqb_neq. rewrite length_app. simpl. lia. }
    simpl orb. cbv iota.
    rewrite E, L. apply IH; [now rewrite <- E |].
    rewrite gas_layers_snoc, Hgas,
      (shade_gaps_snoc_shade (first :: pre) m); [lia | easy | easy | easy].
Qed.

(** X5.  On an accepted window, [gap_count] is the number of gas layers,
    plus one for a shade that is the first layer, plus two for a shade
    anywhere else: the test [count == len(self.materials) - 1] never holds
    at a shade of an accepted list, so an interior shade counts for two gaps
    like a shade between panes. *)
Theorem gap_count_accepted (mats : list material)
    (c : WindowConstruction.t) :
  WindowConstruction.__init__ mats = Ok c ->
  WindowConstruction.gap_count c = (gas_layers mats + shade_gaps mats)%nat.
Proof.
  intros H. assert (Hfault := window_init_no_fault mats c H).
  destruct (window_init_Ok mats c H) as (_ & _ & _ & _ & E).
  unfold WindowConstruction.gap_count. rewrite E.
  exact (gap_count_loop_spec mats [] 0 Hfault eq_refl).
Qed.

Lemma gap_count_accepted_witness :
  WindowConstruction.__init__ [clear_glass; plain_gap; clear_glass; plain_shade]
  = Ok {| WindowConstruction._materials :=
            [clear_glass; plain_gap; clear_glass; plain_shade];
          WindowConstruction._has_shade := true |}
  /\ WindowConstruction.gap_count
       {| WindowConstruction._materials :=
            [clear_glass; plain_gap; clear_glass; plain_shade];
          WindowConstruction._has_shade := true |}
     = 3%nat.
Proof.
  assert (H : WindowConstruction.__init__
                [clear_glass; plain_gap; clear_glass; plain_shade]
              = Ok {| WindowConstruction._materials :=
                        [clear_glass; plain_gap; clear_glass; plain_shade];
                      WindowConstruction._has_shade := true |})
    by reflexivity.
  exact (conj H (gap_count_accepted _ _ H)).
Defined.

Lemma glazing_count_loop_spec (mats : list material) :
  forall count : nat,
    WindowQueries.glazing_count_loop mats count
    = (count + glazing_layers mats)%nat.
Proof.
  unfold glazing_layers.
  induction mats as [| m mats IH]; intros count; simpl; [lia |].
  destruct (is_glazing_base m); rewrite IH; simpl; lia.
Qed.

Lemma validate_loop_latched (n : nat) (mats : list material) :
  forall (i : nat) (gl b : bool),
    WindowConstruction.validate_loop n i mats gl true = Ok b -> b = true.
Proof.
  induction mats as [| m mats IH]; intros i gl b; simpl.
  - now intros [= <-].
  - destruct m; simpl; try discriminate.
    + destruct gl; simpl; [discriminate | apply IH].
    + destruct (n =? 1)%nat; simpl; [apply IH | discriminate].
    + destruct gl; simpl; [apply IH | discriminate].
    + destruct (negb (i =? 0)%nat); simpl; [destruct gl; simpl |];
        discriminate.
Qed.

(** Without a shade and apart from the simple glazing system, the
    validator lets panes and gas layers alternate only. *)
Lemma validate_loop_alternates (n : nat) (mats : list material) :
  forall (i : nat) (gl : bool),
    n <> 1%nat ->
    WindowConstruction.validate_loop n i mats gl false = Ok false ->
    is_gas_base (last mats clear_glass) = false ->
    if gl
    then glazing_layers mats = gas_layers mats
         /\ length mats = (2 * gas_layers mats)%nat
    else mats = []
         \/ (glazing_layers mats = (gas_layers mats + 1)%nat
             /\ length mats = (2 * gas_layers mats + 1)%nat).
Proof.
  unfold glazing_layers, gas_layers.
  induction mats as [| m mats IH]; intros i gl Hn H Hlast.
  - destruct gl; [split; reflexivity | now left].
  - assert (Hrest : mats <> [] ->
                    is_gas_base (last mats clear_glass) = false).
    { intros Hne. destruct mats; [easy | exact Hlast]. }
    simpl in H. destruct m as [| r e eb | r | g | s]; simpl in H.
    + discriminate.
    + destruct gl; simpl in H; [discriminate |].
      right. destruct mats as [| m' mats']; [split; reflexivity |].
      specialize (IH (S i) true Hn H (Hrest ltac:(easy))).
      destruct IH as [IH1 IH2].
      change (filter is_glazing_base (Glazing r e eb :: m' :: mats'))
        with (Glazing r e eb :: filter is_glazing_base (m' :: mats')).
      change (filter is_gas_base (Glazing r e eb :: m' :: mats'))
        with (filter is_gas_base (m' :: mats')).
      change (length (Glazing r e eb :: m' :: mats'))
        with (S (length (m' :: mats'))).
      change (length (Glazing r e eb :: filter is_glazing_base (m' :: mats')))
        with (S (length (filter is_glazing_base (m' :: mats')))).
      lia.
    + destruct (Nat.eqb_spec n 1); [easy | discriminate].
    + destruct gl; simpl in H; [| discriminate].
      destruct mats as [| m' mats']; [discriminate Hlast |].
      specialize (IH (S i) false Hn H (Hrest ltac:(easy))).
      destruct IH as [IH | [IH1 IH2]]; [discriminate |].
      change (filter is_glazing_base (Gas g :: m' :: mats'))
        with (filter is_glazing_base (m' :: mats')).
      change (filter is_gas_base (Gas g :: m' :: mats'))
        with (Gas g :: filter is_gas_base (m' :: mats')).
      change (length (Gas g :: m' :: mats'))
        with (S (length (m' :: mats'))).
      change (length (Gas g :: filter is_gas_base (m' :: mats')))
        with (S (length (filter is_gas_base (m' :: mats')))).
      lia.
    + exfalso.
      destruct (negb (i =? 0)%nat); simpl in H;
        [destruct gl; simpl in H; [| discriminate] |];
        now apply validate_loop_latched in H.
Qed.

Lemma getitem_last_is_last (mats : list material) (m : material) :
  getitem mats (-1) = Ok m -> last mats clear_glass = m.
Proof.
  intros H. destruct mats as [| m0 mats]; [discriminate |].
  assert (Hne : m0 :: mats <> []) by easy.
  rewrite (app_removelast_last clear_glass Hne), getitem_last in H.
  now injection H.
Qed.

(** X6.  An accepted window without a shade has one pane more than it has
    gaps, and [2 * gap_count + 1] layers. *)
Theorem unshaded_window_counts (mats : list material)
    (c : WindowConstruction.t) :
  WindowConstruction.__init__ mats = Ok c ->
  WindowConstruction.has_shade c = false ->
  WindowQueries.glazing_count c = (WindowConstruction.gap_count c + 1)%nat
  /\ length mats = (2 * WindowConstruction.gap_count c + 1)%nat.
Proof.
  intros H Hs. assert (Hfault := window_init_no_fault mats c H).
  destruct (window_init_Ok mats c H)
    as (Hlen & _ & (lst & Hlast & Hgas) & V & E).
  unfold WindowQueries.glazing_count, WindowConstruction.gap_count.
  rewrite E, glazing_count_loop_spec.
  assert (G := gap_count_loop_spec mats [] 0 Hfault eq_refl).
  simpl app in G. change (length (@nil material)) with 0%nat in G.
  rewrite G. clear G.
  rewrite Hs in V.
  assert (Hnone : has_shade_layer mats = false).
  { destruct (has_shade_layer mats) eqn:Hh; [| reflexivity].
    exfalso. revert V Hh. clear. intros V Hh.
    assert (G : forall l n i gl,
               has_shade_layer l = true ->
               WindowConstruction.validate_loop n i l gl false <> Ok false).
    { induction l as [| m l IH]; intros n i gl Hl; [discriminate |].
      simpl. destruct m; simpl; try discriminate.
      - destruct gl; simpl; [discriminate | now apply IH].
      - destruct (n =? 1)%nat; simpl; [now apply IH | discriminate].
      - destruct gl; simpl; [now apply IH | discriminate].
      - intros H.
        destruct (negb (i =? 0)%nat); simpl in H;
          [destruct gl; simpl in H; [| discriminate] |];
          now apply validate_loop_latched in H. }
    exact (G _ _ _ _ Hh V). }
  rewrite (shade_gaps_none _ Hnone).
  destruct (Nat.eq_dec (length mats) 1) as [L1 | L1].
  - destruct mats as [| m [| m' mats]]; try discriminate.
    injection Hlast as <-.
    destruct m; try discriminate; split; reflexivity.
  - apply getitem_last_is_last in Hlast. subst lst.
    destruct (validate_loop_alternates _ mats 0 false L1 V Hgas)
      as [-> | [A B]]; [simpl in Hlen; lia |].
    split; simpl; lia.
Qed.

Lemma unshaded_window_counts_witness :
  WindowConstruction.__init__ [clear_glass; plain_gap; clear_glass]
  = Ok (double_glazing clear_glass
          {| gas_u_value := fun _ _ _ _ => 5;
             gas_u_value_at_angle := fun _ _ _ _ _ _ _ => 5 |} clear_glass)
  /\ WindowQueries.glazing_count
       (double_glazing clear_glass
          {| gas_u_value := fun _ _ _ _ => 5;
             gas_u_value_at_angle := fun _ _ _ _ _ _ _ => 5 |} clear_glass)
     = 2%nat.
Proof.
  assert (H : WindowConstruction.__init__
                [clear_glass; plain_gap; clear_glass]
              = Ok (double_glazing clear_glass
                      {| gas_u_value := fun _ _ _ _ => 5;
                         gas_u_value_at_angle := fun _ _ _ _ _ _ _ => 5 |}
                      clear_glass))
    by reflexivity.
  exact (conj H (proj1 (unshaded_window_counts _ _ H eq_refl))).
Defined.

(** ** Where the shade is *)

Lemma window_init_record (mats : list material) (c : WindowConstruction.t) :
  WindowConstruction.__init__ mats = Ok c ->
  c = {| WindowConstruction._materials := mats;
         WindowConstruction._has_shade := has_shade_layer mats |}.
Proof.
  intros H.
  destruct (window_init_Ok mats c H) as (Hlen & _ & _ & V & _).
  assert (Hwin := validate_loop_window _ _ _ _ _ _ V).
  assert (Hfault := window_init_no_fault mats c H).
  rewrite (window_init_complete mats Hlen Hwin Hfault) in H.
  now injection H.
Qed.

Section ShadeLocation.

Import Stdlib.Strings.String.

(** X7.  On an accepted window [shade_location] never raises; it answers
    [None] exactly when no layer is a shade, and ['Between'] exactly when a
    shade has layers on both of its sides. *)
Theorem shade_location_accepted (mats : list material)
    (c : WindowConstruction.t) :
  WindowConstruction.__init__ mats = Ok c ->
  exists loc,
    WindowQueries.shade_location c = Ok loc
    /\ (loc = None <-> has_shade_layer mats = false)
    /\ (loc = Some "Between"%string
        <-> exists pre s post,
              mats = pre ++ Shade s :: post /\ pre <> [] /\ post <> []).
Proof.
  intros H. assert (Hfault := window_init_no_fault mats c H).
  rewrite (window_init_record mats c H).
  unfold WindowQueries.shade_location.
  cbn [WindowConstruction.materials WindowConstruction._materials
       WindowConstruction.has_shade WindowConstruction._has_shade].
  destruct (window_init_Ok mats c H) as (Hlen & _ & _ & _ & _).
  destruct mats as [| first rest]; [simpl in Hlen; lia |].
  rewrite getitem_first. cbn [bind].
  destruct (is_shade_base first) eqn:Hfirst.
  { eexists; split; [reflexivity | split; split].
    - discriminate.
    - simpl. now rewrite Hfirst.
    - discriminate.
    - intros (pre & s & post & E & Hpre & _). exfalso.
      destruct pre as [| p pre]; [easy |].
      injection E as <- ->.
      destruct first as [| | | | s1]; try discriminate.
      apply Hfault. now apply (second_shade _ [] s1 pre s post). }
  destruct (@exists_last _ (first :: rest) ltac:(discriminate))
    as (front & z & E).
  assert (Hl : getitem (first :: rest) (-1) = Ok z)
    by (rewrite E; apply getitem_last).
  rewrite Hl. cbn [bind].
  destruct (is_shade_base z) eqn:Hz.
  { eexists; split; [reflexivity | split; split].
    - discriminate.
    - rewrite E, has_shade_layer_snoc, Hz, orb_true_r. discriminate.
    - discriminate.
    - intros (pre & s & post & E' & _ & Hpost). exfalso.
      destruct (@exists_last _ post Hpost) as (post' & z' & ->).
      rewrite E in E'.
      assert (E2 : front ++ [z] = (pre ++ Shade s :: post') ++ [z'])
        by (rewrite E', <- app_assoc; reflexivity).
      apply app_inj_tail in E2 as [E2 <-].
      destruct z as [| | | | s2]; try discriminate.
      apply Hfault. apply (second_shade _ pre s post' s2 []).
      rewrite E. exact E'. }
  destruct (has_shade_layer (first :: rest)) eqn:Hs.
  - eexists; split; [reflexivity | split; split].
    + discriminate.
    + discriminate.
    + intros _.
      destruct (has_shade_layer_split _ Hs) as (a & s & b & Es).
      exists a, s, b. split; [exact Es | split].
      * intros ->. injection Es as -> _. discriminate.
      * intros ->. rewrite E in Es.
        apply app_inj_tail in Es as [_ ->]. discriminate.
    + reflexivity.
  - eexists; split; [reflexivity | split; split].
    + reflexivity.
    + reflexivity.
    + discriminate.
    + intros (pre & s & post & E' & _). exfalso.
      rewrite E' in Hs. unfold has_shade_layer in Hs.
      rewrite existsb_app in Hs. simpl in Hs.
      now rewrite orb_true_r in Hs.
Qed.

Lemma shade_location_accepted_witness :
  WindowConstruction.__init__ [clear_glass; plain_shade; clear_glass]
  = Ok {| WindowConstruction._materials :=
            [clear_glass; plain_shade; clear_glass];
          WindowConstruction._has_shade := true |}
  /\ exists loc,
       WindowQueries.shade_location
         {| WindowConstruction._materials :=
              [clear_glass; plain_shade; clear_glass];
            WindowConstruction._has_shade := true |} = Ok loc
       /\ (loc = None
           <-> has_shade_layer [clear_glass; plain_shade; clear_glass]
               = false)
       /\ (loc = Some "Between"%string
           <-> exists pre s post,
                 [clear_glass; plain_shade; clear_glass]
                 = pre ++ Shade s :: post /\ pre <> [] /\ post <> []).
Proof.
  assert (H : WindowConstruction.__init__
                [clear_glass; plain_shade; clear_glass]
              = Ok {| WindowConstruction._materials :=
                        [clear_glass; plain_shade; clear_glass];
                      WindowConstruction._has_shade := true |})
    by reflexivity.
  exact (conj H (shade_location_accepted _ _ H)).
Defined.

End ShadeLocation.

(** ** The temperature profile between its two ends *)

Lemma accumulate_bounds (delta_t r_factor : R) (r_values : list R) :
  0 <= delta_t -> 0 < r_factor ->
  Forall (fun r => 0 <= r) r_values ->
  forall t : R,
    StronglySorted Rle (accumulate t delta_t r_factor r_values)
    /\ Forall (fun x => t <= x <= t + delta_t * (sum r_values / r_factor))
         (accumulate t delta_t r_factor r_values).
Proof.
  intros Hd Hr Hpos.
  induction Hpos as [| r rest Hr0 Hrest IH]; intros t; simpl.
  - rewrite sum_nil. split.
    + constructor; constructor.
    + constructor; [| constructor].
      unfold Rdiv; rewrite Rmult_0_l, Rmult_0_r; lra.
  - destruct (IH (t + delta_t * (r / r_factor))) as [S B].
    assert (Hstep : 0 <= delta_t * (r / r_factor)).
    { apply Rmult_le_pos; [exact Hd |].
      apply Rmult_le_pos; [exact Hr0 | left; now apply Rinv_0_lt_compat]. }
    assert (Hsum : 0 <= delta_t * (sum rest / r_factor)).
    { apply Rmult_le_pos; [exact Hd |].
      apply Rmult_le_pos; [| left; now apply Rinv_0_lt_compat].
      clear - Hrest. induction Hrest as [| x l Hx _ IHl];
        [rewrite sum_nil; lra | rewrite sum_cons; lra]. }
    assert (Htot : t + delta_t * (sum (r :: rest) / r_factor)
                   = t + delta_t * (r / r_factor)
                     + delta_t * (sum rest / r_factor)).
    { rewrite sum_cons. unfold Rdiv. lra. }
    split.
    + constructor; [exact S |].
      eapply Forall_impl; [| exact B]. simpl. intros x Hx. lra.
    + constructor; [rewrite Htot; lra |].
      eapply Forall_impl; [| exact B]. simpl. intros x Hx.
      rewrite Htot. lra.
Qed.



Lemma temperature_loop_raises (delta_t r_factor : R) (r_values : list R) :
  forall (temperatures : list R) (i : nat) (e : exn),
    length temperatures = S i ->
    temperature_loop delta_t r_factor i r_values temperatures = Raise e ->
    e = ZeroDivisionError /\ r_factor = 0 /\ r_values <> [].
Proof.
  intros temps i e Hlen H.
  destruct (Req_dec_T r_factor 0) as [Hz | Hnz].
  - destruct r_values as [| r rest]; [discriminate |].
    simpl in H.
    rewrite (getitem_nat temps i (nth i temps 0)) in H
      by (apply nth_error_nth'; lia).
    simpl in H. subst r_factor. rewrite pydiv_zero in H. simpl in H.
    injection H as <-. repeat split. discriminate.
  - destruct (temperature_loop_spec delta_t r_factor r_values Hnz temps i Hlen)
      as (ts & Hts & _).
    rewrite Hts in H. discriminate.
Qed.

(** X9.  The builder fails in one way only: on a list that is not empty
    and sums to zero, with a [ZeroDivisionError].  The list of temperatures
    is never read out of range, and the empty list gives back the outdoor
    temperature alone. *)
Theorem temperature_profile_builder_failure
    (r_values : list R) (T_out T_in : R) :
  (forall e, _temperature_profile_from_r_values r_values T_out T_in = Raise e
             <-> e = ZeroDivisionError /\ r_values <> [] /\ sum r_values = 0)
  /\ _temperature_profile_from_r_values [] T_out T_in = Ok [T_out]
  /\ _temperature_profile_from_r_values r_values T_out T_in <> OutOfFuel.
Proof.
  split; [| split].
  - intros e; split.
    + intros H. unfold _temperature_profile_from_r_values in H.
      apply temperature_loop_raises in H as (-> & Hs & Hne); easy.
    + intros (-> & Hne & Hs).
      destruct r_values as [| r rest]; [easy |].
      now apply temperature_profile_builder_zero_sum.
  - reflexivity.
  - destruct r_values as [| r rest]; [discriminate |].
    destruct (Req_dec_T (sum (r :: rest)) 0) as [Hz | Hnz].
    + now rewrite temperature_profile_builder_zero_sum.
    + now rewrite temperature_profile_accumulate.
Qed.

(** ** The Nusselt number and the indoor film at any angle *)

Lemma float_pow_mono (x y e : R) :
  0 <= e -> x <= y -> float_pow x e <= float_pow y e.
Proof.
  intros He Hxy. destruct (Rle_dec x 0) as [Hx | Hx].
  - unfold float_pow at 1. destruct (Rle_dec x 0); [| lra].
    apply float_pow_nonneg.
  - apply float_pow_incr; lra.
Qed.

Lemma rayleigh_c_found (angle : R) :
  15 <= angle <= 90 ->
  exists rc, rayleigh_c angle = Ok rc /\ 0 < rc.
Proof.
  intros Ha. assert (Hs : 0 < sin (radians angle))
    by (apply sin_radians_pos; lra).
  unfold rayleigh_c. rewrite pydiv_Ok by lra. cbn [bind].
  eexists; split; [reflexivity |].
  apply Rmult_lt_0_compat; [lra |]. apply float_pow_pos.
  apply Rdiv_lt_0_compat; [apply exp_pos | exact Hs].
Qed.

(** The value of [nusselt] on its four branches. *)
Lemma nusselt_found (Ra angle : R) :
  exists nu, nusselt Ra angle = Ok nu /\ 0 <= nu.
Proof.
  unfold nusselt.
  destruct (Rlt_dec angle 15) as [H15 | H15].
  { eexists; split; [reflexivity |].
    apply Rmult_le_pos; [lra | apply float_pow_nonneg]. }
  destruct (Rle_dec angle 90) as [H90 | H90].
  { destruct (rayleigh_c_found angle ltac:(lra)) as (rc & -> & Hrc).
    cbn [bind]. destruct (Rlt_dec Ra rc) as [L | G].
    - eexists; split; [reflexivity |].
      apply Rmult_le_pos; [lra | apply float_pow_nonneg].
    - eexists; split; [reflexivity |].
      assert (H1 : 0 <= float_pow (rc * sin (radians angle)) (1 / 4))
        by apply float_pow_nonneg.
      assert (H2 : float_pow rc (1 / 3) <= float_pow Ra (1 / 3))
        by (apply float_pow_mono; lra).
      lra. }
  destruct (Rle_dec angle 179) as [H179 | H179].
  { eexists; split; [reflexivity |]. unfold nusselt_inclined.
    apply Rmult_le_pos; [lra | apply float_pow_nonneg]. }
  eexists; split; [reflexivity |].
  apply Rmult_le_pos; [lra | apply float_pow_nonneg].
Qed.

(** X10.  At every angle the Nusselt number is defined, is not negative
    and does not fall when the Rayleigh number rises, also across the
    critical Rayleigh number of the [15 <= angle <= 90] branch. *)
Theorem nusselt_monotone (Ra_1 Ra_2 angle : R) :
  0 <= Ra_1 <= Ra_2 ->
  exists nu_1 nu_2,
    nusselt Ra_1 angle = Ok nu_1
    /\ nusselt Ra_2 angle = Ok nu_2
    /\ 0 <= nu_1 <= nu_2.
Proof.
  intros [H0 H12].
  destruct (nusselt_found Ra_1 angle) as (nu_1 & E1 & P1).
  destruct (nusselt_found Ra_2 angle) as (nu_2 & E2 & P2).
  exists nu_1, nu_2. split; [exact E1 | split; [exact E2 |]].
  split; [exact P1 |].
  revert E1 E2. unfold nusselt.
  destruct (Rlt_dec angle 15) as [H15 | H15].
  { intros [= <-] [= <-].
    apply Rmult_le_compat_l; [lra | apply float_pow_mono; lra]. }
  destruct (Rle_dec angle 90) as [H90 | H90].
  { destruct (rayleigh_c_found angle ltac:(lra)) as (rc & -> & Hrc).
    cbn [bind].
    assert (Hs : 0 < sin (radians angle))
      by (apply sin_radians_pos; lra).
    destruct (Rlt_dec Ra_1 rc) as [L1 | G1];
      destruct (Rlt_dec Ra_2 rc) as [L2 | G2];
      intros [= <-] [= <-].
    - apply Rmult_le_compat_l; [lra |]. apply float_pow_mono; [lra |].
      apply Rmult_le_compat_r; lra.
    - assert (A : float_pow (Ra_1 * sin (radians angle)) (1 / 4)
                  <= float_pow (rc * sin (radians angle)) (1 / 4)).
      { apply float_pow_mono; [lra |]. apply Rmult_le_compat_r; lra. }
      assert (B : float_pow rc (1 / 3) <= float_pow Ra_2 (1 / 3))
        by (apply float_pow_mono; lra).
      lra.
    - lra.
    - assert (B : float_pow Ra_1 (1 / 3) <= float_pow Ra_2 (1 / 3))
        by (apply float_pow_mono; lra).
      lra. }
  destruct (Rle_dec angle 179) as [H179 | H179].
  { intros [= <-] [= <-]. unfold nusselt_inclined.
    assert (Hs : 0 < sin (radians angle))
      by (apply sin_radians_pos; lra).
    apply Rmult_le_compat_l; [lra |]. apply float_pow_mono; [lra |].
    apply Rmult_le_compat_r; lra. }
  intros [= <-] [= <-].
  apply Rmult_le_compat_l; [lra | apply float_pow_mono; lra].
Qed.

Lemma nusselt_monotone_witness :
  exists nu_1 nu_2,
    nusselt 1000 45 = Ok nu_1
    /\ nusselt 2000 45 = Ok nu_2
    /\ 0 <= nu_1 <= nu_2.
Proof.
  apply (nusselt_monotone 1000 2000 45). lra.
Defined.

Lemma rayleigh_found (_air : air_model)
    (t_kelvin delta_t height pressure : R) :
  air_positive _air -> 0 < t_kelvin ->
  exists Ra,
    rayleigh _air t_kelvin delta_t height pressure = Ok Ra /\ 0 <= Ra.
Proof.
  intros Hair Ht. destruct (Hair t_kelvin Ht) as [Hmu Hk].
  unfold rayleigh. rewrite pydiv_Ok.
  2:{ apply Rmult_integral_contrapositive_currified;
        [apply Rmult_integral_contrapositive_currified |]; lra. }
  cbn [bind]. eexists; split; [reflexivity | apply Rabs_pos].
Qed.

Lemma in_h_found (_air : air_model)
    (e t_kelvin delta_t height angle pressure : R) :
  air_positive _air -> 0 < t_kelvin -> 0 < height ->
  exists nu,
    0 <= nu
    /\ in_h _air (Ok e) t_kelvin delta_t height angle pressure
       = Ok (nu * (conductivity_at_temperature _air t_kelvin / height)
             + 4 * 5.6697e-8 * e * t_kelvin ^ 3).
Proof.
  intros Hair Ht Hh. destruct (Hair t_kelvin Ht) as [Hmu Hk].
  destruct (rayleigh_found _air t_kelvin delta_t height pressure Hair Ht)
    as (Ra & ER & _).
  destruct (nusselt_found Ra angle) as (nu & EN & Hnu).
  unfold in_h. rewrite ER. cbn [bind]. rewrite EN. cbn [bind].
  rewrite pydiv_Ok by lra. cbn [bind].
  exists nu. split; [exact Hnu | reflexivity].
Qed.

(** X11.  With air of positive viscosity and conductivity, a positive
    absolute temperature, a positive height and a positive inside
    emissivity, the detailed indoor coefficient is defined at every angle
    and is at least its radiative term, hence positive: the indoor film
    resistance [1 / in_h] never divides by zero. *)
Theorem in_h_positive (_air : air_model)
    (e t_kelvin delta_t height angle pressure : R) :
  air_positive _air -> 0 < e -> 0 < t_kelvin -> 0 < height ->
  exists h,
    in_h _air (Ok e) t_kelvin delta_t height angle pressure = Ok h
    /\ 4 * 5.6697e-8 * e * t_kelvin ^ 3 <= h
    /\ 0 < h.
Proof.
  intros Hair He Ht Hh. destruct (Hair t_kelvin Ht) as [Hmu Hk].
  destruct (in_h_found _air e t_kelvin delta_t height angle pressure
              Hair Ht Hh) as (nu & Hnu & E).
  rewrite E. eexists; split; [reflexivity |].
  assert (Hq : 0 <= conductivity_at_temperature _air t_kelvin / height)
    by (apply Rlt_le, Rdiv_lt_0_compat; assumption).
  assert (Hc : 0 <= nu * (conductivity_at_temperature _air t_kelvin
                          / height))
    by (apply Rmult_le_pos; assumption).
  assert (Hrad : 0 < 4 * 5.6697e-8 * e * t_kelvin ^ 3).
  { apply Rmult_lt_0_compat; [| apply pow_lt; exact Ht].
    apply Rmult_lt_0_compat; [lra | exact He]. }
  lra.
Qed.

Lemma in_h_positive_witness :
  exists h,
    in_h generic_air (Ok 0.84) 293.15 15 1.0 45 101325 = Ok h
    /\ 4 * 5.6697e-8 * 0.84 * 293.15 ^ 3 <= h
    /\ 0 < h.
Proof.
  apply (in_h_positive generic_air 0.84 293.15 15 1.0 45 101325).
  - exact generic_air_positive.
  - lra.
  - lra.
  - lra.
Defined.

Lemma pydiv_opp (a b : R) :
  pydiv (- a) b = do q <- pydiv a b ; Ok (- q).
Proof.
  unfold pydiv. destruct (Req_dec_T b 0); [reflexivity |].
  simpl. f_equal. unfold Rdiv. lra.
Qed.

(** X12.  The indoor coefficient sees the temperature difference through
    its absolute value only: [in_h] gives the same outcome for [delta_t]
    and for [- delta_t], whatever the other arguments are. *)
Theorem in_h_even (_air : air_model) (inside_emissivity : res R)
    (t_kelvin delta_t height angle pressure : R) :
  in_h _air inside_emissivity t_kelvin (- delta_t) height angle pressure
  = in_h _air inside_emissivity t_kelvin delta_t height angle pressure.
Proof.
  unfold in_h. f_equal. unfold rayleigh.
  replace (density_at_temperature _air t_kelvin pressure ^ 2 * height ^ 3
           * 9.81 * specific_heat_at_temperature _air t_kelvin * - delta_t)
    with (- (density_at_temperature _air t_kelvin pressure ^ 2 * height ^ 3
             * 9.81 * specific_heat_at_temperature _air t_kelvin * delta_t))
    by lra.
  rewrite pydiv_opp.
  destruct (pydiv _ _) as [q | x |]; simpl; [| reflexivity | reflexivity].
  now rewrite Rabs_Ropp.
Qed.

Lemma nusselt_zero (angle : R) : nusselt 0 angle = Ok 0.
Proof.
  assert (Z : forall y, float_pow 0 y = 0).
  { intros y. unfold float_pow. destruct (Rle_dec 0 0); [reflexivity | lra]. }
  unfold nusselt.
  destruct (Rlt_dec angle 15) as [H15 | H15].
  { rewrite Z. f_equal. lra. }
  destruct (Rle_dec angle 90) as [H90 | H90].
  { destruct (rayleigh_c_found angle ltac:(lra)) as (rc & -> & Hrc).
    cbn [bind]. destruct (Rlt_dec 0 rc) as [_ | G]; [| lra].
    rewrite Rmult_0_l, Z. f_equal. lra. }
  destruct (Rle_dec angle 179) as [H179 | H179].
  { unfold nusselt_inclined. rewrite Rmult_0_l, Z. f_equal. lra. }
  rewrite Z. f_equal. lra.
Qed.

(** X13.  Without a temperature difference there is no convection: at
    [delta_t = 0] the indoor coefficient is its radiative term
    [4 * 5.6697e-8 * e * t_kelvin ** 3] alone, at every angle. *)
Theorem in_h_still_air (_air : air_model)
    (e t_kelvin height angle pressure : R) :
  air_positive _air -> 0 < t_kelvin -> height <> 0 ->
  in_h _air (Ok e) t_kelvin 0 height angle pressure
  = Ok (4 * 5.6697e-8 * e * t_kelvin ^ 3).
Proof.
  intros Hair Ht Hh. destruct (Hair t_kelvin Ht) as [Hmu Hk].
  unfold in_h, rayleigh. rewrite pydiv_Ok.
  2:{ apply Rmult_integral_contrapositive_currified;
        [apply Rmult_integral_contrapositive_currified |]; lra. }
  cbn [bind].
  replace (Rabs _) with 0.
  2:{ rewrite Rmult_0_r. unfold Rdiv. rewrite Rmult_0_l.
      symmetry; apply Rabs_R0. }
  rewrite nusselt_zero. cbn [bind]. rewrite pydiv_Ok by exact Hh.
  cbn [bind]. f_equal. lra.
Qed.

Lemma in_h_still_air_witness :
  in_h generic_air (Ok 0.84) 293.15 0 1.0 90 101325
  = Ok (4 * 5.6697e-8 * 0.84 * 293.15 ^ 3).
Proof.
  apply (in_h_still_air generic_air 0.84 293.15 1.0 90 101325).
  - exact generic_air_positive.
  - lra.
  - lra.
Defined.

(** ** Resistances and conductances of an opaque construction *)

Lemma opaque_init_opaque (mats : list material) (c : OpaqueConstruction.t) :
  OpaqueConstruction.__init__ mats = Ok c ->
  Forall (fun m => is_opaque_base m = true) mats.
Proof.
  unfold OpaqueConstruction.__init__, OpaqueConstruction.materials_setter.
  intros H. inv_bind H. destruct a. now apply check_opaque_Forall.
Qed.

Lemma r_values_of_opaque (mats : list material) :
  Forall (fun m => is_opaque_base m = true) mats ->
  exists rs, r_values_of mats = Ok rs /\ length rs = length mats.
Proof.
  induction 1 as [| m mats Hm _ (rs & E & L)]; simpl.
  - exists []; split; reflexivity.
  - destruct m; try discriminate. simpl. rewrite E. simpl.
    eexists; split; [reflexivity | simpl; now rewrite L].
Qed.

Lemma opaque_inside_emissivity (mats : list material) :
  mats <> [] ->
  Forall (fun m => is_opaque_base m = true) mats ->
  exists pre r a,
    mats = pre ++ [OpaqueMaterial r a]
    /\ OpaqueConstruction.inside_emissivity
         {| OpaqueConstruction._materials := mats |} = Ok a.
Proof.
  intros Hne Hop.
  destruct (exists_last Hne) as (pre & z & ->).
  apply Forall_app in Hop as [_ Hz]. apply Forall_inv in Hz.
  destruct z as [r a | | | |]; try discriminate.
  exists pre, r, a. split; [reflexivity |].
  unfold OpaqueConstruction.inside_emissivity, OpaqueConstruction.materials.
  simpl. now rewrite getitem_last.
Qed.

(** X14.  On every accepted opaque construction [r_value] returns the sum
    of the layers' resistances, and [r_factor] adds the two standard films
    to it, [1 / 23] outdoors and [1 / (3.6 + 4.4 * e / 0.84)] indoors for
    the absorptance [e] of the last layer; it raises a
    [ZeroDivisionError] exactly when that indoor coefficient is zero. *)
Theorem opaque_r_factor_films (mats : list material)
    (c : OpaqueConstruction.t) :
  OpaqueConstruction.__init__ mats = Ok c ->
  exists rs e,
    r_values_of mats = Ok rs
    /\ length rs = length mats
    /\ OpaqueConstruction.r_value c = Ok (sum rs)
    /\ OpaqueConstruction.inside_emissivity c = Ok e
    /\ OpaqueConstruction.r_factor c
       = (if Req_dec_T (3.6 + 4.4 * e / 0.84) 0
          then Raise ZeroDivisionError
          else Ok (sum rs + 1 / 23 + 1 / (3.6 + 4.4 * e / 0.84))).
Proof.
  intros H. assert (Hop := opaque_init_opaque mats c H).
  destruct (opaque_init_Ok mats c H) as [Hlen ->].
  destruct (r_values_of_opaque mats Hop) as (rs & Ers & Lrs).
  destruct (opaque_inside_emissivity mats) as (pre & r & a & _ & Ea);
    [intros ->; simpl in Hlen; lia | exact Hop |].
  exists rs, a. split; [exact Ers | split; [exact Lrs |]].
  assert (Ev : OpaqueConstruction.r_value
                 {| OpaqueConstruction._materials := mats |} = Ok (sum rs)).
  { unfold OpaqueConstruction.r_value, OpaqueConstruction.materials.
    simpl. now rewrite Ers. }
  split; [exact Ev | split; [exact Ea |]].
  unfold OpaqueConstruction.r_factor.
  rewrite (pydiv_Ok 1 out_h_simple out_h_simple_nonzero), Ea, Ev.
  cbn [bind]. unfold in_h_simple, pydiv, out_h_simple.
  destruct (Req_dec_T (3.6 + 4.4 * a / 0.84) 0); reflexivity.
Qed.

Lemma opaque_r_factor_films_witness :
  exists rs e,
    r_values_of [concrete; concrete] = Ok rs
    /\ length rs = 2%nat
    /\ OpaqueConstruction.r_value
         {| OpaqueConstruction._materials := [concrete; concrete] |}
       = Ok (sum rs)
    /\ OpaqueConstruction.inside_emissivity
         {| OpaqueConstruction._materials := [concrete; concrete] |} = Ok e
    /\ OpaqueConstruction.r_factor
         {| OpaqueConstruction._materials := [concrete; concrete] |}
       = (if Req_dec_T (3.6 + 4.4 * e / 0.84) 0
          then Raise ZeroDivisionError
          else Ok (sum rs + 1 / 23 + 1 / (3.6 + 4.4 * e / 0.84))).
Proof.
  exact (opaque_r_factor_films [concrete; concrete]
           {| OpaqueConstruction._materials := [concrete; concrete] |}
           eq_refl).
Defined.

(** X15.  When the resistance without films [V] is not negative and the
    inside emissivity is not negative, [u_factor] returns a conductance
    that is positive, is the reciprocal of [V] plus the two films, and lies
    below the outdoor coefficient 23 and below the indoor coefficient;
    [u_value] then is above it when [V > 0] and raises a
    [ZeroDivisionError] when [V = 0]. *)
Theorem opaque_u_factor_bounds (c : OpaqueConstruction.t) (V e : R) :
  OpaqueConstruction.r_value c = Ok V ->
  OpaqueConstruction.inside_emissivity c = Ok e ->
  0 <= V -> 0 <= e ->
  exists U,
    OpaqueConstruction.u_factor c = Ok U
    /\ U = 1 / (V + 1 / 23 + 1 / in_h_simple e)
    /\ 0 < U < 23
    /\ U < in_h_simple e
    /\ (0 < V ->
        OpaqueConstruction.u_value c = Ok (1 / V) /\ U < 1 / V)
    /\ (V = 0 ->
        OpaqueConstruction.u_value c = Raise ZeroDivisionError).
Proof.
  intros Ev Ee HV He.
  assert (Hin : 3.6 <= in_h_simple e).
  { unfold in_h_simple.
    assert (0 <= 4.4 * e / 0.84)
      by (apply Rmult_le_pos; [apply Rmult_le_pos; lra | lra]).
    lra. }
  assert (Hri : 0 < 1 / in_h_simple e)
    by (apply Rdiv_lt_0_compat; lra).
  set (F := V + 1 / 23 + 1 / in_h_simple e).
  assert (HF : 0 < F) by (unfold F; lra).
  exists (1 / F).
  unfold OpaqueConstruction.u_factor, OpaqueConstruction.r_factor,
    OpaqueConstruction.u_value.
  rewrite (pydiv_Ok 1 out_h_simple out_h_simple_nonzero), Ee, Ev.
  cbn [bind]. rewrite (pydiv_Ok 1 (in_h_simple e)) by lra. cbn [bind].
  unfold out_h_simple. fold F. rewrite (pydiv_Ok 1 F) by lra.
  split; [reflexivity | split; [reflexivity |]].
  assert (HU : 0 < 1 / F) by (apply Rdiv_lt_0_compat; lra).
  assert (H23 : 1 / F < 23).
  { apply share_below; [exact HF |]. unfold F. lra. }
  assert (Hlt : 1 / F < in_h_simple e).
  { apply share_below; [exact HF |]. unfold F.
    assert (in_h_simple e * (1 / in_h_simple e) = 1) by (field; lra).
    assert (0 <= in_h_simple e * V) by (apply Rmult_le_pos; lra).
    nra. }
  split; [lra | split; [exact Hlt | split]].
  - intros HVpos. rewrite (pydiv_Ok 1 V) by lra.
    split; [reflexivity |].
    unfold Rdiv; rewrite !Rmult_1_l.
    apply Rinv_lt_contravar; [apply Rmult_lt_0_compat; lra |].
    unfold F; lra.
  - intros ->. apply pydiv_zero.
Qed.

Lemma opaque_u_factor_bounds_witness :
  exists U,
    OpaqueConstruction.u_factor concrete_wall = Ok U
    /\ U = 1 / (sum [0.5] + 1 / 23 + 1 / in_h_simple 0.9)
    /\ 0 < U < 23.
Proof.
  assert (Hv : OpaqueConstruction.r_value concrete_wall = Ok (sum [0.5]))
    by reflexivity.
  assert (He : OpaqueConstruction.inside_emissivity concrete_wall = Ok 0.9)
    by reflexivity.
  destruct (opaque_u_factor_bounds concrete_wall (sum [0.5]) 0.9 Hv He
              ltac:(unfold sum; simpl; lra) ltac:(lra))
    as (U & E & F & B & _).
  exists U. split; [exact E | split; [exact F | exact B]].
Defined.

(** ** The temperature profile of an opaque construction *)

Lemma sum_app (l1 l2 : list R) : sum (l1 ++ l2) = sum l1 + sum l2.
Proof.
  induction l1 as [| x l1 IH]; simpl.
  - rewrite sum_nil; lra.
  - rewrite !sum_cons, IH; lra.
Qed.

Lemma sum_snoc (l : list R) (x : R) : sum (l ++ [x]) = sum l + x.
Proof. rewrite sum_app, sum_cons, sum_nil; lra. Qed.

Lemma sum_nonneg (l : list R) : Forall (fun r => 0 <= r) l -> 0 <= sum l.
Proof.
  induction 1 as [| x l Hx _ IH]; [rewrite sum_nil | rewrite sum_cons]; lra.
Qed.

Lemma accumulate_shape (delta_t r_factor : R) (r_values : list R) :
  forall t : R,
    length (accumulate t delta_t r_factor r_values) = S (length r_values)
    /\ nth 0 (accumulate t delta_t r_factor r_values) 0 = t
    /\ last (accumulate t delta_t r_factor r_values) 0
       = t + delta_t * (sum r_values / r_factor).
Proof.
  induction r_values as [| r rest IH]; intros t.
  - simpl. rewrite sum_nil. repeat split. unfold Rdiv. lra.
  - destruct (IH (t + delta_t * (r / r_factor))) as (L & _ & Z).
    repeat split.
    + simpl. now rewrite L.
    + change (accumulate t delta_t r_factor (r :: rest))
        with (t :: accumulate (t + delta_t * (r / r_factor)) delta_t
                     r_factor rest).
      destruct (accumulate (t + delta_t * (r / r_factor)) delta_t r_factor
                  rest) as [| y l] eqn:E; [discriminate L |].
      change (last (t :: y :: l) 0) with (last (y :: l) 0).
      rewrite Z, sum_cons. unfold Rdiv. lra.
Qed.

Lemma film_positive (nu k height e t_kelvin : R) :
  0 <= nu -> 0 < k -> 0 < height -> 0 < e -> 0 < t_kelvin ->
  0 < nu * (k / height) + 4 * 5.6697e-8 * e * t_kelvin ^ 3.
Proof.
  intros Hnu Hk Hh He Ht.
  assert (Hq : 0 <= k / height) by (apply Rlt_le, Rdiv_lt_0_compat; lra).
  assert (Hc : 0 <= nu * (k / height)) by (apply Rmult_le_pos; assumption).
  assert (Hrad : 0 < 4 * 5.6697e-8 * e * t_kelvin ^ 3).
  { apply Rmult_lt_0_compat; [| apply pow_lt; exact Ht].
    apply Rmult_lt_0_compat; [lra | exact He]. }
  lra.
Qed.

Lemma r_values_of_physical (mats : list material) :
  Forall physical_layer mats ->
  exists rs, r_values_of mats = Ok rs
             /\ length rs = length mats
             /\ Forall (fun r => 0 <= r) rs.
Proof.
  induction 1 as [| m mats Hm _ (rs & E & L & P)]; simpl.
  - exists []; repeat split. constructor.
  - destruct m as [r a | | | |]; try contradiction. destruct Hm as [Hr _].
    simpl. rewrite E. simpl.
    eexists; split; [reflexivity | split; [simpl; now rewrite L |]].
    now constructor.
Qed.

Lemma set_last_snoc (l : list R) (x y : R) :
  set_last (l ++ [x]) y = Ok (l ++ [y]).
Proof.
  unfold set_last. destruct (l ++ [x]) eqn:E.
  - now apply app_eq_nil in E as [_ E].
  - rewrite <- E. now rewrite removelast_last.
Qed.

(** What [temperature_profile] computes for an opaque construction of
    physical layers: the resistances, and the profile as the plain
    recursion over them. *)
Lemma opaque_profile_physical (_air : air_model)
    (mats : list material) (c : OpaqueConstruction.t)
    (T_out T_in wind_speed height angle pressure : R) :
  OpaqueConstruction.__init__ mats = Ok c ->
  Forall physical_layer mats ->
  air_positive _air ->
  0 <= wind_speed -> 0 < height ->
  0 < T_out + 273.15 -> 0 < T_in + 273.15 ->
  (T_out - T_in) / 2 < T_in + 273.15 ->
  exists e_out layer_rs r_in,
    OpaqueConstruction.outside_emissivity c = Ok e_out
    /\ r_values_of mats = Ok layer_rs
    /\ length layer_rs = length mats
    /\ Forall (fun r => 0 <= r) layer_rs
    /\ 0 < r_in
    /\ 0 < 1 / out_h e_out wind_speed (T_out + 273.15)
    /\ OpaqueConstruction.temperature_profile _air c T_out T_in wind_speed
         height angle pressure
       = Ok (accumulate T_out (T_in - T_out)
               (sum (1 / out_h e_out wind_speed (T_out + 273.15)
                     :: layer_rs ++ [r_in]))
               (1 / out_h e_out wind_speed (T_out + 273.15)
                :: layer_rs ++ [r_in]),
             1 / out_h e_out wind_speed (T_out + 273.15)
             :: layer_rs ++ [r_in]).
Proof.
  intros H Hphys Hair Hw Hh Hto Hti Hfilm.
  assert (Hop := opaque_init_opaque mats c H).
  destruct (opaque_init_Ok mats c H) as [Hlen ->].
  destruct (r_values_of_physical mats Hphys) as (rs & Ers & Lrs & Prs).
  destruct (opaque_inside_emissivity mats) as (pre & rl & al & Em & Ea);
    [intros ->; simpl in Hlen; lia | exact Hop |].
  assert (Hal : 0 < al).
  { rewrite Em in Hphys. apply Forall_app in Hphys as [_ Hz].
    apply Forall_inv in Hz. now destruct Hz. }
  destruct mats as [| first rest]; [simpl in Hlen; lia |].
  assert (Hfirst := Forall_inv Hphys).
  destruct first as [rf af | | | |]; try contradiction.
  destruct Hfirst as [_ Haf].
  set (c := {| OpaqueConstruction._materials := OpaqueMaterial rf af :: rest |})
    in *.
  assert (Eo : OpaqueConstruction.outside_emissivity c = Ok af)
    by reflexivity.
  assert (Hin : 3.6 < in_h_simple al).
  { unfold in_h_simple.
    assert (0 < 4.4 * al / 0.84)
      by (apply Rmult_lt_0_compat; [apply Rmult_lt_0_compat; lra | lra]).
    lra. }
  assert (Hout := out_h_pos af wind_speed (T_out + 273.15)
                    ltac:(lra) Hw ltac:(lra)).
  set (in_r_init := 1 / in_h_simple al).
  set (out_r := 1 / out_h af wind_speed (T_out + 273.15)).
  assert (Hri : 0 < in_r_init)
    by (apply Rdiv_lt_0_compat; lra).
  assert (Hro : 0 < out_r) by (apply Rdiv_lt_0_compat; lra).
  assert (Hrs := sum_nonneg rs Prs).
  assert (Esum : sum ([out_r] ++ rs ++ [in_r_init])
                 = out_r + sum rs + in_r_init).
  { change ([out_r] ++ rs ++ [in_r_init]) with (out_r :: rs ++ [in_r_init]).
    rewrite sum_cons, sum_snoc. lra. }
  set (S0 := sum ([out_r] ++ rs ++ [in_r_init])) in *.
  assert (HS0 : 0 < S0) by lra.
  set (q := in_r_init / S0).
  assert (Hq : 0 < q <= 1).
  { split; [apply Rdiv_lt_0_compat; lra |].
    unfold q.
    apply Rmult_le_reg_r with S0; [exact HS0 |].
    unfold Rdiv. rewrite Rmult_assoc, Rinv_l by lra. lra. }
  set (in_delta_t := q * (T_out - T_in)).
  set (t_k := T_in - in_delta_t / 2 + 273.15).
  assert (Htk : 0 < t_k).
  { unfold t_k, in_delta_t.
    destruct (Rle_dec (T_out - T_in) 0) as [Hneg | Hpos].
    - assert (q * (T_out - T_in) <= 0) by nra. lra.
    - assert (q * (T_out - T_in) <= T_out - T_in) by nra. lra. }
  destruct (in_h_found _air al t_k in_delta_t height
              (flip_angle angle T_out T_in) pressure Hair Htk Hh)
    as (nu & Hnu & Eh).
  destruct (Hair t_k Htk) as [_ Hk].
  assert (Hh_pos := film_positive nu (conductivity_at_temperature _air t_k)
                      height al t_k Hnu Hk Hh Hal Htk).
  set (h := nu * (conductivity_at_temperature _air t_k / height)
            + 4 * 5.6697e-8 * al * t_k ^ 3) in *.
  assert (Hr_in : 0 < 1 / h) by (apply Rdiv_lt_0_compat; lra).
  assert (Esum' : sum (out_r :: rs ++ [1 / h]) = out_r + sum rs + 1 / h)
    by (rewrite sum_cons, sum_snoc; lra).
  assert (HS1 : sum (out_r :: rs ++ [1 / h]) <> 0) by lra.
  exists af, rs, (1 / h).
  split; [exact Eo | split; [exact Ers | split; [exact Lrs |]]].
  split; [exact Prs | split; [exact Hr_in | split; [exact Hro |]]].
  unfold OpaqueConstruction.temperature_profile,
    OpaqueConstruction.temperature_profile_body.
  rewrite Ea. cbn [bind].
  rewrite (pydiv_Ok 1 (in_h_simple al)) by lra. cbn [bind].
  rewrite Eo. cbn [bind].
  rewrite (pydiv_Ok 1 (out_h af wind_speed (T_out + 273.15))) by lra.
  cbn [bind].
  change (OpaqueConstruction.materials c)
    with (OpaqueMaterial rf af :: rest).
  rewrite Ers. cbn [bind].
  fold in_r_init out_r. fold S0.
  rewrite (pydiv_Ok in_r_init S0) by lra. cbn [bind].
  fold q in_delta_t t_k. rewrite Eh. cbn [bind].
  rewrite (pydiv_Ok 1 h) by lra. cbn [bind].
  change ([out_r] ++ rs ++ [in_r_init])
    with ((out_r :: rs) ++ [in_r_init]).
  rewrite set_last_snoc. cbn [bind].
  change ((out_r :: rs) ++ [1 / h]) with (out_r :: rs ++ [1 / h]).
  rewrite (temperature_profile_accumulate _ _ _ HS1). reflexivity.
Qed.



(** ** What the layered solve keeps and how it can fail *)

Lemma divides_or_bind {A B : Type} (m : res A) (f : A -> res B)
    (P : A -> Prop) (Q : B -> Prop) :
  divides_or m P -> (forall a, P a -> divides_or (f a) Q) ->
  divides_or (bind m f) Q.
Proof. destruct m; simpl; auto. Qed.

Lemma diverges_or_bind {A B : Type} (m : res A) (f : A -> res B)
    (P : A -> Prop) (Q : B -> Prop) :
  divides_or m P -> (forall a, P a -> diverges_or (f a) Q) ->
  diverges_or (bind m f) Q.
Proof. destruct m; simpl; auto; contradiction. Qed.

Lemma divides_or_weaken {A : Type} (m : res A) (P Q : A -> Prop) :
  divides_or m P -> (forall a, P a -> Q a) -> divides_or m Q.
Proof. destruct m; simpl; auto. Qed.

Lemma diverges_or_weaken {A : Type} (m : res A) (P Q : A -> Prop) :
  diverges_or m P -> (forall a, P a -> Q a) -> diverges_or m Q.
Proof. destruct m; simpl; auto. Qed.

Lemma divides_or_diverges {A : Type} (m : res A) (P : A -> Prop) :
  divides_or m P -> diverges_or m P.
Proof. destruct m; simpl; auto; contradiction. Qed.

Lemma pydiv_divides (a b : R) : divides_or (pydiv a b) (fun q => q = a / b).
Proof. unfold pydiv. destruct (Req_dec_T b 0); simpl; reflexivity. Qed.

Lemma getitem_Z {A : Type} (l : list A) (z : Z) (d : A) :
  (0 <= z < Z.of_nat (length l))%Z ->
  getitem l z = Ok (nth (Z.to_nat z) l d).
Proof.
  intros Hz. rewrite <- (Z2Nat.id z) at 1 by lia.
  apply getitem_nat, nth_error_nth'. lia.
Qed.

Lemma getitem_from_end {A : Type} (l : list A) (z : Z) (d : A) :
  (- Z.of_nat (length l) <= z < 0)%Z ->
  getitem l z = Ok (nth (Z.to_nat (z + Z.of_nat (length l))) l d).
Proof.
  intros Hz. unfold getitem.
  replace (z <? 0)%Z with true by (symmetry; apply Z.ltb_lt; lia).
  replace ((z + Z.of_nat (length l) <? 0)
           || (Z.of_nat (length l) <=? z + Z.of_nat (length l)))%Z
    with false.
  2:{ symmetry. apply orb_false_iff. split;
        [apply Z.ltb_ge | apply Z.leb_gt]; lia. }
  rewrite (nth_error_nth' l d) by lia. reflexivity.
Qed.

Lemma in_h_divides (_air : air_model) (e : R)
    (t_kelvin delta_t height angle pressure : R) :
  divides_or (in_h _air (Ok e) t_kelvin delta_t height angle pressure)
    (fun _ => True).
Proof.
  unfold in_h, rayleigh.
  apply divides_or_bind with (P := fun _ => True).
  { apply divides_or_bind with (P := fun _ => True);
      [eapply divides_or_weaken; [apply pydiv_divides | easy] | easy]. }
  intros Ra _.
  destruct (nusselt_found Ra angle) as (nu & -> & _). cbn [bind].
  apply divides_or_bind with (P := fun _ => True);
    [eapply divides_or_weaken; [apply pydiv_divides | easy] | easy].
Qed.

(** What the loop of the seed build leaves behind when it returns: one
    resistance and one emissivity entry per layer, each entry of the shape
    the refinement will ask for, each glazing layer with its own
    resistance. *)
Lemma initial_loop_shape (self : WindowConstruction.t) (delta_t avg : R) :
  forall (post : list material) (i : nat) (r_vals : list R)
         (emiss : list emiss_entry) (r' : list R) (e' : list emiss_entry),
    WindowConstruction.initial_loop self delta_t avg i post r_vals emiss
    = Ok (r', e') ->
    exists rs es,
      r' = r_vals ++ rs /\ e' = emiss ++ es
      /\ length rs = length post
      /\ entries_fit (length (WindowConstruction.materials self)) i post es
      /\ (forall k m, nth_error post k = Some m ->
            is_glazing_base m = true -> get_r_value m = Ok (nth k rs 0)).
Proof.
  set (n := length (WindowConstruction.materials self)).
  assert (Step : forall (m : material) (post : list material) (i : nat)
            (r_vals : list R) (emiss : list emiss_entry) (r : R)
            (entry : emiss_entry) (r' : list R) (e' : list emiss_entry),
            (exists rs es,
               r' = (r_vals ++ [r]) ++ rs /\ e' = (emiss ++ [entry]) ++ es
               /\ length rs = length post
               /\ entries_fit n (S i) post es
               /\ (forall k m, nth_error post k = Some m ->
                     is_glazing_base m = true ->
                     get_r_value m = Ok (nth k rs 0))) ->
            entry_fits n i m entry ->
            (is_glazing_base m = true -> get_r_value m = Ok r) ->
            exists rs es,
              r' = r_vals ++ rs /\ e' = emiss ++ es
              /\ length rs = length (m :: post)
              /\ entries_fit n i (m :: post) es
              /\ (forall k m', nth_error (m :: post) k = Some m' ->
                    is_glazing_base m' = true ->
                    get_r_value m' = Ok (nth k rs 0))).
  { intros m post i r_vals emiss r entry r' e'
      (rs & es & -> & -> & L & F & G) Hfit Hget.
    exists (r :: rs), (entry :: es).
    split; [now rewrite <- app_assoc |].
    split; [now rewrite <- app_assoc |].
    split; [simpl; now rewrite L |].
    split; [now constructor |].
    intros [| k] m' Hk Hg; simpl in Hk |- *.
    - injection Hk as <-. now apply Hget.
    - eauto. }
  induction post as [| m post IH]; intros i r_vals emiss r' e' H.
  - simpl in H. injection H as <- <-. exists [], [].
    rewrite !app_nil_r. repeat split; try constructor.
    intros [| k] m Hk; discriminate.
  - rewrite initial_loop_cons in H.
    destruct m as [r a | r e eb | r | g | s];
      cbn [is_glazing_base is_gas_base get_r_value bind] in H.
    + exfalso.
      destruct (i =? 0)%nat; [| destruct (Z.eqb _ _)];
        repeat inv_bind H; discriminate.
    + apply IH in H. eapply Step; [exact H | exact I | reflexivity].
    + apply IH in H. eapply Step; [exact H | exact I | reflexivity].
    + do 5 inv_bind H. apply IH in H.
      eapply Step; [exact H | simpl; eauto | discriminate].
    + destruct (i =? 0)%nat eqn:E0;
        [| destruct (Z.eqb_spec (Z.of_nat i) (Z.of_nat n - 1)) as [E1 | E1]].
      * do 3 inv_bind H. apply IH in H.
        eapply Step; [exact H | | discriminate].
        simpl. rewrite E0. simpl. eauto.
      * fold n in H.
        replace (Z.of_nat i =? Z.of_nat n - 1)%Z with true in H
          by (symmetry; now apply Z.eqb_eq).
        do 3 inv_bind H. apply IH in H.
        eapply Step; [exact H | | discriminate].
        simpl. replace (i =? n - 1)%nat with true
          by (symmetry; apply Nat.eqb_eq; lia).
        rewrite orb_true_r. eauto.
      * fold n in H.
        replace (Z.of_nat i =? Z.of_nat n - 1)%Z with false in H
          by (symmetry; now apply Z.eqb_neq).
        do 5 inv_bind H. apply IH in H.
        eapply Step; [exact H | | discriminate].
        simpl. rewrite E0.
        apply Nat.eqb_neq in E0.
        replace (i =? n - 1)%nat with false
          by (symmetry; apply Nat.eqb_neq; lia).
        simpl. eauto.
Qed.

Lemma refine_loop_cons (temperatures r_values_init : list R)
    (emiss : list emiss_entry) (height angle pressure : R) (n i : nat)
    (mat : material) (rest : list material) (r_vals : list R) :
  WindowConstruction.refine_loop temperatures r_values_init emiss height
    angle pressure n i (mat :: rest) r_vals
  = if is_glazing_base mat then
      do r <- getitem r_values_init (Z.of_nat i + 1) ;
      WindowConstruction.refine_loop temperatures r_values_init emiss
        height angle pressure n (S i) rest (r_vals ++ [r])
    else
      do t_1 <- getitem temperatures (Z.of_nat i + 1) ;
      do t_2 <- getitem temperatures (Z.of_nat i + 2) ;
      if is_gas_base mat then
        do g <- gas_of mat ;
        do entry <- getitem emiss (Z.of_nat i) ;
        do e_0 <- subscript entry 0 ;
        do e_1 <- subscript entry 1 ;
        do r <- pydiv 1 (gas_u_value_at_angle g (Rabs (t_1 - t_2)) e_0 e_1
                           height angle (((t_1 + t_2) / 2) + 273.15)
                           pressure) ;
        WindowConstruction.refine_loop temperatures r_values_init emiss
          height angle pressure n (S i) rest (r_vals ++ [r])
      else if (i =? 0)%nat then
        do s <- shade_of mat ;
        do entry <- getitem emiss (Z.of_nat i) ;
        do e <- as_float entry ;
        WindowConstruction.refine_loop temperatures r_values_init emiss
          height angle pressure n (S i) rest
          (r_vals ++ [shade_r_value_exterior s (Rabs (t_1 - t_2)) e
                        (Some height) (Some angle)
                        (((t_1 + t_2) / 2) + 273.15) (Some pressure)])
      else if (Z.of_nat i =? Z.of_nat n - 1)%Z then
        do s <- shade_of mat ;
        do entry <- getitem emiss (Z.of_nat i) ;
        do e <- as_float entry ;
        WindowConstruction.refine_loop temperatures r_values_init emiss
          height angle pressure n (S i) rest
          (r_vals ++ [shade_r_value_interior s (Rabs (t_1 - t_2)) e
                        (Some height) (Some angle)
                        (((t_1 + t_2) / 2) + 273.15) (Some pressure)])
      else
        do s <- shade_of mat ;
        do entry <- getitem emiss (Z.of_nat i) ;
        do e_0 <- subscript entry 0 ;
        do e_1 <- subscript entry 1 ;
        WindowConstruction.refine_loop temperatures r_values_init emiss
          height angle pressure n (S i) rest
          (r_vals ++ [shade_r_value_between s (Rabs (t_1 - t_2)) e_0 e_1
                        (Some height) (Some angle)
                        (((t_1 + t_2) / 2) + 273.15) (Some pressure)]).
Proof. reflexivity. Qed.

Lemma skipn_cons_nth {A : Type} (l : list A) :
  forall (i : nat) (x : A) (t : list A),
    skipn i l = x :: t -> nth_error l i = Some x /\ skipn (S i) l = t.
Proof.
  induction l as [| y l IH]; intros i x t H.
  - destruct i; discriminate.
  - destruct i as [| i]; simpl in H.
    + injection H as -> ->. split; reflexivity.
    + apply IH in H as [H1 H2]. split; assumption.
Qed.

Lemma getitem_plus1 (l : list R) (i : nat) :
  (S i < length l)%nat ->
  getitem l (Z.of_nat i + 1) = Ok (nth (S i) l 0).
Proof.
  intros H. rewrite (getitem_Z l _ 0) by lia.
  now replace (Z.to_nat (Z.of_nat i + 1)) with (S i) by lia.
Qed.

Lemma getitem_plus2 (l : list R) (i : nat) :
  (S (S i) < length l)%nat ->
  getitem l (Z.of_nat i + 2) = Ok (nth (S (S i)) l 0).
Proof.
  intros H. rewrite (getitem_Z l _ 0) by lia.
  now replace (Z.to_nat (Z.of_nat i + 2)) with (S (S i)) by lia.
Qed.

Lemma entries_fit_cons_inv (n i : nat) (m : material)
    (post : list material) (es : list emiss_entry) :
  entries_fit n i (m :: post) es ->
  exists entry es',
    es = entry :: es' /\ entry_fits n i m entry
    /\ entries_fit n (S i) post es'.
Proof. inversion 1; subst; eauto. Qed.

(** One pass of the refinement over the layers: with a temperature per
    boundary, a resistance per layer and film, and emissivity entries of
    the seed's shapes, every lookup finds its entry; each glazing layer
    keeps the resistance it had, and only the division of a gas layer can
    raise. *)
Lemma refine_loop_spec (temperatures r_values_init : list R)
    (emiss : list emiss_entry) (height angle pressure : R) (n : nat) :
  length temperatures = (n + 3)%nat ->
  length r_values_init = (n + 2)%nat ->
  forall (post : list material) (i : nat) (r_vals : list R)
         (es : list emiss_entry),
    (i + length post)%nat = n ->
    Forall (fun m => is_window_base m = true) post ->
    skipn i emiss = es ->
    entries_fit n i post es ->
    divides_or
      (WindowConstruction.refine_loop temperatures r_values_init emiss
         height angle pressure n i post r_vals)
      (fun r' => exists rs,
         r' = r_vals ++ rs /\ length rs = length post
         /\ forall k m, nth_error post k = Some m ->
              is_glazing_base m = true ->
              nth k rs 0 = nth (S (i + k)) r_values_init 0).
Proof.
  intros Lt Lr.
  assert (Step : forall (m : material) (post : list material) (i : nat)
            (r_vals : list R) (r : R) (out : res (list R)),
            divides_or out
              (fun r' => exists rs,
                 r' = (r_vals ++ [r]) ++ rs /\ length rs = length post
                 /\ forall k m, nth_error post k = Some m ->
                      is_glazing_base m = true ->
                      nth k rs 0 = nth (S (S i + k)) r_values_init 0) ->
            (is_glazing_base m = true -> r = nth (S i) r_values_init 0) ->
            divides_or out
              (fun r' => exists rs,
                 r' = r_vals ++ rs /\ length rs = length (m :: post)
                 /\ forall k m', nth_error (m :: post) k = Some m' ->
                      is_glazing_base m' = true ->
                      nth k rs 0 = nth (S (i + k)) r_values_init 0)).
  { intros m post i r_vals r out Hout Hget.
    eapply divides_or_weaken; [exact Hout |].
    intros r' (rs & -> & L & G). exists (r :: rs).
    split; [now rewrite <- app_assoc | split; [simpl; now rewrite L |]].
    intros [| k] m' Hk Hg; simpl in Hk |- *.
    - injection Hk as <-. rewrite Nat.add_0_r. now apply Hget.
    - replace (i + S k)%nat with (S i + k)%nat by lia. eauto. }
  induction post as [| m post IH]; intros i r_vals es Hi Hwin Hskip Hfit.
  - simpl. exists []. rewrite app_nil_r. repeat split.
    intros [| k] m Hk; discriminate.
  - destruct (entries_fit_cons_inv _ _ _ _ _ Hfit)
      as (entry & es' & -> & Hentry & Hrest).
    apply skipn_cons_nth in Hskip as [Hnth Hskip'].
    simpl in Hi.
    assert (Hw := Forall_inv Hwin). apply Forall_inv_tail in Hwin.
    assert (IH' := fun r_vals =>
              IH (S i) r_vals es' ltac:(lia) Hwin Hskip' Hrest).
    rewrite refine_loop_cons.
    destruct m as [r a | r e eb | r | g | s]; try discriminate;
      cbn [is_glazing_base is_gas_base].
    + rewrite getitem_plus1 by lia. cbn [bind].
      eapply Step; [apply IH' | reflexivity].
    + rewrite getitem_plus1 by lia. cbn [bind].
      eapply Step; [apply IH' | reflexivity].
    + rewrite getitem_plus1, getitem_plus2 by lia. cbn [bind gas_of].
      rewrite (getitem_nat _ _ _ Hnth). cbn [bind].
      destruct Hentry as (e_0 & e_1 & ->). cbn [subscript bind].
      eapply divides_or_bind; [apply pydiv_divides |].
      intros q _. eapply Step; [apply IH' | discriminate].
    + rewrite getitem_plus1, getitem_plus2 by lia. cbn [bind shade_of].
      rewrite (getitem_nat _ _ _ Hnth). cbn [bind].
      simpl in Hentry.
      destruct (i =? 0)%nat eqn:E0.
      * simpl in Hentry. destruct Hentry as (e & ->). cbn [as_float bind].
        eapply Step; [apply IH' | discriminate].
      * apply Nat.eqb_neq in E0. simpl in Hentry.
        destruct (Z.eqb_spec (Z.of_nat i) (Z.of_nat n - 1)) as [E1 | E1].
        -- replace (i =? n - 1)%nat with true in Hentry
             by (symmetry; apply Nat.eqb_eq; lia).
           destruct Hentry as (e & ->). cbn [as_float bind].
           eapply Step; [apply IH' | discriminate].
        -- replace (i =? n - 1)%nat with false in Hentry
             by (symmetry; apply Nat.eqb_neq; lia).
           destruct Hentry as (e_0 & e_1 & ->). cbn [subscript bind].
           eapply Step; [apply IH' | discriminate].
Qed.

Lemma panes_kept_refl (mats : list material) (a : list R) :
  panes_kept mats a a.
Proof. split; reflexivity. Qed.

Lemma panes_kept_trans (mats : list material) (a b c : list R) :
  panes_kept mats a b -> panes_kept mats b c -> panes_kept mats a c.
Proof.
  intros [A0 A] [B0 B]. split; [congruence |].
  intros k m Hk Hg. rewrite (A k m Hk Hg). exact (B k m Hk Hg).
Qed.

Section LayeredSolve.

Variable _air : air_model.
Variable self : WindowConstruction.t.
Variable inside_e : R.

Let mats := WindowConstruction.materials self.
Let n := length mats.

Hypothesis Hwindow : Forall (fun m => is_window_base m = true) mats.
Hypothesis Hinside : WindowConstruction.inside_emissivity self = Ok inside_e.

(** One refinement of the resistances: the vector keeps its length, its
    outdoor film and its glazing resistances; only a division can raise. *)
Lemma layered_r_value_spec (temperatures r_values_init : list R)
    (emiss : list emiss_entry) (height angle pressure : R) :
  length temperatures = (n + 3)%nat ->
  length r_values_init = (n + 2)%nat ->
  entries_fit n 0 mats emiss ->
  divides_or
    (WindowConstruction._layered_r_value _air self temperatures
       r_values_init emiss height angle pressure)
    (fun r' => length r' = (n + 2)%nat /\ panes_kept mats r' r_values_init).
Proof.
  intros Lt Lr Hfit.
  unfold WindowConstruction._layered_r_value.
  rewrite (getitem_Z r_values_init 0 0) by lia. cbn [bind].
  change (Z.to_nat 0) with 0%nat.
  eapply divides_or_bind.
  { exact (refine_loop_spec temperatures r_values_init emiss height angle
             pressure n Lt Lr mats 0 [nth 0 r_values_init 0] emiss
             eq_refl Hwindow eq_refl Hfit). }
  intros r_vals (rs & -> & Lrs & Hkept).
  rewrite (getitem_from_end temperatures (-1) 0) by lia.
  rewrite (getitem_from_end temperatures (-2) 0) by lia.
  cbn [bind]. fold mats in Hinside |- *. rewrite Hinside.
  eapply divides_or_bind; [apply in_h_divides |].
  intros h _.
  eapply divides_or_bind; [apply pydiv_divides |].
  intros r_in _. simpl. split.
  - rewrite length_app, Lrs. simpl. fold n. lia.
  - split; [reflexivity |].
    intros k m Hk Hg.
    assert (Hlt : (k < length rs)%nat).
    { rewrite Lrs. apply nth_error_Some. congruence. }
    change (nth k (rs ++ [r_in]) 0 = nth (S k) r_values_init 0).
    rewrite app_nth1 by exact Hlt. exact (Hkept k m Hk Hg).
Qed.

Lemma builder_divides (r_values : list R) (T_out T_in : R) :
  divides_or (_temperature_profile_from_r_values r_values T_out T_in)
    (fun temperatures => length temperatures = S (length r_values)).
Proof.
  destruct (Req_dec_T (sum r_values) 0) as [Hz | Hnz].
  - destruct r_values as [| r rest]; [reflexivity |].
    now rewrite temperature_profile_builder_zero_sum.
  - rewrite temperature_profile_accumulate by exact Hnz. simpl.
    apply accumulate_shape.
Qed.

Lemma refinement_step_spec (emiss : list emiss_entry)
    (T_out T_in height angle pressure : R) (r_values : list R) :
  length r_values = (n + 2)%nat ->
  entries_fit n 0 mats emiss ->
  divides_or
    (refinement_step _air self emiss T_out T_in height angle pressure
       r_values)
    (fun r' => length r' = (n + 2)%nat /\ panes_kept mats r' r_values).
Proof.
  intros Lr Hfit. unfold refinement_step.
  eapply divides_or_bind; [apply builder_divides |].
  intros temperatures Lt. simpl in Lt.
  apply layered_r_value_spec; [lia | exact Lr | exact Hfit].
Qed.

(** The loop of [temperature_profile], for as long as it is followed. *)
Lemma profile_loop_spec (emiss : list emiss_entry)
    (T_out T_in height angle pressure : R) :
  entries_fit n 0 mats emiss ->
  forall (fuel : nat) (r_last : R) (r_values : list R),
    length r_values = (n + 2)%nat ->
    diverges_or
      (WindowConstruction.profile_loop _air self T_out T_in height angle
         pressure emiss fuel r_last r_values)
      (fun r' => length r' = (n + 2)%nat /\ panes_kept mats r' r_values).
Proof.
  intros Hfit. induction fuel as [| fuel IH]; intros r_last r_values Lr.
  - simpl. destruct (Rgt_dec _ _); simpl;
      [exact I | split; [exact Lr | apply panes_kept_refl]].
  - rewrite profile_loop_unfold.
    destruct (Rgt_dec _ _);
      [| simpl; split; [exact Lr | apply panes_kept_refl]].
    eapply diverges_or_bind;
      [exact (refinement_step_spec emiss T_out T_in height angle pressure
                r_values Lr Hfit) |].
    intros r' [Lr' K'].
    eapply diverges_or_weaken; [exact (IH (sum r_values) r' Lr') |].
    intros r'' [Lr'' K'']. split; [exact Lr'' |].
    exact (panes_kept_trans mats r'' r' r_values K'' K').
Qed.

Lemma solve_r_values_spec (emiss : list emiss_entry) (fuel : nat)
    (r_values : list R) :
  entries_fit n 0 mats emiss ->
  length r_values = (n + 2)%nat ->
  diverges_or
    (WindowConstruction._solve_r_values _air self fuel r_values emiss)
    (fun r' => length r' = (n + 2)%nat /\ panes_kept mats r' r_values).
Proof.
  intros Hfit Lr. unfold WindowConstruction._solve_r_values.
  rewrite <- profile_loop_default.
  now apply profile_loop_spec.
Qed.

End LayeredSolve.

Lemma bind_OutOfFuel {A B : Type} (m : res A) (f : A -> res B) :
  bind m f = OutOfFuel ->
  m = OutOfFuel \/ exists a, m = Ok a /\ f a = OutOfFuel.
Proof.
  destruct m as [a | e |]; simpl; intros H.
  - right; eauto.
  - discriminate.
  - now left.
Qed.

Lemma getitem_returns {A : Type} (l : list A) (z : Z) :
  getitem l z <> OutOfFuel.
Proof.
  unfold getitem. destruct (_ || _)%bool; [discriminate |].
  destruct (nth_error _ _); discriminate.
Qed.

Lemma pydiv_returns (a b : R) : pydiv a b <> OutOfFuel.
Proof. unfold pydiv. destruct (Req_dec_T b 0); discriminate. Qed.

Lemma get_emissivity_returns (m : material) : get_emissivity m <> OutOfFuel.
Proof. destruct m; discriminate. Qed.

Lemma get_emissivity_back_returns (m : material) :
  get_emissivity_back m <> OutOfFuel.
Proof.
  destruct m as [| | | | s]; try discriminate.
  simpl. destruct (shade_emissivity_back s); discriminate.
Qed.

Lemma emissivity_back_or_front_returns (m : res material) :
  m <> OutOfFuel -> emissivity_back_or_front m <> OutOfFuel.
Proof.
  intros Hm. unfold emissivity_back_or_front.
  destruct m as [a | e |]; simpl; [| discriminate | contradiction].
  destruct (get_emissivity_back a) as [x | [] |] eqn:E; try discriminate.
  - apply get_emissivity_returns.
  - now apply get_emissivity_back_returns in E.
Qed.

Lemma gas_of_returns (m : material) : gas_of m <> OutOfFuel.
Proof. destruct m; discriminate. Qed.

Lemma shade_of_returns (m : material) : shade_of m <> OutOfFuel.
Proof. destruct m; discriminate. Qed.

Lemma get_r_value_returns (m : material) : get_r_value m <> OutOfFuel.
Proof. destruct m; discriminate. Qed.

(** The seed build has no loop of its own: it always returns or raises. *)
Lemma initial_loop_returns (self : WindowConstruction.t) (delta_t avg : R) :
  forall (post : list material) (i : nat) (r_vals : list R)
         (emiss : list emiss_entry),
    WindowConstruction.initial_loop self delta_t avg i post r_vals emiss
    <> OutOfFuel.
Proof.
  induction post as [| m post IH]; intros i r_vals emiss H;
    [discriminate |].
  rewrite initial_loop_cons in H.
  repeat match type of H with
         | (if ?b then _ else _) = OutOfFuel => destruct b
         | bind _ _ = OutOfFuel =>
             apply bind_OutOfFuel in H as [H | (? & _ & H)]
         end;
    first [ now apply IH in H
          | now apply getitem_returns in H
          | now apply pydiv_returns in H
          | now apply get_emissivity_returns in H
          | now apply get_emissivity_back_returns in H
          | now apply gas_of_returns in H
          | now apply shade_of_returns in H
          | now apply get_r_value_returns in H
          | now apply emissivity_back_or_front_returns in H;
              [| apply getitem_returns] ].
Qed.

(** The seed of an accepted window that is not a lone shade: a resistance
    per layer between the two films, emissivity entries of the shapes the
    refinement asks for, the outdoor film first, each glazing layer with
    its own resistance; only a division can raise. *)
Lemma seed_spec (mats : list material) (c : WindowConstruction.t)
    (gap_count : nat) (delta_t_guess avg_t_guess wind_speed e_out : R) :
  WindowConstruction.__init__ mats = Ok c ->
  (forall s, mats <> [Shade s]) ->
  WindowConstruction.outside_emissivity c = Ok e_out ->
  divides_or
    (WindowConstruction._layered_r_value_initial c gap_count delta_t_guess
       avg_t_guess wind_speed)
    (fun seed =>
       length (fst seed) = (length mats + 2)%nat
       /\ entries_fit (length mats) 0 mats (snd seed)
       /\ nth 0 (fst seed) 0
          = 1 / out_h e_out wind_speed (avg_t_guess - delta_t_guess)
       /\ forall k m, nth_error mats k = Some m ->
            is_glazing_base m = true ->
            get_r_value m = Ok (nth (S k) (fst seed) 0)).
Proof.
  intros H Hlone Ho.
  destruct (WindowConstruction._layered_r_value_initial c gap_count
              delta_t_guess avg_t_guess wind_speed)
    as [[r_vals emiss] | x |] eqn:E; simpl.
  - destruct (window_init_Ok mats c H) as (_ & _ & _ & _ & Em).
    unfold WindowConstruction._layered_r_value_initial,
      WindowConstruction.out_r in E.
    rewrite Ho in E. cbn [bind] in E.
    apply bind_Ok in E as (a & Ha & E).
    apply bind_Ok in E as (delta_t & _ & E).
    apply bind_Ok in E as ([r1 e1] & Hloop & E).
    apply bind_Ok in E as (a2 & _ & E).
    injection E as <- <-.
    apply initial_loop_shape in Hloop
      as (rs & es & -> & -> & Lrs & Hfit & Hget).
    rewrite Em in Lrs, Hfit, Hget.
    assert (E0 : a = 1 / out_h e_out wind_speed
                       (avg_t_guess - delta_t_guess)).
    { unfold pydiv in Ha. destruct (Req_dec_T _ 0); [discriminate |].
      now injection Ha. }
    split; [| split; [exact Hfit | split; [exact E0 |]]].
    + rewrite !length_app, Lrs. simpl. lia.
    + intros k m Hk Hg.
      assert (Hlt : (k < length rs)%nat).
      { rewrite Lrs. apply nth_error_Some. congruence. }
      change (([a] ++ rs) ++ [a2]) with (a :: rs ++ [a2]).
      change (nth (S k) (a :: rs ++ [a2]) 0) with (nth k (rs ++ [a2]) 0).
      rewrite app_nth1 by exact Hlt. exact (Hget k m Hk Hg).
  - exact (seed_lookups_in_bounds mats c gap_count delta_t_guess
             avg_t_guess wind_speed x H Hlone E).
  - unfold WindowConstruction._layered_r_value_initial,
      WindowConstruction.out_r, WindowConstruction.in_r_simple in E.
    rewrite Ho in E. cbn [bind] in E.
    destruct (inside_emissivity_found mats c H) as (ei & Hi).
    rewrite Hi in E. cbn [bind] in E.
    apply bind_OutOfFuel in E as [E | (? & _ & E)];
      [now apply pydiv_returns in E |].
    apply bind_OutOfFuel in E as [E | (? & _ & E)];
      [now apply pydiv_returns in E |].
    apply bind_OutOfFuel in E as [E | ([? ?] & _ & E)];
      [now apply initial_loop_returns in E |].
    apply bind_OutOfFuel in E as [E | (? & _ & E)];
      [now apply pydiv_returns in E | discriminate].
Qed.

(** ** Windows without a gap *)

Lemma shade_gaps_zero (mats : list material) :
  shade_gaps mats = 0%nat -> has_shade_layer mats = false.
Proof.
  destruct mats as [| first rest]; [reflexivity |]. simpl.
  destruct (is_shade_base first); [discriminate |].
  destruct (has_shade_layer rest); [discriminate | reflexivity].
Qed.

(** An accepted window counts no gap exactly when it is one glazing layer
    (a pane or a simple glazing system). *)
Lemma gapless_single (mats : list material) (c : WindowConstruction.t) :
  WindowConstruction.__init__ mats = Ok c ->
  (WindowConstruction.gap_count c = 0%nat
   <-> exists m, mats = [m] /\ is_glazing_base m = true).
Proof.
  intros H.
  assert (Eg : WindowConstruction.gap_count c
               = (gas_layers mats + shade_gaps mats)%nat).
  { destruct (window_init_Ok mats c H) as (_ & _ & _ & _ & E).
    unfold WindowConstruction.gap_count. rewrite E.
    exact (gap_count_loop_spec mats [] 0 (window_init_no_fault mats c H)
             eq_refl). }
  rewrite Eg. clear Eg. split.
  - intros Hz.
    assert (Hgas : gas_layers mats = 0%nat) by lia.
    assert (Hshade : has_shade_layer mats = false)
      by (apply shade_gaps_zero; lia).
    destruct (window_init_Ok mats c H)
      as (Hlen & _ & (lst & Hlast & Hlg) & V & _).
    assert (Hwin := validate_loop_window _ _ _ _ _ _ V).
    rewrite (window_init_record mats c H) in V. simpl in V.
    rewrite Hshade in V.
    destruct (Nat.eq_dec (length mats) 1) as [L1 | L1].
    + destruct mats as [| m [| m' mats]]; try discriminate.
      exists m. split; [reflexivity |].
      apply Forall_inv in Hwin. unfold gas_layers in Hgas.
      simpl in Hgas, Hshade.
      destruct m; try discriminate; reflexivity.
    + apply getitem_last_is_last in Hlast. subst lst.
      destruct (validate_loop_alternates _ mats 0 false L1 V Hlg)
        as [-> | [_ B]]; [simpl in Hlen; lia | lia].
  - intros (m & -> & Hg).
    destruct m; try discriminate; reflexivity.
Qed.

(** X17.  An accepted window counts no gap exactly when it is a single
    glazing layer.  Its [r_value] then is the layer's resistance and its
    [r_factor] adds [1 / 23] and [1 / (3.6 + 4.4 * e / 0.84)] for the
    inside emissivity [e], whatever the air model and without any
    iteration; the only failure is a [ZeroDivisionError] when the indoor
    coefficient is zero. *)
Theorem gapless_window_closed_form (mats : list material)
    (c : WindowConstruction.t) :
  WindowConstruction.__init__ mats = Ok c ->
  (WindowConstruction.gap_count c = 0%nat
   <-> exists m, mats = [m] /\ is_glazing_base m = true)
  /\ (WindowConstruction.gap_count c = 0%nat ->
      exists m r e,
        mats = [m]
        /\ get_r_value m = Ok r
        /\ WindowConstruction.inside_emissivity c = Ok e
        /\ forall (_air : air_model) (fuel : nat),
             WindowConstruction.r_value _air c fuel = Ok r
             /\ WindowConstruction.r_factor _air c fuel
                = (if Req_dec_T (3.6 + 4.4 * e / 0.84) 0
                   then Raise ZeroDivisionError
                   else Ok (r + 1 / 23 + 1 / (3.6 + 4.4 * e / 0.84)))).
Proof.
  intros H. split; [exact (gapless_single mats c H) |].
  intros Hz.
  destruct (proj1 (gapless_single mats c H) Hz) as (m & -> & Hg).
  destruct (inside_emissivity_found [m] c H) as (e & He).
  assert (Hr : exists r, get_r_value m = Ok r)
    by (destruct m; try discriminate; simpl; eauto).
  destruct Hr as (r & Hr).
  exists m, r, e.
  split; [reflexivity | split; [exact Hr | split; [exact He |]]].
  intros _air fuel.
  unfold WindowConstruction.r_value, WindowConstruction.r_factor,
    WindowConstruction.in_r_simple.
  rewrite Hz. cbn [Nat.eqb].
  rewrite (window_init_record [m] c H) in He |- *.
  cbn [WindowConstruction.materials WindowConstruction._materials].
  rewrite getitem_first. cbn [bind]. rewrite Hr. cbn [bind].
  split; [reflexivity |].
  rewrite (pydiv_Ok 1 out_h_simple out_h_simple_nonzero). cbn [bind].
  rewrite He. cbn [bind]. unfold in_h_simple, pydiv, out_h_simple.
  destruct (Req_dec_T (3.6 + 4.4 * e / 0.84) 0); reflexivity.
Qed.

Lemma gapless_window_closed_form_witness :
  WindowConstruction.gap_count single_pane = 0%nat
  /\ exists m r e,
       [clear_glass] = [m]
       /\ get_r_value m = Ok r
       /\ WindowConstruction.inside_emissivity single_pane = Ok e
       /\ forall (_air : air_model) (fuel : nat),
            WindowConstruction.r_value _air single_pane fuel = Ok r
            /\ WindowConstruction.r_factor _air single_pane fuel
               = (if Req_dec_T (3.6 + 4.4 * e / 0.84) 0
                  then Raise ZeroDivisionError
                  else Ok (r + 1 / 23 + 1 / (3.6 + 4.4 * e / 0.84))).
Proof.
  assert (Hz : WindowConstruction.gap_count single_pane = 0%nat)
    by reflexivity.
  exact (conj Hz
           (proj2 (gapless_window_closed_form [clear_glass] single_pane
                     eq_refl) Hz)).
Defined.

(** ** The layered solve on accepted windows *)

(** A lone shade has nothing to return from the seed build. *)
Lemma lone_shade_seed_fails (s : shade_methods) (has_shade : bool)
    (gap_count : nat) (delta_t_guess avg_t_guess wind_speed : R)
    (seed : list R * list emiss_entry) :
  WindowConstruction._layered_r_value_initial
    {| WindowConstruction._materials := [Shade s];
       WindowConstruction._has_shade := has_shade |}
    gap_count delta_t_guess avg_t_guess wind_speed <> Ok seed.
Proof.
  unfold WindowConstruction._layered_r_value_initial. intros E.
  apply bind_Ok in E as (r_0 & _ & E).
  apply bind_Ok in E as (delta_t & _ & E).
  apply bind_Ok in E as ([r1 e1] & Hloop & _).
  cbn [WindowConstruction.materials WindowConstruction._materials]
    in Hloop.
  rewrite initial_loop_cons in Hloop. discriminate Hloop.
Qed.

(** The seed build followed by the loop, on an accepted window that is not
    a lone shade. *)
Lemma layered_solve_spec (_air : air_model) (mats : list material)
    (c : WindowConstruction.t) (e_out : R) (fuel gap_count : nat)
    (T_out T_in height angle pressure delta_t_guess avg_t_guess
     wind_speed : R) :
  WindowConstruction.__init__ mats = Ok c ->
  (forall s, mats <> [Shade s]) ->
  WindowConstruction.outside_emissivity c = Ok e_out ->
  diverges_or
    (do seed <- WindowConstruction._layered_r_value_initial c gap_count
                  delta_t_guess avg_t_guess wind_speed ;
     WindowConstruction.profile_loop _air c T_out T_in height angle
       pressure (snd seed) fuel 0 (fst seed))
    (fun r_values =>
       length r_values = (length mats + 2)%nat
       /\ nth 0 r_values 0
          = 1 / out_h e_out wind_speed (avg_t_guess - delta_t_guess)
       /\ forall k m, nth_error mats k = Some m ->
            is_glazing_base m = true ->
            get_r_value m = Ok (nth (S k) r_values 0)).
Proof.
  intros H Hlone Ho.
  destruct (inside_emissivity_found mats c H) as (e_in & Hi).
  destruct (window_init_Ok mats c H) as (_ & _ & _ & V & Em).
  apply validate_loop_window in V.
  eapply diverges_or_bind;
    [exact (seed_spec mats c gap_count delta_t_guess avg_t_guess
              wind_speed e_out H Hlone Ho) |].
  intros [r_vals emiss] (L & F & Z & G). simpl in L, F, Z, G |- *.
  rewrite <- Em in V, F, L.
  eapply diverges_or_weaken;
    [exact (profile_loop_spec _air c e_in V Hi emiss T_out T_in height
              angle pressure F fuel 0 r_vals L) |].
  intros r' [L' [K0 K]]. rewrite Em in L', K.
  split; [exact L' | split; [congruence |]].
  intros k m Hk Hg. rewrite (K k m Hk Hg). exact (G k m Hk Hg).
Qed.

Lemma pair_bind {A B C : Type} (m : res (A * B)) (f : A -> B -> res C) :
  (do '(a, b) <- m ; f a b) = (do ab <- m ; f (fst ab) (snd ab)).
Proof. destruct m as [[a b] | |]; reflexivity. Qed.

Lemma diverges_or_then {A B : Type} (m : res A) (f : A -> res B)
    (P : A -> Prop) (Q : B -> Prop) :
  diverges_or m P -> (forall a, P a -> diverges_or (f a) Q) ->
  diverges_or (bind m f) Q.
Proof. destruct m; simpl; auto. Qed.

Lemma diverges_or_raise {A : Type} (m : res A) (P : A -> Prop) (x : exn) :
  diverges_or m P -> m = Raise x -> x = ZeroDivisionError.
Proof. intros H ->. exact H. Qed.

Lemma builder_shape (r_values temperatures : list R) (T_out T_in : R) :
  _temperature_profile_from_r_values r_values T_out T_in = Ok temperatures ->
  r_values <> [] ->
  length temperatures = S (length r_values)
  /\ nth 0 temperatures 0 = T_out
  /\ last temperatures 0 = T_in.
Proof.
  intros H Hne.
  destruct (Req_dec_T (sum r_values) 0) as [Hz | Hnz].
  - destruct r_values as [| r rest]; [easy |].
    now rewrite temperature_profile_builder_zero_sum in H.
  - rewrite temperature_profile_accumulate in H by exact Hnz.
    injection H as <-.
    destruct (accumulate_shape (T_in - T_out) (sum r_values) r_values T_out)
      as (L & Z & T).
    split; [exact L | split; [exact Z |]].
    rewrite T. field. exact Hnz.
Qed.

Lemma window_temperature_profile_spec (_air : air_model)
    (mats : list material) (c : WindowConstruction.t) (e_out : R)
    (fuel : nat) (T_out T_in wind_speed height angle pressure : R) :
  WindowConstruction.__init__ mats = Ok c ->
  (forall s, mats <> [Shade s]) ->
  WindowConstruction.outside_emissivity c = Ok e_out ->
  diverges_or
    (WindowConstruction.temperature_profile _air c fuel T_out T_in
       wind_speed height angle pressure)
    (profile_shape mats T_out T_in
       (1 / out_h e_out wind_speed
              (if (WindowConstruction.gap_count c =? 0)%nat
               then T_out + 273.15
               else WindowConstruction.avg_guess T_out T_in
                    - WindowConstruction.guess T_out T_in))).
Proof.
  intros H Hlone Ho.
  unfold WindowConstruction.temperature_profile,
    WindowConstruction.temperature_profile_body.
  destruct (WindowConstruction.gap_count c =? 0)%nat eqn:Egap.
  - apply Nat.eqb_eq in Egap.
    destruct (proj1 (gapless_single mats c H) Egap) as (m & -> & Hg).
    destruct (inside_emissivity_found [m] c H) as (e_in & Hi).
    assert (Hr : exists r, get_r_value m = Ok r)
      by (destruct m; try discriminate; simpl; eauto).
    destruct Hr as (r & Hr).
    unfold WindowConstruction.in_r_simple, WindowConstruction.out_r.
    rewrite Hi, Ho. cbn [bind].
    apply divides_or_diverges.
    eapply divides_or_bind; [apply pydiv_divides |]. intros in_r_init _.
    eapply divides_or_bind; [apply pydiv_divides |]. intros r_0 ->.
    rewrite (window_init_record [m] c H).
    cbn [WindowConstruction.materials WindowConstruction._materials].
    rewrite getitem_first. cbn [bind]. rewrite Hr. cbn [bind].
    eapply divides_or_bind; [apply pydiv_divides |]. intros q _.
    eapply divides_or_bind; [apply in_h_divides |]. intros h _.
    eapply divides_or_bind; [apply pydiv_divides |]. intros in_r _.
    cbn [set_last removelast app bind].
    destruct (_temperature_profile_from_r_values _ T_out T_in)
      as [temperatures | x |] eqn:Eb; simpl.
    + apply builder_shape in Eb as (L & Z & T); [| discriminate].
      unfold profile_shape. simpl.
      repeat split; try assumption.
      intros [| [| k]] m' Hk Hg'; try discriminate.
      simpl in Hk. injection Hk as <-. exact Hr.
    + eapply diverges_or_raise; [| exact Eb].
      apply divides_or_diverges, builder_divides.
    + assert (D := builder_divides
                     [1 / out_h e_out wind_speed (T_out + 273.15); r; in_r]
                     T_out T_in).
      rewrite Eb in D. exact D.
  - rewrite pair_bind.
    assert (S := layered_solve_spec _air mats c e_out fuel
                   (WindowConstruction.gap_count c) T_out T_in height
                   (flip_angle angle T_out T_in) pressure
                   (WindowConstruction.guess T_out T_in)
                   (WindowConstruction.avg_guess T_out T_in) wind_speed
                   H Hlone Ho).
    destruct (WindowConstruction._layered_r_value_initial c _ _ _ _)
      as [seed | x |]; cbn [bind] in S |- *; [| exact S | exact S].
    eapply diverges_or_then; [exact S |].
    intros r_values (L & Z & G).
    destruct (_temperature_profile_from_r_values r_values T_out T_in)
      as [temperatures | x |] eqn:Eb; simpl.
    + apply builder_shape in Eb as (Lt & Zt & Tt).
      2:{ intros ->. simpl in L. lia. }
      unfold profile_shape. simpl.
      repeat split; try assumption. lia.
    + eapply diverges_or_raise; [| exact Eb].
      apply divides_or_diverges, builder_divides.
    + exact I.
Qed.

Lemma lone_shade_profile_fails (_air : air_model) (s : shade_methods)
    (c : WindowConstruction.t) (fuel : nat)
    (T_out T_in wind_speed height angle pressure : R)
    (out : list R * list R) :
  WindowConstruction.__init__ [Shade s] = Ok c ->
  WindowConstruction.temperature_profile _air c fuel T_out T_in wind_speed
    height angle pressure <> Ok out.
Proof.
  intros H E. rewrite (window_init_record _ c H) in E.
  unfold WindowConstruction.temperature_profile,
    WindowConstruction.temperature_profile_body in E.
  change (WindowConstruction.gap_count _ =? 0)%nat with false in E.
  cbv iota in E.
  apply bind_Ok in E as (seed & Hseed & _).
  now apply lone_shade_seed_fails in Hseed.
Qed.



(** The solve behind [r_factor] and [r_value] of a window with gaps. *)
Lemma r_factor_via_loop (_air : air_model) (c : WindowConstruction.t)
    (fuel : nat) :
  WindowConstruction.gap_count c <> 0%nat ->
  WindowConstruction.r_factor _air c fuel
  = (do r_vals <-
       (do seed <- WindowConstruction._layered_r_value_initial c
                     (WindowConstruction.gap_count c) 15 273.15 6.7 ;
        WindowConstruction.profile_loop _air c (-18) 21 1.0 90.0 101325
          (snd seed) fuel 0 (fst seed)) ;
     Ok (sum r_vals))
  /\ WindowConstruction.r_value _air c fuel
     = (do r_vals <-
          (do seed <- WindowConstruction._layered_r_value_initial c
                        (WindowConstruction.gap_count c) 15 273.15 6.7 ;
           WindowConstruction.profile_loop _air c (-18) 21 1.0 90.0 101325
             (snd seed) fuel 0 (fst seed)) ;
        Ok (sum (WindowConstruction.interior_slice r_vals))).
Proof.
  intros Hg. apply Nat.eqb_neq in Hg.
  unfold WindowConstruction.r_factor, WindowConstruction.r_value.
  rewrite Hg.
  destruct (WindowConstruction._layered_r_value_initial c _ _ _ _)
    as [[r e] | |]; cbn [bind fst snd]; [| split; reflexivity ..].
  unfold WindowConstruction._solve_r_values.
  rewrite <- profile_loop_default. split; reflexivity.
Qed.

Lemma sum_by_parts (l : list R) :
  (2 <= length l)%nat ->
  sum l = nth 0 l 0 + sum (WindowConstruction.interior_slice l)
          + last l 0.
Proof.
  intros Hl. destruct l as [| a l]; [simpl in Hl; lia |].
  destruct (@exists_last _ l) as (mid & z & ->);
    [intros ->; simpl in Hl; lia |].
  unfold WindowConstruction.interior_slice.
  change (tl (a :: mid ++ [z])) with (mid ++ [z]).
  rewrite removelast_last.
  change (a :: mid ++ [z]) with ((a :: mid) ++ [z]).
  rewrite last_last, sum_snoc, sum_cons. simpl. lra.
Qed.



(** X20.  On an accepted window other than a lone shade, the three
    thermal queries find every layer, temperature, resistance, emissivity
    entry and attribute they look up: if [r_factor], [r_value] or
    [temperature_profile] raise at all, they raise a
    [ZeroDivisionError]. *)
Theorem window_fails_on_division_only (_air : air_model)
    (mats : list material) (c : WindowConstruction.t) (fuel : nat) :
  WindowConstruction.__init__ mats = Ok c ->
  (forall s, mats <> [Shade s]) ->
  (forall x, WindowConstruction.r_factor _air c fuel = Raise x ->
             x = ZeroDivisionError)
  /\ (forall x, WindowConstruction.r_value _air c fuel = Raise x ->
                x = ZeroDivisionError)
  /\ (forall x T_out T_in wind_speed height angle pressure,
        WindowConstruction.temperature_profile _air c fuel T_out T_in
          wind_speed height angle pressure = Raise x ->
        x = ZeroDivisionError).
Proof.
  intros H Hlone.
  destruct (outside_emissivity_found mats c H) as (e_out & Ho).
  assert (Hrf : diverges_or (WindowConstruction.r_factor _air c fuel)
                  (fun _ => True)
                /\ diverges_or (WindowConstruction.r_value _air c fuel)
                     (fun _ => True)).
  { destruct (Nat.eq_dec (WindowConstruction.gap_count c) 0) as [Hz | Hg].
    - destruct (proj1 (gapless_single mats c H) Hz) as (m & -> & Hgl).
      destruct (inside_emissivity_found [m] c H) as (e_in & Hi).
      assert (Hr : exists r, get_r_value m = Ok r)
        by (destruct m; try discriminate; simpl; eauto).
      destruct Hr as (r & Hr).
      unfold WindowConstruction.r_factor, WindowConstruction.r_value,
        WindowConstruction.in_r_simple.
      rewrite Hz, Hi. cbn [Nat.eqb].
      rewrite (window_init_record [m] c H).
      cbn [WindowConstruction.materials WindowConstruction._materials].
      rewrite getitem_first. cbn [bind]. rewrite Hr. cbn [bind].
      split; [| exact I].
      apply divides_or_diverges.
      eapply divides_or_bind; [apply pydiv_divides |]. intros ext_r _.
      eapply divides_or_bind; [apply pydiv_divides |]. intros int_r _.
      exact I.
    - destruct (r_factor_via_loop _air c fuel Hg) as [-> ->].
      assert (S := layered_solve_spec _air mats c e_out fuel
                     (WindowConstruction.gap_count c) (-18) 21 1.0 90.0
                     101325 15 273.15 6.7 H Hlone Ho).
      split; (eapply diverges_or_then; [exact S | intros; exact I]). }
  destruct Hrf as [Hf Hv].
  split; [| split].
  - intros x. now apply diverges_or_raise with (P := fun _ => True).
  - intros x. now apply diverges_or_raise with (P := fun _ => True).
  - intros x T_out T_in wind_speed height angle pressure.
    eapply diverges_or_raise.
    exact (window_temperature_profile_spec _air mats c e_out fuel T_out
             T_in wind_speed height angle pressure H Hlone Ho).
Qed.

Lemma window_fails_on_division_only_witness :
  WindowConstruction.__init__
    [plain_shade; clear_glass; plain_gap; clear_glass]
  = Ok {| WindowConstruction._materials :=
            [plain_shade; clear_glass; plain_gap; clear_glass];
          WindowConstruction._has_shade := true |}
  /\ (forall x,
        WindowConstruction.r_factor generic_air
          {| WindowConstruction._materials :=
               [plain_shade; clear_glass; plain_gap; clear_glass];
             WindowConstruction._has_shade := true |} 5 = Raise x ->
        x = ZeroDivisionError).
Proof.
  assert (H : WindowConstruction.__init__
                [plain_shade; clear_glass; plain_gap; clear_glass]
              = Ok {| WindowConstruction._materials :=
                        [plain_shade; clear_glass; plain_gap; clear_glass];
                      WindowConstruction._has_shade := true |})
    by reflexivity.
  exact (conj H
           (proj1 (window_fails_on_division_only generic_air _ _ 5 H
                     ltac:(discriminate)))).
Defined.

(** ** Windows of physical layers *)

Lemma never_divides_bind {A B : Type} (m : res A) (f : A -> res B)
    (P : A -> Prop) (Q : B -> Prop) :
  never_divides m P -> (forall a, P a -> never_divides (f a) Q) ->
  never_divides (bind m f) Q.
Proof. destruct m; simpl; auto. Qed.

Lemma never_divides_weaken {A : Type} (m : res A) (P Q : A -> Prop) :
  never_divides m P -> (forall a, P a -> Q a) -> never_divides m Q.
Proof. destruct m; simpl; auto. Qed.

Lemma divides_never {A : Type} (m : res A) (P Q : A -> Prop) :
  divides_or m P -> never_divides m Q ->
  exists a, m = Ok a /\ P a /\ Q a.
Proof.
  destruct m as [a | x |]; simpl; intros HP HQ;
    [eauto | contradiction | contradiction].
Qed.

Lemma diverges_never {A : Type} (m : res A) (P Q : A -> Prop) :
  diverges_or m P -> never_divides m Q ->
  returns_or_runs m (fun a => P a /\ Q a).
Proof.
  destruct m as [a | x |]; simpl; intros HP HQ;
    [split; assumption | contradiction | exact I].
Qed.

Lemma returns_or_runs_bind {A B : Type} (m : res A) (f : A -> res B)
    (P : A -> Prop) (Q : B -> Prop) :
  returns_or_runs m P -> (forall a, P a -> returns_or_runs (f a) Q) ->
  returns_or_runs (bind m f) Q.
Proof. destruct m; simpl; auto. Qed.

Lemma returns_or_runs_weaken {A : Type} (m : res A) (P Q : A -> Prop) :
  returns_or_runs m P -> (forall a, P a -> Q a) -> returns_or_runs m Q.
Proof. destruct m; simpl; auto. Qed.

Lemma getitem_never {A : Type} (l : list A) (z : Z) :
  never_divides (getitem l z) (fun a => In a l).
Proof.
  unfold getitem. destruct (_ || _)%bool; [simpl; discriminate |].
  destruct (nth_error l _) eqn:E; simpl; [| discriminate].
  eapply nth_error_In; exact E.
Qed.

Lemma pydiv_never (a b : R) :
  b <> 0 -> never_divides (pydiv a b) (fun q => q = a / b).
Proof. intros Hb. now rewrite pydiv_Ok. Qed.

Lemma get_emissivity_never (m : material) :
  physical_window_layer m ->
  never_divides (get_emissivity m) (fun e => 0 < e).
Proof.
  destruct m as [| r e eb | | |s]; simpl; try discriminate; tauto.
Qed.

Lemma get_emissivity_back_never (m : material) :
  physical_window_layer m ->
  never_divides (get_emissivity_back m) (fun e => 0 < e).
Proof.
  destruct m as [| r e eb | | |s]; simpl; try discriminate; [tauto |].
  destruct (shade_emissivity_back s); simpl; [tauto | discriminate].
Qed.

Lemma emissivity_back_or_front_never (m : res material) :
  never_divides m physical_window_layer ->
  never_divides (emissivity_back_or_front m) (fun e => 0 < e).
Proof.
  intros Hm. unfold emissivity_back_or_front.
  eapply never_divides_bind; [exact Hm |].
  intros a Ha.
  assert (B := get_emissivity_back_never a Ha).
  destruct (get_emissivity_back a) as [e | [] |]; simpl in B |- *;
    try exact B; try discriminate; try exact I.
  now apply get_emissivity_never.
Qed.

Lemma getitem_physical (mats : list material) (z : Z) :
  Forall physical_window_layer mats ->
  never_divides (getitem mats z) physical_window_layer.
Proof.
  intros H. eapply never_divides_weaken; [apply getitem_never |].
  intros a Ha. rewrite Forall_forall in H. now apply H.
Qed.

Lemma Forall_snoc_nonneg (l : list R) (x : R) :
  Forall (fun r => 0 <= r) l -> 0 <= x -> Forall (fun r => 0 <= r) (l ++ [x]).
Proof.
  intros Hl Hx. apply Forall_app. split; [exact Hl | now constructor].
Qed.

(** The loop of the seed build on physical layers: no division by zero,
    and no negative resistance. *)
Lemma initial_loop_never (self : WindowConstruction.t) (delta_t avg : R) :
  Forall physical_window_layer (WindowConstruction.materials self) ->
  forall (post : list material) (i : nat) (r_vals : list R)
         (emiss : list emiss_entry),
    Forall physical_window_layer post ->
    Forall (fun r => 0 <= r) r_vals ->
    never_divides
      (WindowConstruction.initial_loop self delta_t avg i post r_vals emiss)
      (fun out => Forall (fun r => 0 <= r) (fst out)).
Proof.
  intros Hall.
  induction post as [| m post IH]; intros i r_vals emiss Hphys Hpos.
  - exact Hpos.
  - assert (Hm := Forall_inv Hphys). apply Forall_inv_tail in Hphys.
    rewrite initial_loop_cons.
    destruct m as [r a | r e eb | r | g | s]; [contradiction | ..];
      cbn [is_glazing_base is_gas_base get_r_value bind].
    + apply IH; [exact Hphys |].
      apply Forall_snoc_nonneg; [exact Hpos | now destruct Hm].
    + apply IH; [exact Hphys |].
      apply Forall_snoc_nonneg; [exact Hpos | exact Hm].
    + destruct Hm as [Hu _].
      eapply never_divides_bind; [now apply getitem_physical |].
      intros next Hnext.
      eapply never_divides_bind; [now apply get_emissivity_never |].
      intros e_front _.
      eapply never_divides_bind;
        [apply emissivity_back_or_front_never; now apply getitem_physical |].
      intros e_back _. cbn [gas_of bind].
      eapply never_divides_bind.
      { apply pydiv_never.
        apply Rgt_not_eq, (Hu delta_t e_back e_front avg). }
      intros q ->. apply IH; [exact Hphys |].
      apply Forall_snoc_nonneg; [exact Hpos |].
      apply Rlt_le, Rdiv_lt_0_compat; [lra | apply Hu].
    + destruct Hm as (_ & _ & Hext & Hint & Hbet).
      destruct (i =? 0)%nat; [| destruct (Z.eqb _ _)].
      * eapply never_divides_bind; [now apply getitem_physical |].
        intros next Hnext.
        eapply never_divides_bind; [now apply get_emissivity_never |].
        intros e_back _. cbn [shade_of bind].
        apply IH; [exact Hphys |].
        apply Forall_snoc_nonneg; [exact Hpos | apply Hext].
      * eapply never_divides_bind; [now apply getitem_physical |].
        intros prev Hprev.
        eapply never_divides_bind; [now apply get_emissivity_back_never |].
        intros e_front _. cbn [shade_of bind].
        apply IH; [exact Hphys |].
        apply Forall_snoc_nonneg; [exact Hpos | apply Hint].
      * eapply never_divides_bind; [now apply getitem_physical |].
        intros next Hnext.
        eapply never_divides_bind; [now apply get_emissivity_never |].
        intros e_back _.
        eapply never_divides_bind; [now apply getitem_physical |].
        intros prev Hprev.
        eapply never_divides_bind; [now apply get_emissivity_back_never |].
        intros e_front _. cbn [shade_of bind].
        apply IH; [exact Hphys |].
        apply Forall_snoc_nonneg; [exact Hpos | apply Hbet].
Qed.

(** One pass of the refinement on physical layers. *)
Lemma refine_loop_never (temperatures r_values_init : list R)
    (emiss : list emiss_entry) (height angle pressure : R) (n : nat) :
  Forall (fun r => 0 <= r) r_values_init ->
  forall (post : list material) (i : nat) (r_vals : list R),
    Forall physical_window_layer post ->
    Forall (fun r => 0 <= r) r_vals ->
    never_divides
      (WindowConstruction.refine_loop temperatures r_values_init emiss
         height angle pressure n i post r_vals)
      (Forall (fun r => 0 <= r)).
Proof.
  intros Hinit.
  induction post as [| m post IH]; intros i r_vals Hphys Hpos.
  - exact Hpos.
  - assert (Hm := Forall_inv Hphys). apply Forall_inv_tail in Hphys.
    rewrite refine_loop_cons.
    assert (Hglaze :
              never_divides
                (do r <- getitem r_values_init (Z.of_nat i + 1) ;
                 WindowConstruction.refine_loop temperatures r_values_init
                   emiss height angle pressure n (S i) post (r_vals ++ [r]))
                (Forall (fun r => 0 <= r))).
    { eapply never_divides_bind; [apply getitem_never |].
      intros r Hr. apply IH; [exact Hphys |].
      apply Forall_snoc_nonneg; [exact Hpos |].
      rewrite Forall_forall in Hinit. now apply Hinit. }
    assert (Hentry : forall (A : Type) (f : emiss_entry -> res A)
                       (P : A -> Prop),
               (forall entry, never_divides (f entry) P) ->
               never_divides (do entry <- getitem emiss (Z.of_nat i) ;
                              f entry) P).
    { intros A f P Hf. eapply never_divides_bind; [apply getitem_never |].
      intros entry _. apply Hf. }
    assert (Hsub : forall (entry : emiss_entry) (k : nat) (A : Type)
                     (f : R -> res A) (P : A -> Prop),
               (forall e, never_divides (f e) P) ->
               never_divides (do e <- subscript entry k ; f e) P).
    { intros entry k A f P Hf.
      destruct entry as [| e | e_0 e_1]; simpl; try discriminate.
      destruct k as [| [| k]]; simpl; try discriminate; apply Hf. }
    assert (Hfloat : forall (entry : emiss_entry) (A : Type)
                       (f : R -> res A) (P : A -> Prop),
               (forall e, never_divides (f e) P) ->
               never_divides (do e <- as_float entry ; f e) P).
    { intros entry A f P Hf.
      destruct entry as [| e | e_0 e_1]; simpl; try discriminate.
      apply Hf. }
    destruct m as [r a | r e eb | r | g | s]; [contradiction | ..];
      cbn [is_glazing_base is_gas_base]; try exact Hglaze.
    + destruct Hm as [_ Hu].
      eapply never_divides_bind; [apply getitem_never |]. intros t_1 _.
      eapply never_divides_bind; [apply getitem_never |]. intros t_2 _.
      cbn [gas_of bind].
      apply Hentry; intros entry.
      apply Hsub; intros e_0. apply Hsub; intros e_1.
      eapply never_divides_bind.
      { apply pydiv_never. apply Rgt_not_eq, Hu. }
      intros q ->. apply IH; [exact Hphys |].
      apply Forall_snoc_nonneg; [exact Hpos |].
      apply Rlt_le, Rdiv_lt_0_compat; [lra | apply Hu].
    + destruct Hm as (_ & _ & Hext & Hint & Hbet).
      eapply never_divides_bind; [apply getitem_never |]. intros t_1 _.
      eapply never_divides_bind; [apply getitem_never |]. intros t_2 _.
      destruct (i =? 0)%nat; [| destruct (Z.eqb _ _)];
        cbn [shade_of bind]; apply Hentry; intros entry.
      * apply Hfloat; intros e. apply IH; [exact Hphys |].
        apply Forall_snoc_nonneg; [exact Hpos | apply Hext].
      * apply Hfloat; intros e. apply IH; [exact Hphys |].
        apply Forall_snoc_nonneg; [exact Hpos | apply Hint].
      * apply Hsub; intros e_0. apply Hsub; intros e_1.
        apply IH; [exact Hphys |].
        apply Forall_snoc_nonneg; [exact Hpos | apply Hbet].
Qed.

Lemma window_emissivities_never (self : WindowConstruction.t) :
  Forall physical_window_layer (WindowConstruction.materials self) ->
  never_divides (WindowConstruction.outside_emissivity self)
    (fun e => 0 < e)
  /\ never_divides (WindowConstruction.inside_emissivity self)
       (fun e => 0 < e).
Proof.
  intros Hall.
  unfold WindowConstruction.outside_emissivity,
    WindowConstruction.inside_emissivity.
  split.
  - eapply never_divides_bind; [now apply getitem_physical |].
    intros first Hf. destruct (is_simple_glaz_sys first); [simpl; lra |].
    now apply get_emissivity_never.
  - eapply never_divides_bind; [now apply getitem_physical |].
    intros first Hf. destruct (is_simple_glaz_sys first); [simpl; lra |].
    apply emissivity_back_or_front_never. now apply getitem_physical.
Qed.

Section PhysicalSolve.

Variable _air : air_model.
Variable self : WindowConstruction.t.
Variable inside_e : R.

Hypothesis Hair : air_positive _air.
Hypothesis Hall :
  Forall physical_window_layer (WindowConstruction.materials self).
Hypothesis Hinside : WindowConstruction.inside_emissivity self = Ok inside_e.
Hypothesis Hinside_pos : 0 < inside_e.

(** One refinement on physical layers, from temperatures above absolute
    zero: no division by zero, no negative resistance, a positive total. *)
Lemma layered_r_value_never (temperatures r_values_init : list R)
    (emiss : list emiss_entry) (height angle pressure : R) :
  0 < height ->
  Forall (fun r => 0 <= r) r_values_init ->
  Forall (fun t => -273.15 < t) temperatures ->
  never_divides
    (WindowConstruction._layered_r_value _air self temperatures
       r_values_init emiss height angle pressure)
    (fun r' => Forall (fun r => 0 <= r) r' /\ 0 < sum r').
Proof.
  intros Hh Hinit Htemps.
  unfold WindowConstruction._layered_r_value.
  eapply never_divides_bind; [apply getitem_never |]. intros r_0 Hr0.
  eapply never_divides_bind.
  { apply (refine_loop_never temperatures r_values_init emiss height angle
             pressure (length (WindowConstruction.materials self)) Hinit
             (WindowConstruction.materials self) 0 [r_0] Hall).
    constructor; [| constructor].
    rewrite Forall_forall in Hinit. now apply Hinit. }
  intros r_vals Hr_vals.
  eapply never_divides_bind; [apply getitem_never |]. intros t_last Hl.
  eapply never_divides_bind; [apply getitem_never |]. intros t_prev Hp.
  rewrite Forall_forall in Htemps.
  apply Htemps in Hl, Hp. rewrite Hinside.
  set (t_k := (t_last + t_prev) / 2 + 273.15).
  assert (Htk : 0 < t_k) by (unfold t_k; lra).
  destruct (in_h_found _air inside_e t_k (Rabs (t_last - t_prev)) height
              angle pressure Hair Htk Hh) as (nu & Hnu & ->).
  cbn [bind].
  destruct (Hair t_k Htk) as [_ Hk].
  assert (Hpos := film_positive nu (conductivity_at_temperature _air t_k)
                    height inside_e t_k Hnu Hk Hh Hinside_pos Htk).
  set (h := nu * (conductivity_at_temperature _air t_k / height)
            + 4 * 5.6697e-8 * inside_e * t_k ^ 3) in *.
  rewrite pydiv_Ok by lra. cbn [bind never_divides].
  assert (Hr_in : 0 < 1 / h) by (apply Rdiv_lt_0_compat; lra).
  split.
  - apply Forall_snoc_nonneg; [exact Hr_vals | lra].
  - rewrite sum_snoc. assert (H0 := sum_nonneg r_vals Hr_vals). lra.
Qed.

Lemma refinement_step_never (emiss : list emiss_entry)
    (T_out T_in height angle pressure : R) (r_values : list R) :
  0 < height -> -273.15 < T_out -> T_out <= T_in ->
  Forall (fun r => 0 <= r) r_values -> 0 < sum r_values ->
  never_divides
    (refinement_step _air self emiss T_out T_in height angle pressure
       r_values)
    (fun r' => Forall (fun r => 0 <= r) r' /\ 0 < sum r').
Proof.
  intros Hh Hto Hle Hpos Hsum. unfold refinement_step.
  rewrite temperature_profile_accumulate by lra. cbn [bind].
  apply layered_r_value_never; [exact Hh | exact Hpos |].
  destruct (accumulate_bounds (T_in - T_out) (sum r_values) r_values
              ltac:(lra) Hsum Hpos T_out) as [_ B].
  eapply Forall_impl; [| exact B]. simpl. intros t Ht. lra.
Qed.

Lemma profile_loop_never (emiss : list emiss_entry)
    (T_out T_in height angle pressure : R) :
  0 < height -> -273.15 < T_out -> T_out <= T_in ->
  forall (fuel : nat) (r_last : R) (r_values : list R),
    Forall (fun r => 0 <= r) r_values -> 0 < sum r_values ->
    never_divides
      (WindowConstruction.profile_loop _air self T_out T_in height angle
         pressure emiss fuel r_last r_values)
      (fun r' => Forall (fun r => 0 <= r) r' /\ 0 < sum r').
Proof.
  intros Hh Hto Hle.
  induction fuel as [| fuel IH]; intros r_last r_values Hpos Hsum.
  - simpl. destruct (Rgt_dec _ _); simpl; [exact I | now split].
  - rewrite profile_loop_unfold.
    destruct (Rgt_dec _ _); [| simpl; now split].
    eapply never_divides_bind;
      [exact (refinement_step_never emiss T_out T_in height angle pressure
                r_values Hh Hto Hle Hpos Hsum) |].
    intros r' [Hpos' Hsum']. now apply IH.
Qed.

End PhysicalSolve.

Lemma pydiv_pos (a b : R) :
  0 < a -> 0 < b -> never_divides (pydiv a b) (fun q => 0 < q).
Proof.
  intros Ha Hb. rewrite pydiv_Ok by lra. simpl.
  now apply Rdiv_lt_0_compat.
Qed.

Lemma window_films_never (self : WindowConstruction.t)
    (wind_speed t_kelvin : R) :
  Forall physical_window_layer (WindowConstruction.materials self) ->
  0 <= wind_speed -> 0 <= t_kelvin ->
  never_divides (WindowConstruction.out_r self wind_speed t_kelvin)
    (fun r => 0 < r)
  /\ never_divides (WindowConstruction.in_r_simple self) (fun r => 0 < r).
Proof.
  intros Hall Hw Ht.
  destruct (window_emissivities_never self Hall) as [Hout Hin].
  unfold WindowConstruction.out_r, WindowConstruction.in_r_simple.
  split.
  - eapply never_divides_bind; [exact Hout |]. intros e He.
    apply pydiv_pos; [lra |].
    assert (H4 := out_h_pos e wind_speed t_kelvin ltac:(lra) Hw Ht). lra.
  - eapply never_divides_bind; [exact Hin |]. intros e He.
    apply pydiv_pos; [lra |]. unfold in_h_simple.
    assert (0 < 4.4 * e / 0.84)
      by (apply Rmult_lt_0_compat; [apply Rmult_lt_0_compat; lra | lra]).
    lra.
Qed.

(** The seed of a window of physical layers: no division by zero, no
    negative resistance, a positive total. *)
Lemma seed_never (self : WindowConstruction.t) (gap_count : nat)
    (delta_t_guess avg_t_guess wind_speed : R) :
  Forall physical_window_layer (WindowConstruction.materials self) ->
  gap_count <> 0%nat -> 0 <= wind_speed ->
  0 <= avg_t_guess - delta_t_guess ->
  never_divides
    (WindowConstruction._layered_r_value_initial self gap_count
       delta_t_guess avg_t_guess wind_speed)
    (fun seed => Forall (fun r => 0 <= r) (fst seed) /\ 0 < sum (fst seed)).
Proof.
  intros Hall Hg Hw Ht.
  destruct (window_films_never self wind_speed
              (avg_t_guess - delta_t_guess) Hall Hw Ht) as [Hout Hin].
  unfold WindowConstruction._layered_r_value_initial.
  eapply never_divides_bind; [exact Hout |]. intros r_0 Hr0.
  eapply never_divides_bind;
    [apply pydiv_never; apply not_0_INR; exact Hg |].
  intros delta_t _.
  eapply never_divides_bind.
  { apply (initial_loop_never self delta_t avg_t_guess Hall
             (WindowConstruction.materials self) 0 [r_0] [] Hall).
    constructor; [| constructor]. simpl in Hr0. lra. }
  intros [r_vals emiss] Hr_vals. simpl in Hr_vals.
  eapply never_divides_bind; [exact Hin |]. intros r_in Hr_in.
  simpl in Hr_in |- *. split.
  - apply Forall_snoc_nonneg; [exact Hr_vals | lra].
  - rewrite sum_snoc. assert (H0 := sum_nonneg r_vals Hr_vals). lra.
Qed.

Lemma interior_slice_nonneg (l : list R) :
  Forall (fun r => 0 <= r) l ->
  Forall (fun r => 0 <= r) (WindowConstruction.interior_slice l).
Proof.
  intros H. unfold WindowConstruction.interior_slice.
  assert (Htl : Forall (fun r => 0 <= r) (tl l))
    by (destruct l; [constructor | now apply Forall_inv_tail in H]).
  clear H. induction (tl l) as [| x t IH]; [constructor |].
  destruct t as [| y t]; [constructor |].
  change (removelast (x :: y :: t)) with (x :: removelast (y :: t)).
  constructor; [now apply Forall_inv in Htl |].
  apply IH. now apply Forall_inv_tail in Htl.
Qed.

(** The solve behind [r_factor], on physical layers. *)
Lemma physical_solve (_air : air_model) (mats : list material)
    (c : WindowConstruction.t) (e_out : R) (fuel : nat)
    (T_out T_in height angle pressure delta_t_guess avg_t_guess
     wind_speed : R) :
  WindowConstruction.__init__ mats = Ok c ->
  (forall s, mats <> [Shade s]) ->
  Forall physical_window_layer mats ->
  air_positive _air ->
  WindowConstruction.outside_emissivity c = Ok e_out ->
  WindowConstruction.gap_count c <> 0%nat ->
  0 <= wind_speed -> 0 <= avg_t_guess - delta_t_guess ->
  0 < height -> -273.15 < T_out -> T_out <= T_in ->
  returns_or_runs
    (do seed <- WindowConstruction._layered_r_value_initial c
                  (WindowConstruction.gap_count c) delta_t_guess
                  avg_t_guess wind_speed ;
     WindowConstruction.profile_loop _air c T_out T_in height angle
       pressure (snd seed) fuel 0 (fst seed))
    (fun r_values =>
       (length r_values = (length mats + 2)%nat
        /\ nth 0 r_values 0
           = 1 / out_h e_out wind_speed (avg_t_guess - delta_t_guess))
       /\ Forall (fun r => 0 <= r) r_values /\ 0 < sum r_values).
Proof.
  intros H Hlone Hphys Hair Ho Hg Hw Ht Hh Hto Hle.
  destruct (window_init_Ok mats c H) as (_ & _ & _ & _ & Em).
  assert (Hall : Forall physical_window_layer
                   (WindowConstruction.materials c))
    by (now rewrite Em).
  destruct (inside_emissivity_found mats c H) as (e_in & Hi).
  assert (He_in : 0 < e_in).
  { destruct (window_emissivities_never c Hall) as [_ N].
    rewrite Hi in N. exact N. }
  apply diverges_never.
  - eapply diverges_or_weaken;
      [exact (layered_solve_spec _air mats c e_out fuel
                (WindowConstruction.gap_count c) T_out T_in height angle
                pressure delta_t_guess avg_t_guess wind_speed H Hlone Ho) |].
    intros r (L & Z & _). now split.
  - eapply never_divides_bind;
      [exact (seed_never c (WindowConstruction.gap_count c) delta_t_guess
                avg_t_guess wind_speed Hall Hg Hw Ht) |].
    intros seed [Hpos Hsum].
    exact (profile_loop_never _air c e_in Hair Hall Hi He_in (snd seed)
             T_out T_in height angle pressure Hh Hto Hle fuel 0 (fst seed)
             Hpos Hsum).
Qed.





(** ** The angle flip *)


(** ** The fuel of the model *)

Lemma profile_loop_fuel (_air : air_model) (self : WindowConstruction.t)
    (T_out T_in height angle pressure : R) (emiss : list emiss_entry) :
  forall (fuel fuel' : nat) (r_last : R) (r_values : list R),
    (fuel <= fuel')%nat ->
    WindowConstruction.profile_loop _air self T_out T_in height angle
      pressure emiss fuel r_last r_values <> OutOfFuel ->
    WindowConstruction.profile_loop _air self T_out T_in height angle
      pressure emiss fuel' r_last r_values
    = WindowConstruction.profile_loop _air self T_out T_in height angle
        pressure emiss fuel r_last r_values.
Proof.
  induction fuel as [| fuel IH]; intros fuel' r_last r_values Hle Hret.
  - simpl in Hret |- *.
    destruct fuel' as [| fuel']; [reflexivity |].
    rewrite profile_loop_unfold.
    destruct (Rgt_dec _ _); [easy | reflexivity].
  - destruct fuel' as [| fuel']; [lia |].
    rewrite !profile_loop_unfold in *.
    destruct (Rgt_dec _ _); [| reflexivity].
    destruct (refinement_step _air self emiss T_out T_in height angle
                pressure r_values) as [r' | x |]; cbn [bind] in *;
      [| reflexivity | reflexivity].
    apply IH; [lia | exact Hret].
Qed.



(** ** The profile and the scale of the resistances *)

Lemma accumulate_scale (k delta_t r_factor : R) (r_values : list R) :
  k <> 0 -> r_factor <> 0 ->
  forall t : R,
    accumulate t delta_t (k * r_factor) (map (Rmult k) r_values)
    = accumulate t delta_t r_factor r_values.
Proof.
  intros Hk Hr. induction r_values as [| r rest IH]; intros t;
    [reflexivity |].
  simpl. replace (k * r / (k * r_factor)) with (r / r_factor)
    by (field; split; assumption).
  now rewrite IH.
Qed.

Lemma sum_scale (k : R) (l : list R) : sum (map (Rmult k) l) = k * sum l.
Proof.
  induction l as [| x l IH]; simpl.
  - rewrite sum_nil; lra.
  - rewrite !sum_cons, IH; lra.
Qed.



(** ** The profile of an opaque construction between its two ends *)



(** ** The lone shade, whatever the shade *)

Lemma guess_film_nonneg (T_out T_in : R) :
  -272.15 <= T_out -> -272.15 <= T_in ->
  0 <= WindowConstruction.avg_guess T_out T_in
       - WindowConstruction.guess T_out T_in.
Proof.
  intros Ho Hi.
  unfold WindowConstruction.avg_guess, WindowConstruction.guess.
  destruct (Rlt_dec _ 1) as [L | G]; [lra |].
  unfold Rabs. destruct (Rcase_abs _); lra.
Qed.

Lemma lone_shade_seed_index (s : shade_methods) (has_shade : bool)
    (gap_count : nat) (delta_t_guess avg_t_guess wind_speed : R) :
  0 <= shade_emissivity s -> gap_count <> 0%nat ->
  0 <= wind_speed -> 0 <= avg_t_guess - delta_t_guess ->
  WindowConstruction._layered_r_value_initial
    {| WindowConstruction._materials := [Shade s];
       WindowConstruction._has_shade := has_shade |}
    gap_count delta_t_guess avg_t_guess wind_speed
  = Raise IndexError.
Proof.
  intros He Hg Hw Ht.
  unfold WindowConstruction._layered_r_value_initial,
    WindowConstruction.out_r, WindowConstruction.outside_emissivity.
  cbn [WindowConstruction.materials WindowConstruction._materials].
  rewrite getitem_first.
  cbn [bind is_simple_glaz_sys get_emissivity].
  assert (H4 := out_h_pos (shade_emissivity s) wind_speed
                  (avg_t_guess - delta_t_guess) He Hw Ht).
  rewrite pydiv_Ok by lra. cbn [bind].
  rewrite pydiv_Ok by (apply not_0_INR; exact Hg). cbn [bind].
  rewrite initial_loop_cons. reflexivity.
Qed.

(** X27.  Every lone shade or blind of an emissivity that is not negative
    is accepted as a window construction and counts one gap, and none of
    the three thermal queries returns for it: the seed build looks for the
    layer after the shade and raises an [IndexError], whatever the air, the
    boundary conditions (wind speed not negative, temperatures from
    -272.15 C) and the number of iterations allowed. *)
Theorem lone_shade_never_returns (_air : air_model) (s : shade_methods)
    (fuel : nat) :
  0 <= shade_emissivity s ->
  exists c,
    WindowConstruction.__init__ [Shade s] = Ok c
    /\ WindowConstruction.gap_count c = 1%nat
    /\ WindowConstruction.r_factor _air c fuel = Raise IndexError
    /\ WindowConstruction.r_value _air c fuel = Raise IndexError
    /\ forall T_out T_in wind_speed height angle pressure,
         0 <= wind_speed -> -272.15 <= T_out -> -272.15 <= T_in ->
         WindowConstruction.temperature_profile _air c fuel T_out T_in
           wind_speed height angle pressure = Raise IndexError.
Proof.
  intros He.
  exists {| WindowConstruction._materials := [Shade s];
            WindowConstruction._has_shade := true |}.
  split; [reflexivity | split; [reflexivity |]].
  unfold WindowConstruction.r_factor, WindowConstruction.r_value,
    WindowConstruction.temperature_profile,
    WindowConstruction.temperature_profile_body.
  change (WindowConstruction.gap_count _) with 1%nat. cbv iota beta.
  change (1 =? 0)%nat with false. cbv iota.
  rewrite (lone_shade_seed_index s true 1 15 273.15 6.7 He)
    by (try discriminate; lra).
  split; [reflexivity | split; [reflexivity |]].
  intros T_out T_in wind_speed height angle pressure Hw Ho Hi.
  rewrite (lone_shade_seed_index s true 1 _ _ wind_speed He
             ltac:(discriminate) Hw (guess_film_nonneg T_out T_in Ho Hi)).
  reflexivity.
Qed.

Lemma lone_shade_never_returns_witness :
  0 <= shade_emissivity plain_shade_methods
  /\ exists c,
       WindowConstruction.__init__ [plain_shade] = Ok c
       /\ WindowConstruction.gap_count c = 1%nat
       /\ WindowConstruction.r_factor generic_air c 4 = Raise IndexError
       /\ WindowConstruction.r_value generic_air c 4 = Raise IndexError
       /\ forall T_out T_in wind_speed height angle pressure,
            0 <= wind_speed -> -272.15 <= T_out -> -272.15 <= T_in ->
            WindowConstruction.temperature_profile generic_air c 4 T_out
              T_in wind_speed height angle pressure = Raise IndexError.
Proof.
  assert (H : 0 <= shade_emissivity plain_shade_methods) by (simpl; lra).
  exact (conj H (lone_shade_never_returns generic_air plain_shade_methods
                   4 H)).
Defined.
